(** * ANUGA geo-referencing and geospatial point sets

    A shallow embedding of
    [anuga/coordinate_transforms/geo_reference.py] and
    [anuga/geospatial_data/geospatial_data.py].

    Conventions of the embedding.
    - A Python float is a rational ([Q]): every finite double is one.  How
      the sum and the difference of two floats are rounded is said by an
      instance of [Arithmetic], over which the functions and the statements
      about them are generic.  The statements on rounding hold for every
      instance of a given accuracy; [double_arithmetic] rounds to the 53 bits
      of a double, and [exact_arithmetic], which rounds nothing, is the
      instance of a statement or sample run that names none.  Comparisons
      are those of [Q]; a float that is not a number (NaN) is told apart
      only where it changes what a function does ([__cmp__]).
    - Python ints (UTM zones) are [Z]; an int beyond [sys_maxint], which an
      instance of [Platform] gives, is a long.
    - A Numeric array is an [ndarray]: its rank is explicit, so the shape
      checks of the source can be followed case by case.
    - A dictionary of attributes is a [gmap string (list Q)].
    - A function that can raise returns a [result]; a method that assigns to
      fields of its arguments returns the objects as they are afterwards next
      to its outcome. *)

From Stdlib Require Import ZArith QArith Qabs Lqa Lia String Ascii List
  DecimalString.
From stdpp Require Import base option list strings gmap fin_maps.

Local Open Scope Q_scope.

(** ** Exceptions and outcomes *)

Inductive exn :=
  | AssertionError
  | ShapeError
  | TypeError
  | ValueError
  | SyntaxError
  | IOError
  | AttributeError
  | IndexError
  | KeyError
  | ANUGAError
  | TitleError
  | ParsingError
  | UnboundLocalError
  | PyException.

Inductive result (A : Type) :=
  | Ok (a : A)
  | Raise (e : exn).
Arguments Ok {A} a.
Arguments Raise {A} e.

#[global] Instance result_ret : MRet result := fun A a => Ok a.
#[global] Instance result_bind : MBind result := fun A B f r =>
  match r with
  | Ok a => f a
  | Raise e => Raise e
  end.

#[global] Instance result_fmap : FMap result := fun A B f r =>
  match r with
  | Ok a => Ok (f a)
  | Raise e => Raise e
  end.

(** [assert cond] of Python, with assertions enabled. *)
Definition py_assert (cond : bool) : result unit :=
  if cond then Ok tt else Raise AssertionError.

(** [try: body except E: handler] for one exception class. *)
Definition try_except {A} (body : result A) (E : exn -> bool)
    (handler : result A) : result A :=
  match body with
  | Ok a => Ok a
  | Raise e => if E e then handler else Raise e
  end.

(** ** Floats and ints *)

Definition Qlt_bool (x y : Q) : bool := negb (Qle_bool y x).

(** [x + y] and [x - y] on floats.  The arithmetic of doubles is built into
    Python and Numeric; an instance says how it rounds. *)
Class Arithmetic := {
  fadd : Q -> Q -> Q;
  fsub : Q -> Q -> Q
}.

(** Arithmetic that rounds nothing. *)
#[global] Instance exact_arithmetic : Arithmetic :=
  {| fadd := Qplus; fsub := Qminus |}.

(** [2 ^ e] for an exponent of either sign. *)
Definition pow2 (e : Z) : Q :=
  if (0 <=? e)%Z then inject_Z (2 ^ e) else 1 # Z.to_pos (2 ^ (- e)).

(** The integer nearest to [n / d], the even one of two that are equally
    near ([0 <= n], [0 < d]). *)
Definition round_half_even (n d : Z) : Z :=
  let q := (n / d)%Z in
  let r := (n mod d)%Z in
  match (2 * r ?= d)%Z with
  | Lt => q
  | Gt => (q + 1)%Z
  | Eq => if Z.even q then q else (q + 1)%Z
  end.

(** [n / d] divided by [2 ^ e], as a fraction of integers. *)
Definition scaled (n d e : Z) : Z * Z :=
  if (0 <=? e)%Z then (n, d * 2 ^ e)%Z else (n * 2 ^ (- e), d)%Z.

(** Rounding to a significand of 53 bits, to nearest and ties to even: the
    exponent [e] is the one that puts [|x| / 2 ^ e] between [2 ^ 52] and
    [2 ^ 53].  The exponent is not bounded.  On the sum or difference of two
    doubles this is the rounding of IEEE 754 binary64 as long as the result
    does not overflow: a sum of two doubles that is below the normal range
    is a multiple of the least positive double, hence a double, and is
    rounded by neither. *)
Definition round_double (x : Q) : Q :=
  let n := Z.abs (Qnum x) in
  let d := Zpos (Qden x) in
  if (n =? 0)%Z then 0 else
  let e0 := (Z.log2 n - Z.log2 d - 52)%Z in
  let '(a, b) := scaled n d e0 in
  let e := if (a <? 2 ^ 52 * b)%Z then (e0 - 1)%Z else e0 in
  let '(a, b) := scaled n d e in
  Qred (inject_Z (Z.sgn (Qnum x) * round_half_even a b) * pow2 e).

(** The arithmetic of doubles. *)
Definition double_arithmetic : Arithmetic :=
  {| fadd x y := round_double (x + y); fsub x y := round_double (x - y) |}.

(** A float as [==] sees it: a number, or NaN, which equals nothing, itself
    included. *)
Inductive pyfloat :=
  | Number (x : Q)
  | NaN.

Definition float_eq (x y : pyfloat) : bool :=
  match x, y with
  | Number x, Number y => Qeq_bool x y
  | _, _ => false
  end.

(** What the build of Python fixes: [sys.maxint]; [int()] of a literal
    beyond it is a long.  The functions and the statements about them are
    generic in it; a sample run that names no build is one on 64 bits. *)
Class Platform := {
  sys_maxint : Z
}.

#[global] Instance platform_64 : Platform :=
  {| sys_maxint := 9223372036854775807 |}.

(** [type(z) == types.IntType] and [type(x) == types.FloatType] for what
    [int()] and [float()] return. *)
Definition is_IntType {platform : Platform} (z : Z) : bool :=
  (- sys_maxint - 1 <=? z)%Z && (z <=? sys_maxint)%Z.

Definition is_FloatType (x : Q) : bool := true.

(** ** Geo_reference *)

Definition DEFAULT_ZONE : Z := (-1)%Z.
Definition TITLE : string := "#geo reference" +:+ String "010" EmptyString.

Record Geo_reference := mkGeo {
  zone : Z;
  xllcorner : Q;
  yllcorner : Q;
  datum : string;
  projection : string;
  units : string;
  false_easting : Z;
  false_northing : Z
}.

(** [Geo_reference(zone, xllcorner, yllcorner)], the other fields at their
    defaults and no file handle given. *)
Definition Geo_reference_init (zone : Z) (xllcorner yllcorner : Q)
    : Geo_reference :=
  mkGeo zone xllcorner yllcorner "wgs84" "UTM" "m" 500000 10000000.

Definition Geo_reference_default : Geo_reference :=
  Geo_reference_init DEFAULT_ZONE 0 0.

Definition set_zone (g : Geo_reference) (z : Z) : Geo_reference :=
  mkGeo z (xllcorner g) (yllcorner g) (datum g) (projection g) (units g)
        (false_easting g) (false_northing g).

Definition get_xllcorner (self : Geo_reference) : Q := xllcorner self.
Definition get_yllcorner (self : Geo_reference) : Q := yllcorner self.
Definition get_zone (self : Geo_reference) : Z := zone self.
Definition get_origin (self : Geo_reference) : Z * Q * Q :=
  (zone self, xllcorner self, yllcorner self).

(** [reconcile_zones] assigns to [self.zone] or [other.zone]; the pair is
    [self] and [other] after the call.  When [self] and [other] are one
    object their zones are equal and the first branch applies. *)
Definition reconcile_zones (self other : Geo_reference)
    : (Geo_reference * Geo_reference) * result unit :=
  if (zone self =? zone other)%Z
     || ((zone self =? DEFAULT_ZONE)%Z && (zone other =? DEFAULT_ZONE)%Z)
  then ((self, other), Ok tt)
  else if (zone self =? DEFAULT_ZONE)%Z
  then ((set_zone self (zone other), other), Ok tt)
  else if (zone other =? DEFAULT_ZONE)%Z
  then ((self, set_zone other (zone self)), Ok tt)
  else ((self, other), Raise ANUGAError).

(** What [__cmp__] reads of an object: its zone and its origin.  The
    constructor stores whatever floats it is given, so either coordinate may
    be NaN; [fields_of] are the fields of an object whose origin is made of
    numbers, as every [Geo_reference] of this development is. *)
Record Geo_fields := mkFields {
  fields_zone : Z;
  fields_xllcorner : pyfloat;
  fields_yllcorner : pyfloat
}.

Definition fields_of (g : Geo_reference) : Geo_fields :=
  mkFields (zone g) (Number (xllcorner g)) (Number (yllcorner g)).

(** [__cmp__]: every comparison after the [None] test is between a field of
    [self] and the same field of [self]. *)
Definition __cmp__ (self : Geo_fields) (other : option Geo_fields) : Z :=
  match other with
  | None => 1%Z
  | Some _ =>
      let cmp := 0%Z in
      let cmp := if negb (float_eq (fields_xllcorner self) (fields_xllcorner self))
                 then 1%Z else cmp in
      let cmp := if negb (float_eq (fields_yllcorner self) (fields_yllcorner self))
                 then 1%Z else cmp in
      let cmp := if negb (fields_zone self =? fields_zone self)%Z
                 then 1%Z else cmp in
      cmp
  end.

(** ** Numeric arrays *)

(** A Numeric array of floats, by rank: a scalar, a vector, a matrix (with
    its column count, which an empty matrix still has) or an array of rank
    three or more. *)
Inductive ndarray :=
  | Arr0 (x : Q)
  | Arr1 (xs : list Q)
  | Arr2 (ncols : nat) (rows : list (list Q))
  | ArrN (dims : list nat) (flat : list Q).

Definition shape (a : ndarray) : list nat :=
  match a with
  | Arr0 _ => []
  | Arr1 xs => [length xs]
  | Arr2 ncols rows => [length rows; ncols]
  | ArrN dims _ => dims
  end.

(** [len(points)] for an array of rank one or more. *)
Definition len (a : ndarray) : nat := hd 0%nat (shape a).

(** A Python sequence handed in as points: a list (of lists) or an array;
    in both cases the array that Numeric's [array(..., Float)] makes of it. *)
Inductive pyseq :=
  | PyList (a : ndarray)
  | PyArray (a : ndarray).

Definition is_ListType (p : pyseq) : bool :=
  match p with PyList _ => true | PyArray _ => false end.

(** Modelled from the spec: [ensure_numeric] of
    [anuga.utilities.numerical_tools] is not among the sources.  On values it
    yields the Float array holding the elements of its argument; whether that
    array is a new object is a separate matter, see [Module Store]. *)
Definition ensure_numeric (p : pyseq) : ndarray :=
  match p with PyList a => a | PyArray a => a end.

Definition as_input (is_list : bool) (a : ndarray) : pyseq :=
  if is_list then PyList a else PyArray a.

(** [reshape(points, (1,2))] of a vector of two elements. *)
Definition reshape_1x2 (a : ndarray) : ndarray :=
  match a with
  | Arr1 xs => Arr2 2 [xs]
  | _ => a
  end.

(** ['... %d x %d' % points.shape]: the format needs a tuple of exactly two
    numbers. *)
Definition format_shape (a : ndarray) : result (nat * nat) :=
  match shape a with
  | [n; m] => Ok (n, m)
  | _ => Raise TypeError
  end.

(** [points[:,j] += d] and [points[:,j] -= d], in the arithmetic given. *)
Definition col_add {arith : Arithmetic} (j : nat) (d : Q) (a : ndarray) : ndarray :=
  match a with
  | Arr2 ncols rows => Arr2 ncols (map (alter (fun x => fadd x d) j) rows)
  | _ => a
  end.

Definition col_sub {arith : Arithmetic} (j : nat) (d : Q) (a : ndarray) : ndarray :=
  match a with
  | Arr2 ncols rows => Arr2 ncols (map (alter (fun x => fsub x d) j) rows)
  | _ => a
  end.

(** Numeric's [allclose(a, b)] with its default tolerances, for a scalar
    [b]: every [|x - b|] is below [atol + rtol * |b|]. *)
Definition rtol : Q := 1 # 100000.
Definition atol : Q := 1 # 100000000.

Definition allclose (a : list Q) (b : Q) : bool :=
  forallb (fun x => Qlt_bool (Qabs (x - b)) (atol + rtol * Qabs b)) a.

Definition is_absolute (self : Geo_reference) : bool :=
  allclose [xllcorner self; yllcorner self] 0.

(** The argument [points_geo_ref] (and [geo_reference] of
    [get_data_points]): [None], the very object it is compared to with
    [is], or another object. *)
Inductive geo_param :=
  | NoGeo
  | SameGeo
  | OtherGeo (g : Geo_reference).

Definition get_absolute {arith : Arithmetic} (self : Geo_reference) (points : pyseq)
    : result pyseq :=
  let is_list := is_ListType points in
  let points := ensure_numeric points in
  _ ← (if (length (shape points) =? 1)%nat
       then if negb (len points =? 2)%nat then Raise ShapeError else Ok tt
       else Ok tt);
  '(_, ncols) ← format_shape points;
  if negb (ncols =? 2)%nat then Raise ShapeError else
  let points :=
    if negb (is_absolute self)
    then col_add 1 (yllcorner self) (col_add 0 (xllcorner self) points)
    else points in
  Ok (as_input is_list points).

Definition change_points_geo_ref {arith : Arithmetic} (self : Geo_reference)
    (points : pyseq) (points_geo_ref : geo_param) : result pyseq :=
  let is_list := is_ListType points in
  let points := ensure_numeric points in
  points ← (if (length (shape points) =? 1)%nat
            then _ ← py_assert (len points =? 2)%nat;
                 Ok (reshape_1x2 points)
            else Ok points);
  '(_, ncols) ← format_shape points;
  _ ← py_assert (ncols =? 2)%nat;
  let points :=
    match points_geo_ref with
    | SameGeo => points
    | _ =>
        let points :=
          match points_geo_ref with
          | OtherGeo g => col_add 1 (yllcorner g) (col_add 0 (xllcorner g) points)
          | _ => points
          end in
        col_sub 1 (yllcorner self) (col_sub 0 (xllcorner self) points)
    end in
  Ok (as_input is_list points).

(** ** Geospatial_data *)

(** Numeric's [concatenate((a, b), axis=0)]: same rank, and for matrices the
    same number of columns. *)
Definition concatenate (a b : ndarray) : result ndarray :=
  match a, b with
  | Arr1 xs, Arr1 ys => Ok (Arr1 (xs ++ ys))
  | Arr2 c1 rows1, Arr2 c2 rows2 =>
      if (c1 =? c2)%nat then Ok (Arr2 c1 (rows1 ++ rows2)) else Raise ValueError
  | _, _ => Raise ValueError
  end.

(** Numeric's [take(a, indices)] along the first axis. *)
Fixpoint Numeric_take {A} (a : list A) (indices : list nat) : result (list A) :=
  match indices with
  | [] => Ok []
  | i :: indices =>
      match a !! i with
      | Some x => rest ← Numeric_take a indices; Ok (x :: rest)
      | None => Raise IndexError
      end
  end.

Definition take_rows (a : ndarray) (indices : list nat) : result ndarray :=
  match a with
  | Arr1 xs => xs ← Numeric_take xs indices; Ok (Arr1 xs)
  | Arr2 ncols rows => rows ← Numeric_take rows indices; Ok (Arr2 ncols rows)
  | _ => Raise ValueError
  end.

Record Geospatial_data := mkGeospatial {
  data_points : ndarray;
  attributes : option (gmap string (list Q));
  geo_reference : Geo_reference;
  default_attribute_name : option string
}.

Definition with_geo_reference (self : Geospatial_data) (g : Geo_reference)
    : Geospatial_data :=
  mkGeospatial (data_points self) (attributes self) g
               (default_attribute_name self).

(** The [attributes] argument of the constructor: [None], one sequence, or a
    dictionary. *)
Inductive attributes_arg :=
  | AttrNone
  | AttrSeq (values : list Q)
  | AttrDict (d : gmap string (list Q)).

Definition check_data_points (data_points : option pyseq) : result ndarray :=
  match data_points with
  | None => Raise ValueError
  | Some p =>
      let a := ensure_numeric p in
      _ ← py_assert (length (shape a) =? 2)%nat;
      _ ← py_assert (nth 1 (shape a) 0 =? 2)%nat;
      Ok a
  end.

Definition set_attributes (attributes : attributes_arg)
    : option (gmap string (list Q)) :=
  match attributes with
  | AttrNone => None
  | AttrSeq values => Some {[ "attribute" := values ]}
  | AttrDict d => Some d
  end.

Definition attributes_as_arg (a : option (gmap string (list Q)))
    : attributes_arg :=
  match a with
  | None => AttrNone
  | Some d => AttrDict d
  end.

(** [Geospatial_data(data_points, attributes, geo_reference, ...)] with no
    file name, delimiter, latitudes or longitudes: [self.geo_reference] is
    still [None] when [set_geo_reference] runs, so no point is moved. *)
Definition Geospatial_data_init (data_points : option pyseq)
    (attributes : attributes_arg) (geo_reference : option Geo_reference)
    (default_attribute_name : option string) : result Geospatial_data :=
  points ← check_data_points data_points;
  let attributes := set_attributes attributes in
  let geo_reference := default Geo_reference_default geo_reference in
  Ok (mkGeospatial points attributes geo_reference default_attribute_name).

Definition get_geo_reference (self : Geospatial_data) : Geo_reference :=
  geo_reference self.

Definition get_all_attributes (self : Geospatial_data)
    : option (gmap string (list Q)) :=
  attributes self.

Definition array_of (p : pyseq) : ndarray := ensure_numeric p.

(** [get_data_points(absolute, geo_reference)]; [SameGeo] stands for the
    object [self.geo_reference] itself. *)
Definition get_data_points {arith : Arithmetic} (self : Geospatial_data)
    (absolute : bool) (geo_ref : geo_param) : result ndarray :=
  match geo_ref with
  | NoGeo =>
      if absolute
      then array_of <$> get_absolute (geo_reference self) (PyArray (data_points self))
      else Ok (data_points self)
  | SameGeo =>
      array_of <$> change_points_geo_ref (geo_reference self)
                     (PyArray (data_points self)) SameGeo
  | OtherGeo g =>
      array_of <$> change_points_geo_ref g (PyArray (data_points self))
                     (OtherGeo (geo_reference self))
  end.

(** The attribute loop of [__add__]. *)
Definition add_attributes (self_attributes other_attributes
    : option (gmap string (list Q))) : result (option (gmap string (list Q))) :=
  match self_attributes with
  | None =>
      match other_attributes with
      | Some _ => Raise PyException
      | None => Ok None
      end
  | Some attributes1 =>
      new_attributes ←
        map_fold (fun x attrib1 acc =>
                    new_attributes ← acc;
                    match other_attributes with
                    | None => Raise AttributeError
                    | Some attributes2 =>
                        match attributes2 !! x with
                        | Some attrib2 =>
                            Ok (<[x := attrib1 ++ attrib2]> new_attributes)
                        | None => Raise PyException
                        end
                    end)
                 (Ok ∅) attributes1;
      Ok (Some new_attributes)
  end.

(** [self + other].  The pair is [self] and [other] after the call: zone
    reconciliation may have assigned to a zone field. *)
Definition __add__ {arith : Arithmetic} (self other : Geospatial_data)
    : (Geospatial_data * Geospatial_data) * result Geospatial_data :=
  let geo_ref1 := get_geo_reference self in
  let geo_ref2 := get_geo_reference other in
  let '((geo_ref1, geo_ref2), reconciled) := reconcile_zones geo_ref1 geo_ref2 in
  let self := with_geo_reference self geo_ref1 in
  let other := with_geo_reference other geo_ref2 in
  ((self, other),
   _ ← reconciled;
   let xll :=
     if Qle_bool (xllcorner (geo_reference self)) (xllcorner (geo_reference other))
     then xllcorner (geo_reference self)
     else xllcorner (geo_reference other) in
   let yll :=
     if Qle_bool (yllcorner (geo_reference self)) (yllcorner (geo_reference other))
     then yllcorner (geo_reference self)
     else yllcorner (geo_reference other) in
   let new_geo_ref := Geo_reference_init (get_zone geo_ref1) xll yll in
   relative_points1 ← get_data_points self false NoGeo;
   relative_points2 ← get_data_points other false NoGeo;
   new_relative_points1 ←
     change_points_geo_ref new_geo_ref (PyArray relative_points1) (OtherGeo geo_ref1);
   new_relative_points2 ←
     change_points_geo_ref new_geo_ref (PyArray relative_points2) (OtherGeo geo_ref2);
   new_points ← concatenate (array_of new_relative_points1)
                            (array_of new_relative_points2);
   new_attributes ← add_attributes (attributes self) (attributes other);
   Geospatial_data_init (Some (PyArray new_points))
                        (attributes_as_arg new_attributes)
                        (Some new_geo_ref) None).

(** *** Clipping by a polygon *)

(** [enumerate]-style selection: the positions, counted from [i], of the
    elements that satisfy [P], in increasing order. *)
Fixpoint indices_where {A} (P : A -> bool) (i : nat) (l : list A) : list nat :=
  match l with
  | [] => []
  | x :: l =>
      if P x then i :: indices_where P (S i) l else indices_where P (S i) l
  end.

(** The [polygon] argument of [clip]: points, or a Geospatial_data object. *)
Inductive polygon_arg :=
  | PolygonPoints (p : pyseq)
  | PolygonGeospatial (g : Geospatial_data).

Section Clip.

Context {arith : Arithmetic}.

(** The geometric test behind [anuga.utilities.polygon]: is this point
    inside the polygon, its boundary counted when [closed]. *)
Variable point_in_polygon : list Q -> ndarray -> bool -> bool.

(** Modelled from the spec: [inside_polygon] of [anuga.utilities.polygon]
    is not among the sources.  It is the polygon-containment collaborator
    [point-in-polygon(points, polygon, closed) -> indices]: the indices of
    the points inside the polygon. *)
Definition inside_polygon (points polygon : ndarray) (closed : bool)
    : list nat :=
  match points with
  | Arr2 _ rows =>
      indices_where (fun p => point_in_polygon p polygon closed) 0 rows
  | _ => []
  end.

(** Modelled from the spec: [outside_polygon] of
    [anuga.utilities.polygon] is not among the sources.  It yields the
    indices of the points that are not inside the polygon, the set
    complement of [inside_polygon] over the point index range. *)
Definition outside_polygon (points polygon : ndarray) (closed : bool)
    : list nat :=
  match points with
  | Arr2 _ rows =>
      indices_where (fun p => negb (point_in_polygon p polygon closed)) 0 rows
  | _ => []
  end.

(** The loop [for key, att in attributes.items()] of [clip] and
    [clip_outside]. *)
Definition clip_attributes (attributes : option (gmap string (list Q)))
    (indices : list nat) : result (gmap string (list Q)) :=
  match attributes with
  | None => Ok ∅
  | Some attributes =>
      map_fold (fun key att acc =>
                  clipped_attributes ← acc;
                  values ← Numeric_take att indices;
                  Ok (<[key := values]> clipped_attributes))
               (Ok ∅) attributes
  end.

Definition polygon_points (polygon : polygon_arg) : result ndarray :=
  match polygon with
  | PolygonGeospatial g => get_data_points g true NoGeo
  | PolygonPoints p => Ok (ensure_numeric p)
  end.

Definition clip (self : Geospatial_data) (polygon : polygon_arg)
    (closed : bool) : result Geospatial_data :=
  polygon ← polygon_points polygon;
  points ← get_data_points self true NoGeo;
  let inside_indices := inside_polygon points polygon closed in
  clipped_points ← take_rows points inside_indices;
  let attributes := get_all_attributes self in
  clipped_attributes ← clip_attributes attributes inside_indices;
  Geospatial_data_init (Some (PyArray clipped_points))
                       (AttrDict clipped_attributes) None None.

Definition clip_outside (self : Geospatial_data) (polygon : polygon_arg)
    (closed : bool) : result Geospatial_data :=
  polygon ← polygon_points polygon;
  points ← get_data_points self true NoGeo;
  let outside_indices := outside_polygon points polygon closed in
  clipped_points ← take_rows points outside_indices;
  let attributes := get_all_attributes self in
  clipped_attributes ← clip_attributes attributes outside_indices;
  Geospatial_data_init (Some (PyArray clipped_points))
                       (AttrDict clipped_attributes) None None.

End Clip.

(** ** Arrays as shared objects *)

(** [get_absolute] updates the array it works on in place.  Whether that
    array is the caller's depends on [ensure_numeric], which is not among
    the sources; here arrays live in a heap and [ensure_numeric] is a
    parameter. *)
Module Store.

Abbreviation loc := positive.
Abbreviation heap := (gmap positive ndarray).

(** A Geospatial_data object: [data_points] is a reference. *)
Record Geospatial_obj := mkObj {
  obj_data_points : loc;
  obj_geo_reference : Geo_reference
}.

Section WithEnsureNumeric.

Context {arith : Arithmetic}.

(** [ensure_numeric(A, Float)] on an array object: the heap afterwards
    and the array it returns. *)
Variable ensure_numeric_Float : heap -> loc -> heap * loc.

Definition get_absolute (self : Geo_reference) (h : heap) (points : loc)
    : heap * result loc :=
  let '(h, points) := ensure_numeric_Float h points in
  match h !! points with
  | None => (h, Raise ValueError)
  | Some a =>
      if (length (shape a) =? 1)%nat && negb (len a =? 2)%nat
      then (h, Raise ShapeError)
      else match format_shape a with
           | Raise e => (h, Raise e)
           | Ok (_, ncols) =>
               if negb (ncols =? 2)%nat then (h, Raise ShapeError) else
               let h :=
                 if negb (is_absolute self)
                 then alter (col_add 1 (yllcorner self)) points
                        (alter (col_add 0 (xllcorner self)) points h)
                 else h in
               (h, Ok points)
           end
  end.

(** [get_data_points(absolute=True)], no [geo_reference] given. *)
Definition get_data_points (self : Geospatial_obj) (h : heap)
    : heap * result loc :=
  get_absolute (obj_geo_reference self) h (obj_data_points self).

End WithEnsureNumeric.

(** An [ensure_numeric] that builds a new array, and one that hands its
    argument back. *)
Definition copying (h : heap) (l : loc) : heap * loc :=
  let l' := fresh (dom h) in
  (match h !! l with Some a => <[l' := a]> h | None => h end, l').

Definition aliasing (h : heap) (l : loc) : heap * loc := (h, l).

End Store.

(** ** Text (.xya) point files *)

Definition newline : ascii := "010"%char.

(** A line of text with its newline. *)
Definition text_line (s : string) : string := s +:+ String newline "".

(** The characters [str.strip()] removes. *)
Definition is_space (c : ascii) : bool :=
  (c =? " ")%char || (c =? "009")%char || (c =? "010")%char
  || (c =? "011")%char || (c =? "012")%char || (c =? "013")%char.

Fixpoint lstrip (s : string) : string :=
  match s with
  | EmptyString => EmptyString
  | String c s' => if is_space c then lstrip s' else s
  end.

Fixpoint rstrip (s : string) : string :=
  match s with
  | EmptyString => EmptyString
  | String c s' =>
      let r := rstrip s' in
      if is_space c && (r =? "")%string then "" else String c r
  end.

Definition strip (s : string) : string := lstrip (rstrip s).

(** [s.split(sep)] for a separator of one character. *)
Fixpoint split (sep : ascii) (s : string) : list string :=
  match s with
  | EmptyString => [""]
  | String c s' =>
      if (c =? sep)%char then "" :: split sep s'
      else match split sep s' with
           | field :: fields => String c field :: fields
           | [] => [String c ""]
           end
  end.

Definition upper_char (c : ascii) : ascii :=
  let n := nat_of_ascii c in
  if (97 <=? n)%nat && (n <=? 122)%nat then ascii_of_nat (n - 32) else c.

Fixpoint upper (s : string) : string :=
  match s with
  | EmptyString => EmptyString
  | String c s' => String (upper_char c) (upper s')
  end.

(** [s[0:-1]]. *)
Fixpoint drop_last (s : string) : string :=
  match s with
  | EmptyString => EmptyString
  | String c EmptyString => EmptyString
  | String c s' => String c (drop_last s')
  end.

(** The lines of a file as successive [readline()] calls return them, each
    with its newline (the last one possibly without). *)
Fixpoint readlines_from (cur : string -> string) (s : string) : list string :=
  match s with
  | EmptyString =>
      match cur "" with EmptyString => [] | line => [line] end
  | String c s' =>
      if (c =? newline)%char
      then cur (String c "") :: readlines_from (fun x => x) s'
      else readlines_from (fun x => cur (String c x)) s'
  end.

Definition readlines (content : string) : list string :=
  readlines_from (fun x => x) content.

(** [fd.readline()] on the lines still to be read: [''] at end of file. *)
Definition readline (fd : list string) : string * list string :=
  match fd with
  | [] => ("", [])
  | line :: fd => (line, fd)
  end.

Definition clean_line (line : string) (delimiter : ascii) : list string :=
  let line := strip line in
  let numbers := split delimiter line in
  map strip (filter (fun field => field ≠ "") numbers).

Definition starts_with (c : ascii) (s : string) : bool :=
  match s with
  | String c' _ => (c' =? c)%char
  | EmptyString => false
  end.

(** Plain decimal literals, the part of [int()] and [float()] needed to run
    the parser on sample files. *)
Definition digit_of (c : ascii) : option Z :=
  let n := nat_of_ascii c in
  if (48 <=? n)%nat && (n <=? 57)%nat then Some (Z.of_nat (n - 48)) else None.

Fixpoint digits_value (s : string) (acc : Z) : option Z :=
  match s with
  | EmptyString => Some acc
  | String c s' => d ← digit_of c; digits_value s' (10 * acc + d)%Z
  end.

Definition unsigned_literal (s : string) : option Z :=
  match s with
  | EmptyString => None
  | _ => digits_value s 0%Z
  end.

Definition decimal_int (s : string) : option Z :=
  match s with
  | String "-" s' => Z.opp <$> unsigned_literal s'
  | _ => unsigned_literal s
  end.

Definition unsigned_decimal (s : string) : option Q :=
  match split "." s with
  | [whole] => inject_Z <$> unsigned_literal whole
  | [whole; frac] =>
      w ← unsigned_literal whole;
      f ← unsigned_literal frac;
      Some (inject_Z w + inject_Z f / inject_Z (10 ^ Z.of_nat (String.length frac)))%Q
  | _ => None
  end.

Definition decimal_float (s : string) : option Q :=
  match s with
  | String "-" s' => Qopp <$> unsigned_decimal s'
  | _ => unsigned_decimal s
  end.

Section TextFiles.

Context {arith : Arithmetic} {platform : Platform}.

(** [int()] and [float()] on a literal without surrounding blanks, and
    [str()] of an int and of a float: built into Python. *)
Variable int_literal : string -> option Z.
Variable float_literal : string -> option Q.
Variable str_int : Z -> string.
Variable str_float : Q -> string.

Definition py_int (s : string) : result Z :=
  match int_literal (strip s) with
  | Some z => Ok z
  | None => Raise ValueError
  end.

Definition py_float (s : string) : result Q :=
  match float_literal (strip s) with
  | Some x => Ok x
  | None => Raise ValueError
  end.

Definition write_ASCII (self : Geo_reference) : string :=
  TITLE
  +:+ str_int (zone self) +:+ String newline ""
  +:+ str_float (xllcorner self) +:+ String newline ""
  +:+ str_float (yllcorner self) +:+ String newline "".

(** [read_ASCII(fd, read_title)] on the lines still to be read; the result
    is [self] with zone and origin as read.  The three asserts on the types
    of what was read close the method. *)
Definition read_ASCII (self : Geo_reference) (fd : list string)
    (read_title : option string) : result Geo_reference :=
  self ←
    try_except
      (let '(read_title, fd) :=
         match read_title with
         | None => readline fd
         | Some title => (title, fd)
         end in
       if negb (upper (substring 0 2 read_title) =? upper (substring 0 2 TITLE))%string
       then Raise TitleError
       else
         let '(line, fd) := readline fd in
         zone ← py_int line;
         let '(line, fd) := readline fd in
         xllcorner ← py_float line;
         let '(line, fd) := readline fd in
         yllcorner ← py_float line;
         Ok (mkGeo zone xllcorner yllcorner (datum self) (projection self)
                   (units self) (false_easting self) (false_northing self)))
      (fun e => match e with SyntaxError => true | _ => false end)
      (Raise ParsingError);
  _ ← py_assert (is_FloatType (xllcorner self));
  _ ← py_assert (is_FloatType (yllcorner self));
  _ ← py_assert (is_IntType (zone self));
  Ok self.

(** [Geo_reference(ASCIIFile=fd, read_title=line)]. *)
Definition Geo_reference_from_ASCII (fd : list string) (read_title : option string)
    : result Geo_reference :=
  read_ASCII Geo_reference_default fd read_title.

(** The attribute loop of [_read_xya_file] over one data line. *)
Fixpoint read_attributes (att_names numbers : list string)
    (att_dict : gmap string (list Q)) : result (gmap string (list Q)) :=
  match numbers with
  | [] => Ok att_dict
  | num :: numbers =>
      match att_names with
      | [] => Raise IndexError
      | name :: att_names =>
          att_dict ←
            (if negb (num =? String newline "")%string && negb (num =? "")%string
             then value ← py_float num;
                  Ok (<[name := default [] (att_dict !! name) ++ [value]]> att_dict)
             else Ok att_dict);
          read_attributes att_names numbers att_dict
      end
  end.

(** The body of the [while] loop of [_read_xya_file], with its
    [except ValueError: raise SyntaxError]. *)
Definition read_data_line (att_names numbers : list string)
    (points : list (list Q)) (att_dict : gmap string (list Q))
    : result (list (list Q) * gmap string (list Q)) :=
  try_except
    (match numbers with
     | n0 :: n1 :: numbers =>
         x ← py_float n0;
         y ← py_float n1;
         let points := points ++ [[x; y]] in
         if negb (length att_names =? length numbers)%nat then Raise IOError
         else att_dict ← read_attributes att_names numbers att_dict;
              Ok (points, att_dict)
     | _ => Raise IndexError
     end)
    (fun e => match e with ValueError => true | _ => false end)
    (Raise SyntaxError).

(** The [while] loop of [_read_xya_file]: [line] has been read, [fd] is
    what follows.  The result is the line that ended the loop, the lines
    after it, the points and the attributes. *)
Fixpoint read_data_lines (att_names : list string) (delimiter : ascii)
    (line : string) (fd : list string) (points : list (list Q))
    (att_dict : gmap string (list Q))
    : result (string * list string * list (list Q) * gmap string (list Q)) :=
  let numbers := clean_line line delimiter in
  if (1 <? length numbers)%nat && negb (starts_with "#" line)
  then
    '(points, att_dict) ← read_data_line att_names numbers points att_dict;
    match fd with
    | [] => Ok ("", [], points, att_dict)
    | line :: fd => read_data_lines att_names delimiter line fd points att_dict
    end
  else Ok (line, fd, points, att_dict).

(** [array(points).astype(Float)] of a list of [[x, y]] rows: the empty
    list gives an array of shape [(0,)]. *)
Definition array_of_rows (points : list (list Q)) : ndarray :=
  match points with
  | [] => Arr1 []
  | _ => Arr2 2 points
  end.

Definition _read_xya_file (fd : list string) (delimiter : ascii)
    : result (ndarray * gmap string (list Q) * option Geo_reference) :=
  let '(title, fd) := readline fd in
  let att_names := clean_line title delimiter in
  let att_dict : gmap string (list Q) := ∅ in
  let '(line, fd) := readline fd in
  '(line, fd, points, att_dict) ←
    read_data_lines att_names delimiter line fd [] att_dict;
  geo_reference ←
    (if (line =? "")%string then Ok None
     else Some <$> Geo_reference_from_ASCII fd (Some line));
  Ok (array_of_rows points, att_dict, geo_reference).

(** The keys of a dictionary in the order [keys()] lists them. *)
Definition keys (d : gmap string (list Q)) : list string :=
  (map_to_list d).*1.

(** The title line of [_write_xya_file], before its newline. *)
Definition write_title (pointattributes : option (gmap string (list Q)))
    (delimiter : ascii) : string :=
  match pointattributes with
  | Some d =>
      let titlelist :=
        foldl (fun titlelist title => titlelist +:+ title +:+ String delimiter "")
              "" (keys d) in
      drop_last titlelist
  | None => ""
  end.

(** The text written for point [i] of [_write_xya_file]. *)
Definition write_vertex (pointattributes : option (gmap string (list Q)))
    (delimiter : ascii) (i : nat) (vert : list Q) : result string :=
  attlist ←
    match pointattributes with
    | Some d =>
        attlist ←
          foldl (fun acc att =>
                   attlist ← acc;
                   match d !! att ≫= (.!! i) with
                   | Some value =>
                       Ok (attlist +:+ str_float value +:+ String delimiter "")
                   | None => Raise IndexError
                   end)
                (Ok ",") (keys d);
        Ok (drop_last attlist)
    | None => Ok ""
    end;
  match vert !! 0%nat, vert !! 1%nat with
  | Some v0, Some v1 =>
      Ok (str_float v0 +:+ String delimiter "" +:+ str_float v1
          +:+ attlist +:+ String newline "")
  | _, _ => Raise IndexError
  end.

Fixpoint write_vertices (pointattributes : option (gmap string (list Q)))
    (delimiter : ascii) (i : nat) (points : list (list Q)) : result string :=
  match points with
  | [] => Ok ""
  | vert :: points =>
      line ← write_vertex pointattributes delimiter i vert;
      rest ← write_vertices pointattributes delimiter (S i) points;
      Ok (line +:+ rest)
  end.

(** [_write_xya_file]: the text of the file written. *)
Definition _write_xya_file (write_data_points : ndarray)
    (write_attributes : option (gmap string (list Q)))
    (write_geo_reference : option Geo_reference) (delimiter : ascii)
    : result string :=
  let titlelist := write_title write_attributes delimiter in
  body ←
    match write_data_points with
    | Arr2 _ rows => write_vertices write_attributes delimiter 0 rows
    | _ => Raise TypeError
    end;
  let georef :=
    match write_geo_reference with
    | Some g => write_ASCII g
    | None => ""
    end in
  Ok (titlelist +:+ String newline "" +:+ body +:+ georef).

(** *** Structured (.pts) point files *)

(** What the module stores in and reads from a NetCDF file: the named
    variables and the three global attributes of a geo reference. *)
Record NetCDF := mkNetCDF {
  nc_variables : gmap string ndarray;
  nc_xllcorner : option Q;
  nc_yllcorner : option Q;
  nc_zone : option Z
}.

(** [outfile.createVariable(name, ...)] followed by
    [outfile.variables[name][:] = value]; a name can be defined once. *)
Definition createVariable (name : string) (value : ndarray)
    (variables : gmap string ndarray) : result (gmap string ndarray) :=
  match variables !! name with
  | Some _ => Raise IOError
  | None => Ok (<[name := value]> variables)
  end.

Definition _write_pts_file (write_data_points : ndarray)
    (write_attributes : option (gmap string (list Q)))
    (write_geo_reference : option Geo_reference) : result NetCDF :=
  let number_of_points := len write_data_points in
  _ ← (if bool_decide (shape write_data_points = [number_of_points; 2%nat])
       then Ok tt else Raise ValueError);
  variables ← createVariable "points" write_data_points ∅;
  variables ←
    match write_attributes with
    | Some d =>
        foldl (fun acc key =>
                 variables ← acc;
                 match d !! key with
                 | Some value =>
                     if (length value =? number_of_points)%nat
                     then createVariable key (Arr1 value) variables
                     else Raise ValueError
                 | None => Raise IndexError
                 end)
              (Ok variables) (keys d)
    | None => Ok variables
    end;
  match write_geo_reference with
  | Some g =>
      Ok (mkNetCDF variables (Some (xllcorner g)) (Some (yllcorner g))
                   (Some (zone g)))
  | None => Ok (mkNetCDF variables None None None)
  end.

(** [Geo_reference(NetCDFObject=fid)]: a missing global attribute raises
    AttributeError; the asserts on the types of what was read close the
    method (a coordinate may be a float or an int: here it is a float). *)
Definition read_NetCDF (self : Geo_reference) (infile : NetCDF)
    : result Geo_reference :=
  self ←
    match nc_xllcorner infile, nc_yllcorner infile, nc_zone infile with
    | Some x, Some y, Some z =>
        Ok (mkGeo z x y (datum self) (projection self) (units self)
                  (false_easting self) (false_northing self))
    | _, _, _ => Raise AttributeError
    end;
  _ ← py_assert (is_FloatType (xllcorner self));
  _ ← py_assert (is_FloatType (yllcorner self));
  _ ← py_assert (is_IntType (zone self));
  Ok self.

Definition vector_of (a : ndarray) : result (list Q) :=
  match a with
  | Arr1 xs => Ok xs
  | _ => Raise ValueError
  end.

Definition _read_pts_file (fid : NetCDF)
    : result (ndarray * gmap string (list Q) * option Geo_reference) :=
  match nc_variables fid !! "points" with
  | None => Raise KeyError
  | Some pointlist =>
      let keys := delete "points" (nc_variables fid) in
      attributes ←
        map_fold (fun key value acc =>
                    attributes ← acc;
                    value ← vector_of value;
                    Ok (<[key := value]> attributes))
                 (Ok ∅) keys;
      geo_reference ←
        try_except (Some <$> read_NetCDF Geo_reference_default fid)
          (fun e => match e with AttributeError => true | _ => false end)
          (Ok None);
      Ok (pointlist, attributes, geo_reference)
  end.

(** *** Import and export *)

(** A file of the file system: text, a NetCDF dataset, or a file that is
    there but cannot be opened ([open] raises IOError). *)
Inductive file :=
  | TextFile (content : string)
  | NetCDFFile (dataset : NetCDF)
  | Unreadable.

(** [isinstance(e, IOError)]: the exception classes of
    [anuga.utilities.anuga_exceptions] are not among the sources. *)
Variable is_IOError : exn -> bool.

(** [file_name[-4:]]. *)
Definition extension (file_name : string) : string :=
  substring (String.length file_name - 4) 4 file_name.

Definition import_points_file (fs : gmap string file) (file_name : string)
    (delimiter : option ascii)
    : result (ndarray * gmap string (list Q) * option Geo_reference) :=
  match fs !! file_name with
  | None => Raise IOError
  | Some f =>
      if (extension file_name =? ".xya")%string then
        match f with
        | TextFile content =>
            let fd := readlines content in
            try_except
              (try_except
                 (match delimiter with
                  | None =>
                      try_except (_read_xya_file fd ",")
                        (fun e => match e with TitleError => true | _ => false end)
                        (_read_xya_file fd " ")
                  | Some delimiter => _read_xya_file fd delimiter
                  end)
                 (fun e => match e with
                           | IndexError | ValueError | SyntaxError => true
                           | _ => false
                           end)
                 (Raise IOError))
              is_IOError (Raise IOError)
        | NetCDFFile _ => Raise IOError
        | Unreadable =>
            (* [open] raises IOError before [fd] is assigned; the handler of
               IOError starts with [fd.close()] *)
            Raise UnboundLocalError
        end
      else if (extension file_name =? ".pts")%string then
        match f with
        | NetCDFFile fid =>
            try_except (_read_pts_file fid) is_IOError (Raise IOError)
        | TextFile _ => Raise IOError
        | Unreadable => Raise IOError
        end
      else Raise IOError
  end.

(** [Geospatial_data(file_name=..., delimiter=...)]: the imported
    [geo_reference] is handed to [set_geo_reference] as the object already
    stored, so the points are rebased onto their own frame. *)
Definition Geospatial_data_from_file (fs : gmap string file)
    (file_name : string) (delimiter : option ascii)
    (default_attribute_name : option string) : result Geospatial_data :=
  '(data_points, attributes, geo_reference) ←
    import_points_file fs file_name delimiter;
  points ← check_data_points (Some (PyArray data_points));
  let attributes := set_attributes (AttrDict attributes) in
  match geo_reference with
  | None =>
      Ok (mkGeospatial points attributes Geo_reference_default
                       default_attribute_name)
  | Some g =>
      points ← array_of <$> change_points_geo_ref g (PyArray points) SameGeo;
      Ok (mkGeospatial points attributes g default_attribute_name)
  end.

(** [export_points_file(file_name, absolute)]: the file system with the
    file written. *)
Definition export_points_file (self : Geospatial_data) (file_name : string)
    (absolute : bool) (fs : gmap string file) : result (gmap string file) :=
  if (extension file_name =? ".xya")%string then
    if absolute then
      points ← get_data_points self true NoGeo;
      text ← _write_xya_file points (get_all_attributes self) None ",";
      Ok (<[file_name := TextFile text]> fs)
    else
      points ← get_data_points self false NoGeo;
      text ← _write_xya_file points (get_all_attributes self)
               (Some (get_geo_reference self)) ",";
      Ok (<[file_name := TextFile text]> fs)
  else if (extension file_name =? ".pts")%string then
    if absolute then
      points ← get_data_points self absolute NoGeo;
      dataset ← _write_pts_file points (get_all_attributes self) None;
      Ok (<[file_name := NetCDFFile dataset]> fs)
    else
      points ← get_data_points self absolute NoGeo;
      dataset ← _write_pts_file points (get_all_attributes self)
                  (Some (get_geo_reference self));
      Ok (<[file_name := NetCDFFile dataset]> fs)
  else Raise IOError.

End TextFiles.

(** ** Other methods of Geospatial_data *)

(** [set_geo_reference(geo_reference)] on a constructed object, which has a
    geo reference: the stored points are moved into the new frame.  [NoGeo]
    is [None], for which a default reference is made; [SameGeo] is the
    object already stored. *)
Definition set_geo_reference {arith : Arithmetic} (self : Geospatial_data)
    (geo_reference : geo_param) : result Geospatial_data :=
  let geo_reference :=
    match geo_reference with
    | NoGeo => OtherGeo Geo_reference_default
    | _ => geo_reference
    end in
  data_points ← get_data_points self true geo_reference;
  let geo_reference :=
    match geo_reference with
    | OtherGeo g => g
    | _ => get_geo_reference self
    end in
  Ok (mkGeospatial data_points (attributes self) geo_reference
                   (default_attribute_name self)).

(** [len(self)]. *)
Definition __len__ (self : Geospatial_data) : nat := len (data_points self).

(** [get_attributes(attribute_name)]: without a name the default name is
    used, and without a default the first key of the dictionary. *)
Definition get_attributes (self : Geospatial_data)
    (attribute_name : option string) : result (list Q) :=
  attribute_name ←
    match attribute_name with
    | Some name => Ok name
    | None =>
        match default_attribute_name self with
        | Some name => Ok name
        | None =>
            match attributes self with
            | None => Raise AttributeError
            | Some d =>
                match keys d with
                | name :: _ => Ok name
                | [] => Raise IndexError
                end
            end
        end
    end;
  match attributes self with
  | None => Raise AttributeError
  | Some d =>
      _ ← py_assert (bool_decide (is_Some (d !! attribute_name)));
      match d !! attribute_name with
      | Some values => Ok values
      | None => Raise KeyError
      end
  end.

(** *** Points dictionaries *)

(** A points dictionary: each of the keys ['pointlist'], ['attributelist']
    and ['geo_reference'] is absent or holds a value. *)
Record Points_dictionary := mkPoints_dictionary {
  pointlist : option (option pyseq);
  attributelist : option attributes_arg;
  dict_geo_reference : option (option Geo_reference)
}.

Definition geospatial_data2points_dictionary (geospatial_data : Geospatial_data)
    : result Points_dictionary :=
  match attributes geospatial_data with
  | None => Raise AttributeError
  | Some d =>
      let attributelist :=
        map_fold (fun attribute_name val (attributelist : gmap string (list Q)) =>
                    <[attribute_name := val]> attributelist)
                 ∅ d in
      Ok (mkPoints_dictionary
            (Some (Some (PyArray (data_points geospatial_data))))
            (Some (AttrDict attributelist))
            (Some (Some (geo_reference geospatial_data))))
  end.

Definition points_dictionary2geospatial_data
    (points_dictionary : Points_dictionary) : result Geospatial_data :=
  _ ← py_assert (bool_decide (is_Some (pointlist points_dictionary)));
  _ ← py_assert (bool_decide (is_Some (attributelist points_dictionary)));
  let geo :=
    match dict_geo_reference points_dictionary with
    | Some geo => geo
    | None => None
    end in
  match pointlist points_dictionary, attributelist points_dictionary with
  | Some points, Some attributes => Geospatial_data_init points attributes geo None
  | _, _ => Raise KeyError
  end.

(** *** The constructor with all its arguments *)

(** The [data_points] argument: [None], a string (taken as a file name), or
    a sequence of points. *)
Inductive data_points_arg :=
  | DataNone
  | DataString (file_name : string)
  | DataSeq (p : pyseq).

(** [ravel(a[:,0:1])] and [ravel(a[:,1:])]: the first column, and what is
    left of every row, of an array of rank two or more. *)
Fixpoint chunks {A} (n size : nat) (flat : list A) : list (list A) :=
  match n with
  | O => []
  | S n => take size flat :: chunks n size (drop size flat)
  end.

Definition split_columns (a : ndarray) : result (list Q * list Q) :=
  match a with
  | Arr2 _ rows => Ok (concat (map (take 1) rows), concat (map (drop 1) rows))
  | ArrN (d0 :: d1 :: dims) flat =>
      let inner := foldr Nat.mul 1%nat dims in
      let blocks := chunks d0 (d1 * inner) flat in
      Ok (concat (map (take inner) blocks), concat (map (drop inner) blocks))
  | _ => Raise IndexError
  end.

Section Constructor.

Context {arith : Arithmetic} {platform : Platform}.

Variable int_literal : string -> option Z.
Variable float_literal : string -> option Q.
Variable is_IOError : exn -> bool.

(** [convert_from_latlon_to_utm(latitudes, longitudes)] of
    [anuga.coordinate_transforms.redfearn], which is not among the sources:
    the projected points and their zone. *)
Variable convert_from_latlon_to_utm : list Q -> list Q -> result (pyseq * Z).

(** The file system the constructor reads from. *)
Variable fs : gmap string file.

Definition _set_using_lat_long (latitudes longitudes : option (list Q))
    (geo_reference : option Geo_reference) (data_points : option pyseq)
    (points_are_lats_longs : bool) : result (pyseq * Geo_reference) :=
  if bool_decide (is_Some geo_reference) then Raise ValueError else
  if bool_decide (is_Some data_points) && negb points_are_lats_longs
  then Raise ValueError else
  '(latitudes, longitudes) ←
    (if points_are_lats_longs then
       match data_points with
       | None => Raise ValueError
       | Some data_points =>
           let lats_longs := ensure_numeric data_points in
           '(latitudes, longitudes) ← split_columns lats_longs;
           Ok (Some latitudes, Some longitudes)
       end
     else Ok (latitudes, longitudes));
  match latitudes, longitudes with
  | None, _ => Raise ValueError
  | _, None => Raise ValueError
  | Some latitudes, Some longitudes =>
      '(data_points, zone) ← convert_from_latlon_to_utm latitudes longitudes;
      Ok (data_points, Geo_reference_init zone 0 0)
  end.

Definition Geospatial_data__init__ (data_points : data_points_arg)
    (attributes : attributes_arg) (geo_reference : option Geo_reference)
    (default_attribute_name : option string) (file_name : option string)
    (delimiter : option ascii) (latitudes longitudes : option (list Q))
    (points_are_lats_longs : bool) : result Geospatial_data :=
  let file_name :=
    match data_points with
    | DataString name => Some name
    | _ => file_name
    end in
  match file_name with
  | None =>
      if bool_decide (is_Some delimiter) then Raise ValueError else
      let data_points :=
        match data_points with
        | DataSeq p => Some p
        | _ => None
        end in
      '(data_points, geo_reference) ←
        (if bool_decide (is_Some latitudes) || bool_decide (is_Some longitudes)
            || points_are_lats_longs
         then '(data_points, geo_reference) ←
                _set_using_lat_long latitudes longitudes geo_reference
                                    data_points points_are_lats_longs;
              Ok (Some data_points, Some geo_reference)
         else Ok (data_points, geo_reference));
      Geospatial_data_init data_points attributes geo_reference
                           default_attribute_name
  | Some file_name =>
      Geospatial_data_from_file int_literal float_literal is_IOError fs
                                file_name delimiter default_attribute_name
  end.

(** *** Normalising points *)

(** The [points] argument of [ensure_geospatial]: a Geospatial_data object
    or a sequence of points; [ensure_absolute] also takes a file name. *)
Inductive points_arg :=
  | PointsGeospatial (G : Geospatial_data)
  | PointsSeq (p : pyseq).

(** The [geo_reference] argument: [None], a Geo_reference object, or a
    tuple of zone, easting and northing. *)
Inductive geo_reference_arg :=
  | GeoNone
  | GeoObject (g : Geo_reference)
  | GeoTuple (zone : Z) (easting northing : Q).

(** [geo_reference == None]: a Geo_reference object is compared by its
    [__cmp__]. *)
Definition equals_None (geo_reference : geo_reference_arg) : bool :=
  match geo_reference with
  | GeoNone => true
  | GeoObject g => (__cmp__ (fields_of g) None =? 0)%Z
  | GeoTuple _ _ _ => false
  end.

Definition as_Geo_reference (geo_reference : geo_reference_arg)
    : option Geo_reference :=
  match geo_reference with
  | GeoNone => None
  | GeoObject g => Some g
  | GeoTuple zone easting northing =>
      Some (Geo_reference_init zone easting northing)
  end.

Definition ensure_absolute (points : string + points_arg)
    (geo_reference : geo_reference_arg) : result ndarray :=
  points ←
    match points with
    | inl file_name =>
        PointsGeospatial
          <$> Geospatial_data__init__ DataNone AttrNone None None
                (Some file_name) None None None false
    | inr points => Ok points
    end;
  points ←
    match points with
    | PointsGeospatial G =>
        points ← get_data_points G true NoGeo;
        _ ← py_assert (equals_None geo_reference);
        Ok points
    | PointsSeq p => Ok (ensure_numeric p)
    end;
  match as_Geo_reference geo_reference with
  | None => Ok points
  | Some geo => array_of <$> get_absolute geo (PyArray points)
  end.

End Constructor.

Definition ensure_geospatial (points : points_arg)
    (geo_reference : geo_reference_arg) : result Geospatial_data :=
  match points with
  | PointsGeospatial G =>
      _ ← py_assert (equals_None geo_reference);
      Ok G
  | PointsSeq p =>
      let points := ensure_numeric p in
      Geospatial_data_init (Some (PyArray points)) AttrNone
                           (as_Geo_reference geo_reference) None
  end.

(** ** The build helper of [anuga/parallel/setup.py] *)

(** [uniq_arr(arr)]: the values of [arr], each once, in the order in which
    they first occur. *)
Definition uniq_arr {A} `{EqDecision A} (arr : list A) : list A :=
  foldl (fun ret i => if bool_decide (i ∈ ret) then ret else ret ++ [i]) [] arr.

(** ** Vocabulary of the statements *)

(** Two matrices with equal entries. *)
Definition rows_equal (rows1 rows2 : list (list Q)) : Prop :=
  Forall2 (Forall2 Qeq) rows1 rows2.

(** A row with [f0] applied to its first and [f1] to its second entry. *)
Definition row_map (f0 f1 : Q -> Q) (row : list Q) : list Q :=
  alter f1 1%nat (alter f0 0%nat row).

(** Points moved by [(dx, dy)], in the arithmetic given. *)
Definition translate {arith : Arithmetic} (dx dy : Q) (rows : list (list Q))
    : list (list Q) :=
  map (row_map (fun x => fadd x dx) (fun y => fadd y dy)) rows.

Definition untranslate {arith : Arithmetic} (dx dy : Q) (rows : list (list Q))
    : list (list Q) :=
  map (row_map (fun x => fsub x dx) (fun y => fsub y dy)) rows.

(** The absolute coordinates [get_absolute] yields for the rows of a
    matrix. *)
Definition absolute_rows {arith : Arithmetic} (g : Geo_reference)
    (rows : list (list Q)) : list (list Q) :=
  if is_absolute g then rows else translate (xllcorner g) (yllcorner g) rows.

(** An arithmetic whose sums and differences of magnitude up to [bound] are
    within the relative error [u] of the exact ones. *)
Definition accurate (arith : Arithmetic) (u bound : Q) : Prop :=
  forall x y,
    (Qabs (x + y) <= bound -> Qabs (fadd x y - (x + y)) <= u * Qabs (x + y))
    /\ (Qabs (x - y) <= bound -> Qabs (fsub x y - (x - y)) <= u * Qabs (x - y)).

(** The relative error of rounding to 53 bits: [2 ^ -53]. *)
Definition double_u : Q := 1 # 9007199254740992.

(** Two matrices of the same layout whose entries differ by at most [tol]. *)
Definition rows_close (tol : Q) (rows1 rows2 : list (list Q)) : Prop :=
  Forall2 (Forall2 (fun x y => Qabs (x - y) <= tol)) rows1 rows2.

(** A matrix whose entries, and a reference whose origin coordinates, are of
    magnitude at most [M]. *)
Definition rows_below (M : Q) (rows : list (list Q)) : Prop :=
  Forall (Forall (fun x => Qabs x <= M)) rows.

Definition origin_below (M : Q) (g : Geo_reference) : Prop :=
  Qabs (xllcorner g) <= M /\ Qabs (yllcorner g) <= M.

(** The zones of two references can be reconciled. *)
Definition reconcilable (g1 g2 : Geo_reference) : Prop :=
  zone g1 = zone g2 \/ zone g1 = DEFAULT_ZONE \/ zone g2 = DEFAULT_ZONE.

(** The attribute names of a set; a set without a dictionary has none. *)
Definition attribute_names (a : option (gmap string (list Q))) : gset string :=
  match a with
  | None => ∅
  | Some d => dom d
  end.


(** [ensure_numeric(A, Float)] builds a new array with the elements of
    [A]: the heap gains one array, at a location not in use. *)
Definition returns_new_array
    (ensure_numeric_Float : Store.heap -> Store.loc -> Store.heap * Store.loc)
    : Prop :=
  forall h l a, h !! l = Some a ->
    exists l', ensure_numeric_Float h l = (<[l' := a]> h, l') /\ h !! l' = None.

(** The elements of [l] at the given positions, in that order. *)
Fixpoint at_indices {A} (l : list A) (indices : list nat) : list A :=
  match indices with
  | [] => []
  | i :: indices =>
      match l !! i with
      | Some x => x :: at_indices l indices
      | None => at_indices l indices
      end
  end.

(** The invariant of a point set: an N x 2 matrix of points, each row a
    pair, and every attribute sequence as long as the matrix has rows. *)
Definition well_formed (S : Geospatial_data) (rows : list (list Q)) : Prop :=
  data_points S = Arr2 2 rows
  /\ Forall (fun row => length row = 2%nat) rows
  /\ forall d k values, attributes S = Some d -> d !! k = Some values ->
                        length values = length rows.

(** The test [read_ASCII] applies to the title line: its first two
    characters, in upper case, are those of [TITLE]. *)
Definition title_accepted (read_title : string) : bool :=
  (upper (substring 0 2 read_title) =? upper (substring 0 2 TITLE))%string.

(** The origin [__add__] gives the merged set. *)
Definition merged_xll (g1 g2 : Geo_reference) : Q :=
  if Qle_bool (xllcorner g1) (xllcorner g2) then xllcorner g1 else xllcorner g2.

Definition merged_yll (g1 g2 : Geo_reference) : Q :=
  if Qle_bool (yllcorner g1) (yllcorner g2) then yllcorner g1 else yllcorner g2.

(** The rows of a set moved from the frame of [g] to the origin [(x, y)]. *)
Definition rebased {arith : Arithmetic} (g : Geo_reference) (x y : Q)
    (rows : list (list Q)) : list (list Q) :=
  untranslate x y (translate (xllcorner g) (yllcorner g) rows).

(** *** Text files *)

(** Does the character occur in the string? *)
Fixpoint has_char (c : ascii) (s : string) : bool :=
  match s with
  | EmptyString => false
  | String c' s' => (c' =? c)%char || has_char c s'
  end.

(** A field that survives being written between commas on a line of its
    own and read back by [clean_line]: not empty, no blank at either end, no
    comma and no newline inside. *)
Definition field_ok (s : string) : bool :=
  negb (s =? "")%string && (lstrip s =? s)%string && (rstrip s =? s)%string
  && negb (has_char "," s) && negb (has_char newline s).

(** A field that can open a data line: it does not start with [#]. *)
Definition number_ok (s : string) : bool :=
  field_ok s && negb (starts_with "#" s).

(** Fields with [sep] between them. *)
Fixpoint join_fields (sep : ascii) (fields : list string) : string :=
  match fields with
  | [] => ""
  | [field] => field
  | field :: fields => field +:+ String sep (join_fields sep fields)
  end.

(** Fields, each followed by [sep]. *)
Fixpoint terminated (sep : ascii) (fields : list string) : string :=
  match fields with
  | [] => ""
  | field :: fields => field +:+ String sep (terminated sep fields)
  end.

(** The values of all attributes at point [i], in the order of [keys]. *)
Definition attribute_row (d : gmap string (list Q)) (i : nat)
    : option (list Q) :=
  mapM (fun k => d !! k ≫= (.!! i)) ((map_to_list d).*1).

(** The values of the attributes of a set at point [i]; none when the set
    has no dictionary. *)
Definition attribute_values (a : option (gmap string (list Q))) (i : nat)
    : option (list Q) :=
  match a with
  | Some d => attribute_row d i
  | None => Some []
  end.

Definition attribute_keys (a : option (gmap string (list Q))) : list string :=
  match a with
  | Some d => (map_to_list d).*1
  | None => []
  end.

(** A number that survives [str()] followed by [float()], and whose text
    can stand as a field of a data line. *)
Definition printable (float_literal : string -> option Q)
    (str_float : Q -> string) (v : Q) : Prop :=
  number_ok (str_float v) = true /\ float_literal (str_float v) = Some v.

(** The dictionary [_read_xya_file] holds after one more data line: each
    name gets its value appended. *)
Definition append_values (names : list string) (values : list Q)
    (att_dict : gmap string (list Q)) : gmap string (list Q) :=
  foldl (fun att_dict '(name, value) =>
           <[name := default [] (att_dict !! name) ++ [value]]> att_dict)
        att_dict (zip names values).

(** The values at point [i], or none where some attribute is too short. *)
Definition values_at (a : option (gmap string (list Q))) (i : nat) : list Q :=
  default [] (attribute_values a i).

(** The text of the data line of point [i] without its newline, and the
    data lines of the points from [i] on. *)
Definition data_line (str_float : Q -> string)
    (a : option (gmap string (list Q))) (i : nat) (row : list Q) : string :=
  join_fields "," (map str_float (row ++ values_at a i)).

Fixpoint data_lines (str_float : Q -> string)
    (a : option (gmap string (list Q))) (i : nat) (rows : list (list Q))
    : list string :=
  match rows with
  | [] => []
  | row :: rows =>
      text_line (data_line str_float a i row) :: data_lines str_float a (S i) rows
  end.

Definition concat_strings (l : list string) : string :=
  foldr String.append "" l.

(** The points from [i] on can be written and read back: every row is a
    pair, every attribute has a value there, and all of them are
    [printable]. *)
Fixpoint rows_printable (float_literal : string -> option Q)
    (str_float : Q -> string) (a : option (gmap string (list Q)))
    (i : nat) (rows : list (list Q)) : Prop :=
  match rows with
  | [] => True
  | row :: rows =>
      length row = 2%nat
      /\ is_Some (attribute_values a i)
      /\ Forall (printable float_literal str_float) (row ++ values_at a i)
      /\ rows_printable float_literal str_float a (S i) rows
  end.

(** A line on which the [while] loop of [_read_xya_file] stops. *)
Definition stops_reading (line : string) : Prop :=
  (1 <? length (clean_line line ","))%nat && negb (starts_with "#" line) = false.

(** The loop continued on the lines still to be read. *)
Definition continue_reading (float_literal : string -> option Q)
    (names : list string) (fd : list string)
    (points : list (list Q)) (att_dict : gmap string (list Q))
    : result (string * list string * list (list Q) * gmap string (list Q)) :=
  match fd with
  | [] => Ok ("", [], points, att_dict)
  | line :: fd => read_data_lines float_literal names "," line fd points att_dict
  end.

(** The dictionary read after [i] data lines holds, for every attribute,
    its first [i] values; before the first line it is empty. *)
Definition columns_upto (d : gmap string (list Q)) (i : nat)
    (att_dict : gmap string (list Q)) : Prop :=
  forall k, att_dict !! k = if (i =? 0)%nat then None else take i <$> d !! k.

(** A zone that survives [str()] followed by [int()] on a line of its own. *)
Definition zone_printable (int_literal : string -> option Z)
    (str_int : Z -> string) (z : Z) : Prop :=
  has_char newline (str_int z) = false
  /\ py_int int_literal (text_line (str_int z)) = Ok z.

(** A geo reference whose block can be written and read back, and the
    reference read back: zone and origin as written, the other fields at
    their defaults.  The zone has to be an int: [read_ASCII] asserts it. *)
Definition geo_printable {platform : Platform} (int_literal : string -> option Z)
    (float_literal : string -> option Q) (str_int : Z -> string)
    (str_float : Q -> string) (g : Geo_reference) : Prop :=
  zone_printable int_literal str_int (zone g)
  /\ is_IntType (zone g) = true
  /\ printable float_literal str_float (xllcorner g)
  /\ printable float_literal str_float (yllcorner g).

Definition reread (g : Geo_reference) : Geo_reference :=
  Geo_reference_init (zone g) (xllcorner g) (yllcorner g).

(** A set that can go through a .pts file: no attribute is called
    [points], the name of the variable that holds the points; and when the
    geo reference is written, its zone is an int, as [read_NetCDF] asserts. *)
Definition pts_exportable {platform : Platform} (S : Geospatial_data) (absolute : bool) : Prop :=
  (forall d, attributes S = Some d -> d !! "points" = None)
  /\ (absolute = false -> is_IntType (zone (geo_reference S)) = true).

(** The rows [export_points_file] writes. *)
Definition written_rows {arith : Arithmetic} (S : Geospatial_data)
    (rows : list (list Q)) (absolute : bool) : list (list Q) :=
  if absolute then absolute_rows (geo_reference S) rows else rows.

(** A set that can go through a .xya file: it has a point; its attribute
    names can stand as fields of the title line; the coordinates written and
    the attribute values are [printable]; and so is the geo reference when it
    is written. *)
Definition xya_exportable {arith : Arithmetic} {platform : Platform}
    (int_literal : string -> option Z)
    (float_literal : string -> option Q) (str_int : Z -> string)
    (str_float : Q -> string) (S : Geospatial_data) (rows : list (list Q))
    (absolute : bool) : Prop :=
  rows <> []
  /\ Forall (fun name => field_ok name = true) (attribute_keys (attributes S))
  /\ Forall (Forall (printable float_literal str_float))
            (written_rows S rows absolute)
  /\ (forall d k col, attributes S = Some d -> d !! k = Some col ->
        Forall (printable float_literal str_float) col)
  /\ (absolute = false ->
      geo_printable int_literal float_literal str_int str_float (geo_reference S)).

(** A computation that raises nothing but the exceptions listed. *)
Definition raises_only {A} (allowed : list exn) (r : result A) : Prop :=
  forall e, r = Raise e -> e ∈ allowed.

(** ** Sample data *)

Definition elevation_only (values : list Q) : gmap string (list Q) :=
  {[ "elevation" := values ]}.

Definition elevation_friction (elevation friction : list Q)
    : gmap string (list Q) :=
  <[ "friction" := friction ]> {[ "elevation" := elevation ]}.

Definition sample_geo_A : Geo_reference := Geo_reference_init 56 100 200.
Definition sample_geo_B : Geo_reference := Geo_reference_init DEFAULT_ZONE 50 300.

Definition sample_A : Geospatial_data :=
  mkGeospatial (Arr2 2 [[1; 2]; [3; 4]]) (Some (elevation_only [10; 20]))
               sample_geo_A None.

Definition sample_B : Geospatial_data :=
  mkGeospatial (Arr2 2 [[5; 6]]) (Some (elevation_only [30])) sample_geo_B None.

Definition sample_B_friction : Geospatial_data :=
  mkGeospatial (Arr2 2 [[5; 6]]) (Some (elevation_friction [30] [7 # 10]))
               sample_geo_B None.

(** A reference and a set far from the others: at the origin
    [(-1e16, -1e16)], where neighbouring doubles are 2 apart. *)
Definition sample_geo_far : Geo_reference :=
  Geo_reference_init DEFAULT_ZONE (-10000000000000000) (-10000000000000000).


(** Two references whose origins, [(9e-9, 0)] and [(-9e-9, 0)], are within
    the tolerance of [is_absolute], and a set at each. *)
Definition sample_geo_near : Geo_reference :=
  Geo_reference_init 56 (9 # 1000000000) 0.

Definition sample_geo_near' : Geo_reference :=
  Geo_reference_init 56 (- 9 # 1000000000) 0.

Definition sample_near : Geospatial_data :=
  mkGeospatial (Arr2 2 [[1; 2]]) None sample_geo_near None.

Definition sample_near' : Geospatial_data :=
  mkGeospatial (Arr2 2 [[5; 6]]) None sample_geo_near' None.



Definition sample_heap : Store.heap := {[ 1%positive := Arr2 2 [[1; 2]; [3; 4]] ]}.

Definition sample_obj : Store.Geospatial_obj := Store.mkObj 1%positive sample_geo_A.

(** A containment test for sample runs: the half plane [x <= 102]. *)
Definition sample_point_in_polygon (p : list Q) (polygon : ndarray)
    (closed : bool) : bool :=
  match p with
  | x :: _ => if closed then Qle_bool x 102 else Qlt_bool x 102
  | [] => false
  end.

Definition sample_geo_lines : list string :=
  [text_line "56"; text_line "466600.0"; text_line "8644444.0"].

(** [str()] for sample runs: an int in decimal, and a float given in
    tenths with one digit after the point. *)
Definition sample_str_int (z : Z) : string :=
  NilZero.string_of_int (Z.to_int z).

Definition sample_str_float (v : Q) : string :=
  match v with
  | Qmake n 10 =>
      sample_str_int (n / 10) +:+ "." +:+ sample_str_int (n mod 10)
  | _ => "nan"
  end.

(** [isinstance(e, IOError)] for sample runs: IOError and the classes named
    after file errors. *)
Definition sample_is_IOError (e : exn) : bool :=
  match e with
  | IOError | TitleError | ParsingError => true
  | _ => false
  end.

(** The example of the specification: points [[0.6, 0.7], [1.9, 2.8]] with
    elevation [4.9, 5.0]. *)
Definition sample_spec : Geospatial_data :=
  mkGeospatial (Arr2 2 [[6 # 10; 7 # 10]; [19 # 10; 28 # 10]])
               (Some (elevation_only [49 # 10; 50 # 10]))
               Geo_reference_default None.

(** A set without points, a set with a comma in an attribute name, and a
    set with an attribute called [points]. *)
Definition sample_no_points : Geospatial_data :=
  mkGeospatial (Arr2 2 []) (Some (elevation_only [])) Geo_reference_default None.

Definition sample_comma : Geospatial_data :=
  mkGeospatial (Arr2 2 [[6 # 10; 7 # 10]]) (Some {[ "a,b" := [49 # 10] ]})
               Geo_reference_default None.

Definition sample_points_attribute : Geospatial_data :=
  mkGeospatial (Arr2 2 [[6 # 10; 7 # 10]]) (Some {[ "points" := [49 # 10] ]})
               Geo_reference_default None.

(** The file shown in the docstring of [Geospatial_data.__init__], with its
    geo-reference block. *)
Definition docstring_file : string :=
  concat_strings (map text_line
    ["elevation, friction";
     "0.6, 0.7, 4.9, 0.3";
     "1.9, 2.8, 5, 0.3";
     "2.7, 2.4, 5.2, 0.3";
     "#geo reference";
     "56";
     "466600.0";
     "8644444.0"]).

(** A file whose geo-reference block has a zone beyond [sys_maxint]. *)
Definition long_zone_file : string :=
  concat_strings (map text_line
    ["elevation";
     "0.6, 0.7, 4.9";
     "#geo reference";
     "9223372036854775808";
     "466600.0";
     "8644444.0"]).

(** A reference with an origin given in tenths, for sample runs of the text
    encoding. *)
Definition sample_geo_tenths : Geo_reference :=
  Geo_reference_init 56 (4666000 # 10) (86444440 # 10).

(** A stand-in for the projection, for sample runs: latitude and longitude
    taken as northing and easting, in zone 56. *)
Definition sample_convert (latitudes longitudes : list Q)
    : result (pyseq * Z) :=
  Ok (PyList (Arr2 2 (zip_with (fun latitude longitude => [longitude; latitude])
                               latitudes longitudes)),
      56%Z).

(** * Properties *)

(** ** Rationals and tolerances *)

Lemma Qlt_bool_iff (x y : Q) : Qlt_bool x y = true <-> x < y.
Proof.
  unfold Qlt_bool. rewrite negb_true_iff. split; intros H.
  - apply Qnot_le_lt. intros Hle. apply Qle_bool_iff in Hle. congruence.
  - destruct (Qle_bool y x) eqn:E; [|reflexivity].
    apply Qle_bool_iff in E. exfalso. apply (Qlt_not_le _ _ H E).
Qed.

Lemma Qabs_lt_iff (x tol : Q) : Qabs x < tol <-> - tol < x /\ x < tol.
Proof. apply Qabs_Qlt_condition. Qed.

Lemma allclose_zero_iff (x : Q) :
  Qlt_bool (Qabs (x - 0)) (atol + rtol * Qabs 0) = true <-> Qabs x < atol.
Proof.
  rewrite Qlt_bool_iff. change (Qabs 0) with 0.
  rewrite !Qabs_lt_iff. unfold atol, rtol. split; intros [? ?]; split; lra.
Qed.

Lemma is_absolute_iff (self : Geo_reference) :
  is_absolute self = true
  <-> Qabs (xllcorner self) < atol /\ Qabs (yllcorner self) < atol.
Proof.
  unfold is_absolute, allclose. cbn [forallb].
  rewrite andb_true_r, andb_true_iff, !allclose_zero_iff. tauto.
Qed.

(** ** Zone reconciliation *)


Lemma reconcile_zones_agree (self other self' other' : Geo_reference) :
  reconcile_zones self other = ((self', other'), Ok tt) ->
  zone self' = zone other'
  /\ xllcorner self' = xllcorner self /\ yllcorner self' = yllcorner self
  /\ xllcorner other' = xllcorner other /\ yllcorner other' = yllcorner other.
Proof.
  unfold reconcile_zones.
  destruct (Z.eqb_spec (zone self) (zone other)) as [Heq|Hne];
    destruct (Z.eqb_spec (zone self) DEFAULT_ZONE) as [Hs|Hs];
    destruct (Z.eqb_spec (zone other) DEFAULT_ZONE) as [Ho|Ho];
    simpl; intros [= <- <-]; simpl; repeat split; congruence.
Qed.

Example reconcile_unset_with_concrete :
  reconcile_zones sample_geo_B sample_geo_A
  = ((set_zone sample_geo_B 56, sample_geo_A), Ok tt).
Proof. reflexivity. Qed.

Example reconcile_concrete_with_unset :
  reconcile_zones sample_geo_A sample_geo_B
  = ((sample_geo_A, set_zone sample_geo_B 56), Ok tt).
Proof. reflexivity. Qed.

Example reconcile_two_concrete_zones :
  reconcile_zones sample_geo_A (Geo_reference_init 55 0 0)
  = ((sample_geo_A, Geo_reference_init 55 0 0), Raise ANUGAError).
Proof. reflexivity. Qed.

Example reconcile_unset_with_unset :
  reconcile_zones Geo_reference_default sample_geo_B
  = ((Geo_reference_default, sample_geo_B), Ok tt).
Proof. reflexivity. Qed.

(** ** Comparison *)

Lemma float_eq_refl (x : pyfloat) :
  float_eq x x = match x with Number _ => true | NaN => false end.
Proof. destruct x; cbn; [apply Qeq_bool_refl|reflexivity]. Qed.

(** C10 as stated fails: an object whose x-origin is NaN compares unequal to
    every object, itself included, as NaN is not equal to NaN. *)
Lemma cmp_NaN_origin :
  __cmp__ (mkFields 56 NaN (Number 0)) (Some (mkFields 56 NaN (Number 0))) = 1%Z
  /\ __cmp__ (mkFields 56 NaN (Number 0)) (Some (fields_of sample_geo_A)) = 1%Z.
Proof. split; reflexivity. Qed.

(** C10, amended: [a.__cmp__(b)] with [b] not [None] does not look at [b]:
    it is 0 when neither origin coordinate of [a] is NaN, whatever the zones
    and origins of [a] and [b], and 1 when one is NaN; so it is 0 for any two
    objects whose origins are numbers.  Only [None] compares unequal to
    those. *)
Theorem cmp_ignores_other (a b : Geo_fields) :
  (fields_xllcorner a <> NaN -> fields_yllcorner a <> NaN ->
   __cmp__ a (Some b) = 0%Z)
  /\ (fields_xllcorner a = NaN \/ fields_yllcorner a = NaN ->
      __cmp__ a (Some b) = 1%Z)
  /\ __cmp__ a None = 1%Z
  /\ forall g g' : Geo_reference,
       __cmp__ (fields_of g) (Some (fields_of g')) = 0%Z.
Proof.
  unfold __cmp__. rewrite !float_eq_refl, Z.eqb_refl.
  split; [|split; [|split]].
  - intros Hx Hy.
    destruct (fields_xllcorner a); [|contradiction].
    destruct (fields_yllcorner a); [|contradiction]. reflexivity.
  - intros [Hx|Hy].
    + rewrite Hx. destruct (fields_yllcorner a); reflexivity.
    + rewrite Hy. destruct (fields_xllcorner a); reflexivity.
  - reflexivity.
  - intros g g'. rewrite !float_eq_refl, Z.eqb_refl. reflexivity.
Qed.

(** ** Shapes and translations *)

Lemma col_add_both {arith : Arithmetic} (dx dy : Q) (ncols : nat) (rows : list (list Q)) :
  col_add 1 dy (col_add 0 dx (Arr2 ncols rows)) = Arr2 ncols (translate dx dy rows).
Proof. unfold translate, row_map. simpl. rewrite map_map. reflexivity. Qed.

Lemma col_sub_both {arith : Arithmetic} (dx dy : Q) (ncols : nat) (rows : list (list Q)) :
  col_sub 1 dy (col_sub 0 dx (Arr2 ncols rows)) = Arr2 ncols (untranslate dx dy rows).
Proof. unfold untranslate, row_map. simpl. rewrite map_map. reflexivity. Qed.

Lemma ensure_numeric_as_input (b : bool) (a : ndarray) :
  ensure_numeric (as_input b a) = a /\ is_ListType (as_input b a) = b.
Proof. destruct b; split; reflexivity. Qed.

Lemma get_absolute_Nx2 {arith : Arithmetic} (self : Geo_reference) (b : bool) (rows : list (list Q)) :
  get_absolute self (as_input b (Arr2 2 rows))
  = Ok (as_input b (Arr2 2 (if is_absolute self then rows
                            else translate (xllcorner self) (yllcorner self) rows))).
Proof.
  unfold get_absolute.
  destruct (ensure_numeric_as_input b (Arr2 2 rows)) as [-> ->].
  cbn -[is_absolute]. destruct (is_absolute self); cbn; [reflexivity|].
  unfold translate, row_map. rewrite map_map. reflexivity.
Qed.

Lemma change_points_geo_ref_Nx2 {arith : Arithmetic} (self : Geo_reference) (b : bool)
    (rows : list (list Q)) (points_geo_ref : geo_param) :
  change_points_geo_ref self (as_input b (Arr2 2 rows)) points_geo_ref
  = Ok (as_input b (Arr2 2
      match points_geo_ref with
      | SameGeo => rows
      | NoGeo => untranslate (xllcorner self) (yllcorner self) rows
      | OtherGeo g =>
          untranslate (xllcorner self) (yllcorner self)
            (translate (xllcorner g) (yllcorner g) rows)
      end)).
Proof.
  unfold change_points_geo_ref.
  destruct (ensure_numeric_as_input b (Arr2 2 rows)) as [-> ->].
  cbn. destruct points_geo_ref; cbn; try reflexivity.
  - unfold untranslate, row_map. rewrite map_map. reflexivity.
  - unfold untranslate, translate, row_map. rewrite !map_map. reflexivity.
Qed.

Lemma row_map_row_map (f0 f1 g0 g1 : Q -> Q) (row : list Q) :
  row_map g0 g1 (row_map f0 f1 row)
  = row_map (fun x => g0 (f0 x)) (fun y => g1 (f1 y)) row.
Proof. destruct row as [|x [|y rest]]; reflexivity. Qed.

(** ** Rounding *)

Lemma Qabs_le_iff (x tol : Q) : Qabs x <= tol <-> - tol <= x /\ x <= tol.
Proof. apply Qabs_Qle_condition. Qed.

Lemma Qabs_le_sum (a b c : Q) : a == b + c -> Qabs a <= Qabs b + Qabs c.
Proof. intros ->. apply Qabs_triangle. Qed.

(** Two values within [ea] and [eb] of a third. *)
Lemma Qabs_close_via (a b t ea eb : Q) :
  Qabs (a - t) <= ea -> Qabs (b - t) <= eb -> Qabs (a - b) <= ea + eb.
Proof.
  intros Ha Hb.
  pose proof (Qabs_le_sum (a - b) (a - t) (- (b - t)) ltac:(ring)) as H.
  rewrite Qabs_opp in H. lra.
Qed.

(** One rounded operation after another.  The value [v] at hand is within
    [c * (u * M)] of the exact value [V]; the exact result [V + o] is of
    magnitude at most [k * M]; then the rounded result is within
    [(2 * c + k) * (u * M)] of it. *)
Section Rounding.

Context {arith : Arithmetic}.
Variables u M bound : Q.
Hypothesis Hu0 : 0 <= u.
Hypothesis Hu1 : u <= 1.
Hypothesis HM : 0 <= M.
Hypothesis Haccurate : accurate arith u bound.

Lemma step_bound (r e T c k : Q) :
  (Qabs e <= bound -> Qabs (r - e) <= u * Qabs e) ->
  Qabs (e - T) <= c * (u * M) -> Qabs T <= k * M -> 0 <= c ->
  (k + c) * M <= bound ->
  Qabs (r - T) <= (2 * c + k) * (u * M).
Proof.
  intros Hround He HT Hc Hbound.
  assert (HuM : 0 <= u * M) by (apply Qmult_le_0_compat; assumption).
  assert (HuM' : u * M <= M).
  { rewrite <- (Qmult_1_l M) at 2. apply Qmult_le_compat_r; assumption. }
  assert (Hc' : c * (u * M) <= c * M).
  { rewrite !(Qmult_comm c). apply Qmult_le_compat_r; assumption. }
  assert (Hmag : Qabs e <= (k + c) * M).
  { pose proof (Qabs_le_sum e T (e - T) ltac:(ring)). lra. }
  assert (Hr : Qabs (r - e) <= (k + c) * (u * M)).
  { eapply Qle_trans; [apply Hround; lra|].
    assert (E : (k + c) * (u * M) == ((k + c) * M) * u) by ring.
    rewrite E, (Qmult_comm u). apply Qmult_le_compat_r; assumption. }
  pose proof (Qabs_le_sum (r - T) (r - e) (e - T) ltac:(ring)). lra.
Qed.

Lemma fadd_step (v V o c k : Q) :
  Qabs (v - V) <= c * (u * M) -> Qabs (V + o) <= k * M -> 0 <= c ->
  (k + c) * M <= bound ->
  Qabs (fadd v o - (V + o)) <= (2 * c + k) * (u * M).
Proof.
  intros Hv HV Hc Hbound.
  apply (step_bound _ (v + o)); try assumption.
  - apply Haccurate.
  - assert (E : v + o - (V + o) == v - V) by ring. rewrite E. exact Hv.
Qed.

Lemma fsub_step (v V o c k : Q) :
  Qabs (v - V) <= c * (u * M) -> Qabs (V - o) <= k * M -> 0 <= c ->
  (k + c) * M <= bound ->
  Qabs (fsub v o - (V - o)) <= (2 * c + k) * (u * M).
Proof.
  intros Hv HV Hc Hbound.
  apply (step_bound _ (v - o)); try assumption.
  - apply Haccurate.
  - assert (E : v - o - (V - o) == v - V) by ring. rewrite E. exact Hv.
Qed.

(** A coordinate [p] made absolute with the origin [o] and rebased on it:
    the origin is added unless [is_absolute] holds, and then subtracted. *)
Lemma round_trip_coordinate (p o : Q) (absolute : bool) :
  Qabs p <= M -> Qabs o <= M -> 3 * M <= bound ->
  (absolute = true -> Qabs o < atol) ->
  Qabs (fsub (if absolute then p else fadd p o) o - p) <= atol + 5 * (u * M).
Proof.
  intros Hp Ho Hbound Habs.
  assert (HuM : 0 <= u * M) by (apply Qmult_le_0_compat; assumption).
  assert (Hpp : Qabs (p - p) <= 0 * (u * M)).
  { assert (E : p - p == 0) by ring. rewrite E. change (Qabs 0) with 0. lra. }
  destruct absolute.
  - specialize (Habs eq_refl).
    pose proof (Qabs_le_sum (p - o) p (- o) ltac:(ring)) as Hsum.
    rewrite Qabs_opp in Hsum.
    assert (Hstep : Qabs (fsub p o - (p - o)) <= (2 * 0 + 2) * (u * M))
      by (apply (fsub_step p p o 0 2); lra).
    pose proof (Qabs_le_sum (fsub p o - p) (fsub p o - (p - o)) (- o)
                  ltac:(ring)) as Hsum'.
    rewrite Qabs_opp in Hsum'. lra.
  - pose proof (Qabs_le_sum (p + o) p o ltac:(ring)) as Hsum.
    assert (Hadd : Qabs (fadd p o - (p + o)) <= (2 * 0 + 2) * (u * M))
      by (apply (fadd_step p p o 0 2); lra).
    assert (Hadd' : Qabs (fadd p o - (p + o)) <= 2 * (u * M)) by lra.
    assert (E : p + o - o == p) by ring.
    assert (Hsub : Qabs (fsub (fadd p o) o - (p + o - o))
                   <= (2 * 2 + 1) * (u * M)).
    { apply (fsub_step (fadd p o) (p + o) o 2 1); try lra.
      rewrite E. lra. }
    rewrite E in Hsub. unfold atol. lra.
Qed.

(** A coordinate [p] of the frame with origin [o] moved into the frame with
    origin [m], read as absolute before and after: the two readings are
    within twice [atol] and [18 * (u * M)]. *)
Lemma moved_coordinate (p o m : Q) (absolute_old absolute_new : bool) :
  Qabs p <= M -> Qabs o <= M -> Qabs m <= M -> 9 * M <= bound ->
  (absolute_old = true -> Qabs o < atol) ->
  (absolute_new = true -> Qabs m < atol) ->
  Qabs ((if absolute_new then fsub (fadd p o) m
         else fadd (fsub (fadd p o) m) m)
        - (if absolute_old then p else fadd p o))
  <= 2 * atol + 18 * (u * M).
Proof.
  intros Hp Ho Hm Hbound Hold Hnew.
  assert (HuM : 0 <= u * M) by (apply Qmult_le_0_compat; assumption).
  assert (Hpp : Qabs (p - p) <= 0 * (u * M)).
  { assert (E : p - p == 0) by ring. rewrite E. change (Qabs 0) with 0. lra. }
  pose proof (Qabs_le_sum (p + o) p o ltac:(ring)) as Hsum1.
  assert (Hadd : Qabs (fadd p o - (p + o)) <= (2 * 0 + 2) * (u * M))
    by (apply (fadd_step p p o 0 2); lra).
  assert (Hadd' : Qabs (fadd p o - (p + o)) <= 2 * (u * M)) by lra.
  pose proof (Qabs_le_sum (p + o - m) (p + o) (- m) ltac:(ring)) as Hsum2.
  rewrite Qabs_opp in Hsum2.
  assert (Hsub : Qabs (fsub (fadd p o) m - (p + o - m))
                 <= (2 * 2 + 3) * (u * M))
    by (apply (fsub_step (fadd p o) (p + o) m 2 3); lra).
  assert (Hsub' : Qabs (fsub (fadd p o) m - (p + o - m)) <= 7 * (u * M)) by lra.
  assert (E : p + o - m + m == p + o) by ring.
  assert (Hback : Qabs (fadd (fsub (fadd p o) m) m - (p + o - m + m))
                  <= (2 * 7 + 2) * (u * M)).
  { apply (fadd_step (fsub (fadd p o) m) (p + o - m) m 7 2); try lra.
    rewrite E. lra. }
  rewrite E in Hback.
  assert (Hafter : Qabs ((if absolute_new then fsub (fadd p o) m
                          else fadd (fsub (fadd p o) m) m) - (p + o))
                   <= atol + 16 * (u * M)).
  { destruct absolute_new; [|unfold atol; lra].
    specialize (Hnew eq_refl).
    pose proof (Qabs_le_sum (fsub (fadd p o) m - (p + o))
                  (fsub (fadd p o) m - (p + o - m)) (- m) ltac:(ring)) as H.
    rewrite Qabs_opp in H. lra. }
  assert (Hbefore : Qabs ((p + o) - (if absolute_old then p else fadd p o))
                    <= atol + 2 * (u * M)).
  { destruct absolute_old.
    - specialize (Hold eq_refl).
      assert (E' : p + o - p == o) by ring. rewrite E'. lra.
    - assert (E' : p + o - fadd p o == - (fadd p o - (p + o))) by ring.
      rewrite E', Qabs_opp. unfold atol. lra. }
  pose proof (Qabs_le_sum
                ((if absolute_new then fsub (fadd p o) m
                  else fadd (fsub (fadd p o) m) m)
                 - (if absolute_old then p else fadd p o))
                ((if absolute_new then fsub (fadd p o) m
                  else fadd (fsub (fadd p o) m) m) - (p + o))
                ((p + o) - (if absolute_old then p else fadd p o))
                ltac:(ring)) as H.
  lra.
Qed.

End Rounding.

(** Arithmetic that rounds nothing is accurate without error. *)
Lemma exact_arithmetic_accurate (bound : Q) :
  accurate exact_arithmetic 0 bound.
Proof.
  intros x y. cbn [fadd fsub exact_arithmetic].
  split; intros _.
  - assert (E : x + y - (x + y) == 0) by ring. rewrite E.
    change (Qabs 0) with 0. lra.
  - assert (E : x - y - (x - y) == 0) by ring. rewrite E.
    change (Qabs 0) with 0. lra.
Qed.

(** *** The rounding of doubles *)

Lemma round_half_even_near (n d : Z) :
  (0 < d)%Z ->
  (- d <= 2 * (round_half_even n d * d - n) <= d)%Z.
Proof.
  intros Hd. unfold round_half_even.
  pose proof (Z.div_mod n d ltac:(lia)) as Hdiv.
  pose proof (Z.mod_pos_bound n d Hd) as Hmod.
  destruct (Z.compare_spec (2 * (n mod d)) d) as [Heq|Hlt|Hgt];
    [destruct (Z.even (n / d))|..]; nia.
Qed.

Lemma pow2_pos (e : Z) : 0 < pow2 e.
Proof.
  unfold pow2. destruct (0 <=? e)%Z eqn:E.
  - apply Z.leb_le in E. change 0 with (inject_Z 0). rewrite <- Zlt_Qlt.
    apply Z.pow_pos_nonneg; lia.
  - reflexivity.
Qed.

(** [scaled]: the fraction is [n / d] divided by [2 ^ e]. *)
Lemma scaled_spec (n d e : Z) :
  (0 < d)%Z ->
  (0 < (scaled n d e).2)%Z
  /\ inject_Z (scaled n d e).1 / inject_Z (scaled n d e).2 * pow2 e
     == inject_Z n / inject_Z d.
Proof.
  intros Hd. unfold scaled, pow2.
  assert (Hd' : ~ inject_Z d == 0).
  { change 0 with (inject_Z 0). rewrite inject_Z_injective. lia. }
  destruct (0 <=? e)%Z eqn:E; cbn [fst snd].
  - apply Z.leb_le in E.
    assert (Hp : (0 < 2 ^ e)%Z) by (apply Z.pow_pos_nonneg; lia).
    split; [lia|].
    assert (Hp' : ~ inject_Z (2 ^ e) == 0).
    { change 0 with (inject_Z 0). rewrite inject_Z_injective. lia. }
    rewrite inject_Z_mult. field. split; assumption.
  - apply Z.leb_gt in E.
    assert (Hp : (0 < 2 ^ (- e))%Z) by (apply Z.pow_pos_nonneg; lia).
    split; [lia|].
    assert (Hp' : ~ inject_Z (2 ^ (- e)) == 0).
    { change 0 with (inject_Z 0). rewrite inject_Z_injective. lia. }
    rewrite inject_Z_mult, (Qmake_Qdiv 1), Z2Pos.id by exact Hp.
    field. split; assumption.
Qed.

(** The exponent [round_double] chooses leaves a significand of at least
    [2 ^ 52]. *)
Lemma scaled_normal (n d : Z) :
  (0 < n)%Z -> (0 < d)%Z ->
  let e0 := (Z.log2 n - Z.log2 d - 52)%Z in
  let e := if ((scaled n d e0).1 <? 2 ^ 52 * (scaled n d e0).2)%Z
           then (e0 - 1)%Z else e0 in
  (2 ^ 52 * (scaled n d e).2 <= (scaled n d e).1)%Z.
Proof.
  intros Hn Hd e0 e. subst e.
  destruct ((scaled n d e0).1 <? 2 ^ 52 * (scaled n d e0).2)%Z eqn:Htest;
    [|apply Z.ltb_ge in Htest; exact Htest].
  clear Htest.
  destruct (Z.log2_spec n Hn) as [Hn1 Hn2].
  destruct (Z.log2_spec d Hd) as [Hd1 Hd2].
  pose proof (Z.log2_nonneg n) as Hln. pose proof (Z.log2_nonneg d) as Hld.
  set (ln := Z.log2 n) in *. set (ld := Z.log2 d) in *.
  unfold scaled. subst e0.
  destruct (0 <=? ln - ld - 52 - 1)%Z eqn:E; cbn [fst snd].
  - apply Z.leb_le in E.
    assert (Hpow : (2 ^ ln = 2 ^ 52 * (2 ^ (ld + 1) * 2 ^ (ln - ld - 52 - 1)))%Z).
    { rewrite <- !Z.pow_add_r by lia. f_equal. lia. }
    assert (Hp : (0 < 2 ^ (ln - ld - 52 - 1))%Z) by (apply Z.pow_pos_nonneg; lia).
    rewrite <- Z.add_1_r in Hd2. nia.
  - apply Z.leb_gt in E.
    assert (Hpow : (2 ^ ln * 2 ^ (- (ln - ld - 52 - 1)) = 2 ^ 52 * 2 ^ (ld + 1))%Z).
    { rewrite <- !Z.pow_add_r by lia. f_equal. lia. }
    assert (Hp : (0 < 2 ^ (- (ln - ld - 52 - 1)))%Z) by (apply Z.pow_pos_nonneg; lia).
    rewrite <- Z.add_1_r in Hd2. nia.
Qed.

(** Rounding to 53 bits is within the relative error [2 ^ -53]. *)
Lemma round_double_accurate (x : Q) :
  Qabs (round_double x - x) <= double_u * Qabs x.
Proof.
  unfold round_double.
  destruct (Z.eqb_spec (Z.abs (Qnum x)) 0) as [Hzero|Hnonzero].
  { assert (Hx : x == 0).
    { destruct x as [xn xd]. cbn in Hzero. unfold Qeq. cbn. lia. }
    rewrite Hx. unfold double_u. cbn. discriminate. }
  set (n := Z.abs (Qnum x)) in *. set (d := Z.pos (Qden x)).
  assert (Hn : (0 < n)%Z) by (subst n; lia).
  assert (Hd : (0 < d)%Z) by (subst d; lia).
  set (e0 := (Z.log2 n - Z.log2 d - 52)%Z).
  pose proof (scaled_normal n d Hn Hd) as Hnormal. cbv zeta in Hnormal.
  fold e0 in Hnormal.
  destruct (scaled n d e0) as [a0 b0] eqn:E0. cbn [fst snd] in Hnormal.
  set (e := if (a0 <? 2 ^ 52 * b0)%Z then (e0 - 1)%Z else e0) in *.
  destruct (scaled_spec n d e Hd) as [Hb Hscaled].
  destruct (scaled n d e) as [a b] eqn:E. cbn [fst snd] in *.
  pose proof (round_half_even_near a b Hb) as Hnear.
  set (m := round_half_even a b) in *.
  rewrite Qred_correct, inject_Z_mult.
  pose proof (pow2_pos e) as Hp. set (p := pow2 e) in *.
  assert (Hx : x == inject_Z (Z.sgn (Qnum x)) * (inject_Z n / inject_Z d)).
  { destruct x as [xn xd]. subst n d. cbn [Qnum Qden].
    rewrite <- (Qmake_Qdiv (Z.abs xn)). unfold Qeq. cbn. lia. }
  rewrite <- Hscaled in Hx.
  assert (Hb' : 0 < inject_Z b).
  { change 0 with (inject_Z 0). rewrite <- Zlt_Qlt. exact Hb. }
  set (t := inject_Z a / inject_Z b) in *.
  assert (Ht : inject_Z (2 ^ 52) <= t).
  { unfold t. apply Qle_shift_div_l; [exact Hb'|].
    rewrite <- inject_Z_mult, <- Zle_Qle. exact Hnormal. }
  assert (Hmt : - (1 # 2) <= inject_Z m - t /\ inject_Z m - t <= 1 # 2).
  { assert (Hq : inject_Z m - t
                 == inject_Z (2 * (m * b - a)) / (2 * inject_Z b)).
    { unfold t, Z.sub.
      rewrite inject_Z_mult, inject_Z_plus, inject_Z_opp, inject_Z_mult.
      field. lra. }
    rewrite Hq. split.
    - apply Qle_shift_div_l; [lra|].
      assert (Hl : - (1 # 2) * (2 * inject_Z b) == inject_Z (- b)).
      { rewrite inject_Z_opp. ring. }
      rewrite Hl, <- Zle_Qle. lia.
    - apply Qle_shift_div_r; [lra|].
      assert (Hr : (1 # 2) * (2 * inject_Z b) == inject_Z b) by ring.
      rewrite Hr, <- Zle_Qle. lia. }
  assert (Hsgn : inject_Z (Z.sgn (Qnum x)) == 1 \/ inject_Z (Z.sgn (Qnum x)) == -1).
  { destruct (Z.sgn_spec (Qnum x)) as [[_ ->]|[[Hz _]|[_ ->]]];
      [left; reflexivity|subst n; lia|right; reflexivity]. }
  set (s := inject_Z (Z.sgn (Qnum x))) in *.
  clearbody t p m s. clear Hscaled Hnormal Hnear E E0.
  change (inject_Z (2 ^ 52)) with (4503599627370496 # 1) in Ht.
  rewrite Hx. unfold double_u.
  destruct Hmt as [Hm1 Hm2].
  assert (Hpt : 0 <= p * (t - (4503599627370496 # 1))).
  { apply Qmult_le_0_compat; lra. }
  assert (Hpm1 : 0 <= p * (inject_Z m - t + (1 # 2))).
  { apply Qmult_le_0_compat; lra. }
  assert (Hpm2 : 0 <= p * ((1 # 2) - (inject_Z m - t))).
  { apply Qmult_le_0_compat; lra. }
  assert (Htp : 0 <= t * p) by (apply Qmult_le_0_compat; lra).
  destruct Hsgn as [->| ->].
  - assert (E1 : 1 * inject_Z m * p - 1 * (t * p) == p * (inject_Z m - t)) by ring.
    assert (E2 : 1 * (t * p) == t * p) by ring.
    rewrite E1, E2, (Qabs_pos (t * p)) by exact Htp.
    apply Qabs_le_iff. split; lra.
  - assert (E1 : -1 * inject_Z m * p - -1 * (t * p) == - (p * (inject_Z m - t))) by ring.
    assert (E2 : -1 * (t * p) == - (t * p)) by ring.
    rewrite E1, E2, !Qabs_opp, (Qabs_pos (t * p)) by exact Htp.
    apply Qabs_le_iff. split; lra.
Qed.

(** [round_half_even] depends on the fraction only. *)
Lemma round_half_even_fraction (n d n' d' : Z) :
  (0 < d)%Z -> (0 < d')%Z -> (n * d' = n' * d)%Z ->
  round_half_even n d = round_half_even n' d'.
Proof.
  intros Hd Hd' Heq. unfold round_half_even.
  pose proof (Z.div_mod n d ltac:(lia)) as Hdiv.
  pose proof (Z.mod_pos_bound n d Hd) as Hmod.
  pose proof (Z.div_mod n' d' ltac:(lia)) as Hdiv'.
  pose proof (Z.mod_pos_bound n' d' Hd') as Hmod'.
  assert (Hq : (n / d = n' / d')%Z).
  { apply (Z.div_unique_pos n' d' (n / d) (n' - d' * (n / d))); [|lia].
    nia. }
  rewrite <- Hq in *.
  assert (Hr : ((n mod d) * d' = (n' mod d') * d)%Z) by nia.
  destruct (Z.compare_spec (2 * (n mod d)) d) as [H1|H1|H1];
    destruct (Z.compare_spec (2 * (n' mod d')) d') as [H2|H2|H2];
    try reflexivity; exfalso; nia.
Qed.

Lemma round_half_even_integer (m d : Z) :
  (0 < d)%Z -> round_half_even (m * d) d = m.
Proof.
  intros Hd. unfold round_half_even.
  rewrite Z.div_mul, Z.mod_mul by lia.
  destruct (Z.compare_spec (2 * 0) d); [lia|reflexivity|lia].
Qed.

Lemma Qmake_to_pos (z : Z) : (0 < z)%Z -> 1 # Z.to_pos z == / inject_Z z.
Proof.
  intros Hz. rewrite (Qmake_Qdiv 1), Z2Pos.id by exact Hz.
  unfold Qdiv. ring.
Qed.

Lemma pow2_succ (e : Z) : pow2 (e + 1) == 2 * pow2 e.
Proof.
  unfold pow2.
  destruct (Z.leb_spec 0 e) as [He|He].
  - rewrite (proj2 (Z.leb_le 0 (e + 1))) by lia.
    rewrite Z.pow_add_r, inject_Z_mult by lia. change (inject_Z (2 ^ 1)) with 2.
    ring.
  - destruct (Z.eq_dec e (-1)%Z) as [->|Hne]; [reflexivity|].
    rewrite (proj2 (Z.leb_gt 0 (e + 1))) by lia.
    assert (Hp : (0 < 2 ^ (- (e + 1)))%Z) by (apply Z.pow_pos_nonneg; lia).
    replace (- e)%Z with (- (e + 1) + 1)%Z by lia.
    rewrite Z.pow_add_r by lia. change (2 ^ 1)%Z with 2%Z.
    rewrite !Qmake_to_pos by lia. rewrite inject_Z_mult.
    assert (Hp' : ~ inject_Z (2 ^ (- (e + 1))) == 0).
    { change 0 with (inject_Z 0). rewrite inject_Z_injective. lia. }
    change (inject_Z 2) with 2. field. exact Hp'.
Qed.

Lemma pow2_double_add (e k : Z) : (0 <= k)%Z -> 2 * pow2 e <= pow2 (e + 1 + k).
Proof.
  intros Hk. pattern k. apply natlike_ind; [| |exact Hk].
  - rewrite Z.add_0_r, pow2_succ. lra.
  - intros k' Hk' IH.
    replace (e + 1 + Z.succ k')%Z with (e + 1 + k' + 1)%Z by lia.
    rewrite pow2_succ. pose proof (pow2_pos e). lra.
Qed.

Lemma pow2_double (e e' : Z) : (e < e')%Z -> 2 * pow2 e <= pow2 e'.
Proof.
  intros Hlt. replace e' with (e + 1 + (e' - e - 1))%Z by lia.
  apply pow2_double_add. lia.
Qed.

(** The exponent and the significand of a number are determined. *)
Lemma binade_unique (t t' : Q) (e e' : Z) :
  4503599627370496 <= t -> t < 9007199254740992 ->
  4503599627370496 <= t' -> t' < 9007199254740992 ->
  t * pow2 e == t' * pow2 e' ->
  e = e' /\ t == t'.
Proof.
  intros Ht1 Ht2 Ht1' Ht2' Heq.
  pose proof (pow2_pos e) as Hp. pose proof (pow2_pos e') as Hp'.
  assert (He : e = e').
  { destruct (Z.lt_trichotomy e e') as [Hlt|[Heq'|Hgt]]; [|exact Heq'|].
    - exfalso. pose proof (pow2_double e e' Hlt) as H.
      assert (H1 : t * pow2 e < 9007199254740992 * pow2 e)
        by (apply Qmult_lt_compat_r; assumption).
      assert (H2 : 4503599627370496 * pow2 e' <= t' * pow2 e')
        by (apply Qmult_le_compat_r; [assumption|lra]).
      lra.
    - exfalso. pose proof (pow2_double e' e ltac:(lia)) as H.
      assert (H1 : t' * pow2 e' < 9007199254740992 * pow2 e')
        by (apply Qmult_lt_compat_r; assumption).
      assert (H2 : 4503599627370496 * pow2 e <= t * pow2 e)
        by (apply Qmult_le_compat_r; [assumption|lra]).
      lra. }
  split; [exact He|]. subst e'.
  apply (Qmult_inj_r _ _ (pow2 e)); [lra|exact Heq].
Qed.

(** The exponent [round_double] chooses leaves a significand below
    [2 ^ 53]. *)
Lemma scaled_below (n d : Z) :
  (0 < n)%Z -> (0 < d)%Z ->
  let e0 := (Z.log2 n - Z.log2 d - 52)%Z in
  ((scaled n d e0).1 < 2 ^ 53 * (scaled n d e0).2)%Z.
Proof.
  intros Hn Hd e0.
  destruct (Z.log2_spec n Hn) as [Hn1 Hn2].
  destruct (Z.log2_spec d Hd) as [Hd1 Hd2].
  pose proof (Z.log2_nonneg n) as Hln. pose proof (Z.log2_nonneg d) as Hld.
  set (ln := Z.log2 n) in *. set (ld := Z.log2 d) in *.
  unfold scaled. subst e0.
  destruct (0 <=? ln - ld - 52)%Z eqn:E; cbn [fst snd].
  - apply Z.leb_le in E.
    assert (Hpow : (2 ^ (ln + 1) = 2 ^ 53 * (2 ^ ld * 2 ^ (ln - ld - 52)))%Z).
    { rewrite <- !Z.pow_add_r by lia. f_equal. lia. }
    assert (Hp : (0 < 2 ^ (ln - ld - 52))%Z) by (apply Z.pow_pos_nonneg; lia).
    rewrite <- Z.add_1_r in Hn2. nia.
  - apply Z.leb_gt in E.
    assert (Hpow : (2 ^ (ln + 1) * 2 ^ (- (ln - ld - 52)) = 2 ^ 53 * 2 ^ ld)%Z).
    { rewrite <- !Z.pow_add_r by lia. f_equal. lia. }
    assert (Hp : (0 < 2 ^ (- (ln - ld - 52)))%Z) by (apply Z.pow_pos_nonneg; lia).
    rewrite <- Z.add_1_r in Hn2. nia.
Qed.

Lemma round_half_even_one (m : Z) : round_half_even m 1 = m.
Proof.
  replace m with (m * 1)%Z at 1 by lia. apply round_half_even_integer. lia.
Qed.

Lemma Qnum_sgn_pos (y : Q) : 0 < y -> Z.sgn (Qnum y) = 1%Z.
Proof. unfold Qlt. cbn. intros H. lia. Qed.

Lemma Qnum_sgn_neg (y : Q) : y < 0 -> Z.sgn (Qnum y) = (-1)%Z.
Proof. unfold Qlt. cbn. intros H. lia. Qed.

Lemma Qnum_sgn_cases (x : Q) :
  ~ x == 0 ->
  (0 < x /\ Z.sgn (Qnum x) = 1%Z) \/ (x < 0 /\ Z.sgn (Qnum x) = (-1)%Z).
Proof.
  intros Hx. destruct (Q_dec x 0) as [[Hlt|Hgt]|Heq]; [| |contradiction].
  - right. split; [exact Hlt|apply Qnum_sgn_neg, Hlt].
  - left. split; [exact Hgt|apply Qnum_sgn_pos, Hgt].
Qed.

Lemma Qnum_zero (x : Q) : Z.abs (Qnum x) = 0%Z <-> x == 0.
Proof. unfold Qeq. cbn. lia. Qed.

(** What [round_double] computes: an exponent [e], the significand
    [a / b] of [|x|] at that exponent, between [2 ^ 52] and [2 ^ 53], and
    the integer nearest to it. *)
Lemma round_double_spec (x : Q) :
  ~ x == 0 ->
  exists e a b : Z,
    (0 < b)%Z /\ (2 ^ 52 * b <= a)%Z /\ (a < 2 ^ 53 * b)%Z
    /\ inject_Z a / inject_Z b * pow2 e == Qabs x
    /\ round_double x
       == inject_Z (Z.sgn (Qnum x)) * inject_Z (round_half_even a b) * pow2 e.
Proof.
  intros Hx. unfold round_double.
  destruct (Z.eqb_spec (Z.abs (Qnum x)) 0) as [Hzero|Hnonzero].
  { apply Qnum_zero in Hzero. contradiction. }
  set (n := Z.abs (Qnum x)) in *. set (d := Z.pos (Qden x)).
  assert (Hn : (0 < n)%Z) by (subst n; lia).
  assert (Hd : (0 < d)%Z) by (subst d; lia).
  assert (Habs : Qabs x == inject_Z n / inject_Z d).
  { destruct x as [xn xd]. subst n d. cbn [Qnum Qden Qabs].
    rewrite <- (Qmake_Qdiv (Z.abs xn)). reflexivity. }
  set (e0 := (Z.log2 n - Z.log2 d - 52)%Z).
  pose proof (scaled_normal n d Hn Hd) as Hnormal. cbv zeta in Hnormal.
  pose proof (scaled_below n d Hn Hd) as Hbelow. cbv zeta in Hbelow.
  fold e0 in Hnormal, Hbelow.
  destruct (scaled_spec n d e0 Hd) as [Hb0 Hscaled0].
  destruct (scaled n d e0) as [a0 b0] eqn:E0. cbn [fst snd] in *.
  set (e := if (a0 <? 2 ^ 52 * b0)%Z then (e0 - 1)%Z else e0) in *.
  destruct (scaled_spec n d e Hd) as [Hb Hscaled].
  destruct (scaled n d e) as [a b] eqn:E. cbn [fst snd] in *.
  exists e, a, b. split; [exact Hb|]. split; [exact Hnormal|].
  split; [|split].
  - destruct (Z.ltb_spec a0 (2 ^ 52 * b0)) as [Htest|Htest].
    + (* one exponent lower: the significand doubles *)
      subst e.
      assert (Hp : pow2 e0 == 2 * pow2 (e0 - 1)).
      { rewrite <- pow2_succ. replace (e0 - 1 + 1)%Z with e0 by lia.
        reflexivity. }
      pose proof (pow2_pos (e0 - 1)) as Hpos.
      assert (Hb0' : 0 < inject_Z b0).
      { change 0 with (inject_Z 0). rewrite <- Zlt_Qlt. exact Hb0. }
      assert (Hb' : 0 < inject_Z b).
      { change 0 with (inject_Z 0). rewrite <- Zlt_Qlt. exact Hb. }
      assert (Heq : inject_Z a / inject_Z b == 2 * (inject_Z a0 / inject_Z b0)).
      { apply (Qmult_inj_r _ _ (pow2 (e0 - 1))); [lra|].
        rewrite Hscaled, <- Hscaled0, Hp. ring. }
      assert (Hlt : inject_Z a0 / inject_Z b0 < inject_Z (2 ^ 52)).
      { apply Qlt_shift_div_r; [exact Hb0'|].
        rewrite <- inject_Z_mult, <- Zlt_Qlt. exact Htest. }
      assert (Hlt' : inject_Z a / inject_Z b < inject_Z (2 ^ 53)).
      { rewrite Heq. change (inject_Z (2 ^ 53)) with (2 * inject_Z (2 ^ 52)).
        lra. }
      rewrite Zlt_Qlt, inject_Z_mult.
      apply (Qmult_lt_r _ _ (/ inject_Z b)); [apply Qinv_lt_0_compat, Hb'|].
      assert (E1 : inject_Z (2 ^ 53) * inject_Z b * / inject_Z b
                   == inject_Z (2 ^ 53)) by (field; lra).
      rewrite E1. exact Hlt'.
    + subst e. rewrite E0 in E. injection E as <- <-. exact Hbelow.
  - rewrite Hscaled. symmetry. exact Habs.
  - rewrite Qred_correct, inject_Z_mult. reflexivity.
Qed.

Lemma Qdiv_eq_cross (a b a' b' : Z) :
  (0 < b)%Z -> (0 < b')%Z ->
  inject_Z a / inject_Z b == inject_Z a' / inject_Z b' ->
  (a * b' = a' * b)%Z.
Proof.
  intros Hb Hb' Heq.
  assert (Hq : 0 < inject_Z b).
  { change 0 with (inject_Z 0). rewrite <- Zlt_Qlt. exact Hb. }
  assert (Hq' : 0 < inject_Z b').
  { change 0 with (inject_Z 0). rewrite <- Zlt_Qlt. exact Hb'. }
  apply inject_Z_injective. rewrite !inject_Z_mult.
  assert (E : inject_Z a * inject_Z b'
              == inject_Z a / inject_Z b * (inject_Z b * inject_Z b'))
    by (field; lra).
  rewrite E, Heq. field. lra.
Qed.

Lemma Qdiv_bounds (a b lo hi : Z) :
  (0 < b)%Z -> (lo * b <= a)%Z -> (a < hi * b)%Z ->
  inject_Z lo <= inject_Z a / inject_Z b /\ inject_Z a / inject_Z b < inject_Z hi.
Proof.
  intros Hb Hlo Hhi.
  assert (Hq : 0 < inject_Z b).
  { change 0 with (inject_Z 0). rewrite <- Zlt_Qlt. exact Hb. }
  split.
  - apply Qle_shift_div_l; [exact Hq|].
    rewrite <- inject_Z_mult, <- Zle_Qle. exact Hlo.
  - apply Qlt_shift_div_r; [exact Hq|].
    rewrite <- inject_Z_mult, <- Zlt_Qlt. exact Hhi.
Qed.

(** [round_double] is determined by the exponent and the significand of
    its argument, however they are given. *)
Lemma round_double_unique (x : Q) (e a b : Z) :
  ~ x == 0 -> (0 < b)%Z -> (2 ^ 52 * b <= a)%Z -> (a < 2 ^ 53 * b)%Z ->
  inject_Z a / inject_Z b * pow2 e == Qabs x ->
  round_double x
  == inject_Z (Z.sgn (Qnum x)) * inject_Z (round_half_even a b) * pow2 e.
Proof.
  intros Hx Hb Hlo Hhi Heq.
  destruct (round_double_spec x Hx) as (e1 & a1 & b1 & Hb1 & Hlo1 & Hhi1 & Heq1 & ->).
  destruct (Qdiv_bounds a b (2 ^ 52) (2 ^ 53) Hb Hlo Hhi) as [H1 H2].
  destruct (Qdiv_bounds a1 b1 (2 ^ 52) (2 ^ 53) Hb1 Hlo1 Hhi1) as [H3 H4].
  destruct (binade_unique (inject_Z a1 / inject_Z b1) (inject_Z a / inject_Z b)
              e1 e H3 H4 H1 H2) as [-> Ht].
  { rewrite Heq1, Heq. reflexivity. }
  rewrite (round_half_even_fraction a1 b1 a b Hb1 Hb
             (Qdiv_eq_cross a1 b1 a b Hb1 Hb Ht)).
  reflexivity.
Qed.

#[global] Instance round_double_proper : Proper (Qeq ==> Qeq) round_double.
Proof.
  intros x y Hxy.
  destruct (Qeq_dec y 0) as [Hy|Hy].
  - assert (Hx : x == 0) by (rewrite Hxy; exact Hy).
    unfold round_double.
    rewrite (proj2 (Z.eqb_eq _ _) (proj2 (Qnum_zero x) Hx)).
    rewrite (proj2 (Z.eqb_eq _ _) (proj2 (Qnum_zero y) Hy)). reflexivity.
  - assert (Hx : ~ x == 0) by (rewrite Hxy; exact Hy).
    destruct (round_double_spec y Hy) as (e & a & b & Hb & Hlo & Hhi & Heq & ->).
    rewrite (round_double_unique x e a b Hx Hb Hlo Hhi)
      by (rewrite Heq, Hxy; reflexivity).
    assert (Hsgn : Z.sgn (Qnum x) = Z.sgn (Qnum y)).
    { destruct (Qnum_sgn_cases x Hx) as [[Hpos ->]|[Hneg ->]].
      - symmetry. apply Qnum_sgn_pos. rewrite <- Hxy. exact Hpos.
      - symmetry. apply Qnum_sgn_neg. rewrite <- Hxy. exact Hneg. }
    rewrite Hsgn. reflexivity.
Qed.

(** A double is rounded to itself. *)
Lemma round_double_idempotent (x : Q) :
  round_double (round_double x) == round_double x.
Proof.
  destruct (Qeq_dec x 0) as [Hx|Hx].
  { rewrite Hx. reflexivity. }
  destruct (round_double_spec x Hx) as (e & a & b & Hb & Hlo & Hhi & Heq & Hr).
  pose proof (round_half_even_near a b Hb) as Hnear.
  set (m := round_half_even a b) in *.
  assert (Hm : (2 ^ 52 <= m <= 2 ^ 53)%Z) by nia.
  pose proof (pow2_pos e) as Hp.
  assert (Hmq : 0 < inject_Z m).
  { change 0 with (inject_Z 0). rewrite <- Zlt_Qlt. lia. }
  assert (Hmp : 0 < inject_Z m * pow2 e).
  { apply Qmult_lt_0_compat; assumption. }
  set (r := round_double x) in *.
  assert (Hsign : (0 < r /\ Z.sgn (Qnum x) = 1%Z /\ r == inject_Z m * pow2 e)
                  \/ (r < 0 /\ Z.sgn (Qnum x) = (-1)%Z
                      /\ r == - (inject_Z m * pow2 e))).
  { destruct (Qnum_sgn_cases x Hx) as [[_ Hs]|[_ Hs]]; rewrite Hs in Hr.
    - left. assert (E : r == inject_Z m * pow2 e) by (rewrite Hr; ring).
      split; [lra|]. split; [exact Hs|exact E].
    - right. assert (E : r == - (inject_Z m * pow2 e)) by (rewrite Hr; ring).
      split; [lra|]. split; [exact Hs|exact E]. }
  assert (Hr0 : ~ r == 0) by (destruct Hsign as [[? _]|[? _]]; lra).
  assert (Habs : Qabs r == inject_Z m * pow2 e).
  { destruct Hsign as [(Hpos & _ & E)|(Hneg & _ & E)].
    - rewrite Qabs_pos by lra. exact E.
    - rewrite Qabs_neg by lra. rewrite E. ring. }
  assert (Hsgn : Z.sgn (Qnum r) = Z.sgn (Qnum x)).
  { destruct Hsign as [(Hpos & -> & _)|(Hneg & -> & _)];
      [apply Qnum_sgn_pos, Hpos|apply Qnum_sgn_neg, Hneg]. }
  destruct (Z.eq_dec m (2 ^ 53)%Z) as [Hmax|Hmax].
  - (* the significand was rounded up to the next power of two *)
    rewrite (round_double_unique r (e + 1) (2 ^ 52)%Z 1 Hr0); try lia.
    + rewrite Hsgn, Hr, pow2_succ, round_half_even_one, Hmax. change (inject_Z (2 ^ 53)) with (2 * inject_Z (2 ^ 52)).
      ring.
    + rewrite Habs, pow2_succ, Hmax.
      change (inject_Z (2 ^ 53)) with (2 * inject_Z (2 ^ 52)).
      change (inject_Z 1) with 1. field.
  - rewrite (round_double_unique r e m 1 Hr0); try lia.
    + rewrite Hsgn, Hr, round_half_even_one. reflexivity.
    + rewrite Habs. change (inject_Z 1) with 1. field.
Qed.

(** Subtracting [0.0] from a sum of doubles changes nothing. *)
Lemma double_arithmetic_sub_zero (x y : Q) :
  @fsub double_arithmetic (@fadd double_arithmetic x y) 0
  == @fadd double_arithmetic x y.
Proof.
  cbn [fadd fsub double_arithmetic].
  assert (E : round_double (x + y) - 0 == round_double (x + y)) by ring.
  rewrite E. apply round_double_idempotent.
Qed.

Lemma double_arithmetic_accurate (bound : Q) :
  accurate double_arithmetic double_u bound.
Proof.
  intros x y. split; intros _; apply round_double_accurate.
Qed.

(** *** Matrices *)

Lemma Forall2_row_maps_below (R : Q -> Q -> Prop) (P : Q -> Prop)
    (f0 f1 g0 g1 : Q -> Q) (row : list Q) :
  (forall x, R x x) -> (forall x, P x -> R (f0 x) (g0 x)) ->
  (forall y, P y -> R (f1 y) (g1 y)) ->
  Forall P row ->
  Forall2 R (row_map f0 f1 row) (row_map g0 g1 row).
Proof.
  intros Hrefl H0 H1 Hrow.
  destruct row as [|x [|y rest]]; cbn.
  - constructor.
  - inversion Hrow; subst. repeat constructor. auto.
  - inversion Hrow as [|? ? Hx Hrow']; subst.
    inversion Hrow' as [|? ? Hy _]; subst.
    constructor; [auto|]. constructor; [auto|].
    apply Forall_Forall2_diag, Forall_forall. intros; apply Hrefl.
Qed.

Lemma rows_close_maps (tol M : Q) (f0 f1 g0 g1 : Q -> Q)
    (rows : list (list Q)) :
  0 <= tol ->
  (forall x, Qabs x <= M -> Qabs (f0 x - g0 x) <= tol) ->
  (forall y, Qabs y <= M -> Qabs (f1 y - g1 y) <= tol) ->
  rows_below M rows ->
  rows_close tol (map (row_map f0 f1) rows) (map (row_map g0 g1) rows).
Proof.
  intros Htol H0 H1 Hrows. unfold rows_close.
  induction Hrows as [|row rows Hrow _ IH]; cbn [map]; constructor;
    [|exact IH].
  apply (Forall2_row_maps_below _ (fun x => Qabs x <= M)); try assumption.
  intros x. cbv beta. assert (E : x - x == 0) by ring. rewrite E.
  change (Qabs 0) with 0. exact Htol.
Qed.

Lemma row_map_id (row : list Q) : row_map (fun x => x) (fun y => y) row = row.
Proof. destruct row as [|x [|y rest]]; reflexivity. Qed.

Lemma map_row_map_id (rows : list (list Q)) :
  map (row_map (fun x => x) (fun y => y)) rows = rows.
Proof.
  induction rows as [|row rows IH]; cbn; [reflexivity|].
  rewrite row_map_id, IH. reflexivity.
Qed.

Lemma map_row_map_map (f0 f1 g0 g1 : Q -> Q) (rows : list (list Q)) :
  map (row_map g0 g1) (map (row_map f0 f1) rows)
  = map (row_map (fun x => g0 (f0 x)) (fun y => g1 (f1 y))) rows.
Proof.
  induction rows as [|row rows IH]; cbn; [reflexivity|].
  rewrite row_map_row_map, IH. reflexivity.
Qed.

(** The absolute rows, and rows rebased, as one map over the rows. *)
Lemma absolute_rows_map {arith : Arithmetic} (g : Geo_reference)
    (rows : list (list Q)) :
  absolute_rows g rows
  = map (row_map (fun x => if is_absolute g then x else fadd x (xllcorner g))
                 (fun y => if is_absolute g then y else fadd y (yllcorner g)))
        rows.
Proof.
  unfold absolute_rows, translate.
  destruct (is_absolute g); [symmetry; apply map_row_map_id|reflexivity].
Qed.

Lemma origin_below_nonneg (M : Q) (g : Geo_reference) :
  origin_below M g -> 0 <= M.
Proof.
  intros [Hx _]. pose proof (Qabs_nonneg (xllcorner g)). lra.
Qed.

(** ** Round trip through the absolute frame *)

(** C2 as stated fails in the arithmetic of doubles: at the origin
    [(1e16, 0)] the point [(1, 2)] becomes [(1e16, 2)] when made absolute,
    as [1e16 + 1] is no double, and comes back as [(0, 2)]. *)
Lemma absolute_then_rebase_fails :
  @get_absolute double_arithmetic
    (Geo_reference_init 56 10000000000000000 0) (PyList (Arr2 2 [[1; 2]]))
  = Ok (PyList (Arr2 2 [[10000000000000000; 2]]))
  /\ @change_points_geo_ref double_arithmetic
       (Geo_reference_init 56 10000000000000000 0)
       (PyList (Arr2 2 [[10000000000000000; 2]])) NoGeo
     = Ok (PyList (Arr2 2 [[0; 2]])).
Proof. split; vm_compute; reflexivity. Qed.

(** C2, amended: for every geo reference and every N x 2 array or list of
    points, [get_absolute] followed by [change_points_geo_ref] with no
    [points_geo_ref] succeeds and gives back the points up to rounding, which
    grows with the coordinates: where the coordinates of the points and of
    the origin are of magnitude at most [M] and the arithmetic rounds sums
    and differences up to [3 * M] with relative error at most [u], each
    coordinate comes back within [atol + 5 * u * M], [atol] being the
    tolerance of [is_absolute]. *)
Theorem absolute_then_rebase {arith : Arithmetic} (u M : Q)
    (self : Geo_reference) (is_list : bool) (rows : list (list Q)) :
  0 <= u -> u <= 1 -> accurate arith u (3 * M) ->
  origin_below M self -> rows_below M rows ->
  exists absolute back : list (list Q),
    get_absolute self (as_input is_list (Arr2 2 rows))
    = Ok (as_input is_list (Arr2 2 absolute))
    /\ change_points_geo_ref self (as_input is_list (Arr2 2 absolute)) NoGeo
       = Ok (as_input is_list (Arr2 2 back))
    /\ rows_close (atol + 5 * (u * M)) back rows.
Proof.
  intros Hu0 Hu1 Haccurate Horigin Hrows.
  pose proof (origin_below_nonneg M self Horigin) as HM.
  destruct Horigin as [Hx Hy].
  eexists _, _. split; [apply get_absolute_Nx2|].
  split; [apply change_points_geo_ref_Nx2|].
  fold (absolute_rows self rows). rewrite absolute_rows_map.
  unfold untranslate. rewrite map_row_map_map.
  rewrite <- (map_row_map_id rows) at 2.
  assert (Habs : is_absolute self = true ->
                 Qabs (xllcorner self) < atol /\ Qabs (yllcorner self) < atol)
    by apply is_absolute_iff.
  apply (rows_close_maps _ M); [| | |exact Hrows].
  - assert (0 <= u * M) by (apply Qmult_le_0_compat; assumption).
    unfold atol. lra.
  - intros x Hx'.
    apply (round_trip_coordinate u M (3 * M)); try assumption; try lra.
    intros H. apply Habs, H.
  - intros y Hy'.
    apply (round_trip_coordinate u M (3 * M)); try assumption; try lra.
    intros H. apply Habs, H.
Qed.

Lemma absolute_then_rebase_witness :
  exists absolute back : list (list Q),
    @get_absolute double_arithmetic sample_geo_A (PyList (Arr2 2 [[1; 2]; [3; 4]]))
    = Ok (PyList (Arr2 2 absolute))
    /\ @change_points_geo_ref double_arithmetic sample_geo_A
         (PyList (Arr2 2 absolute)) NoGeo
       = Ok (PyList (Arr2 2 back))
    /\ rows_close (atol + 5 * (double_u * 200)) back [[1; 2]; [3; 4]].
Proof.
  apply (@absolute_then_rebase double_arithmetic double_u 200 sample_geo_A true
           [[1; 2]; [3; 4]]).
  - unfold double_u. lra.
  - unfold double_u. lra.
  - apply double_arithmetic_accurate.
  - split; apply Qabs_le_iff; cbn; lra.
  - repeat (constructor; try (apply Qabs_le_iff; lra)).
Defined.

(** The term [atol] of the bound is not rounding: at the origin
    [(9e-9, 0)], which [is_absolute] takes for zero, [get_absolute] adds
    nothing and [change_points_geo_ref] subtracts the origin, also in exact
    arithmetic. *)
Example absolute_then_rebase_small_origin :
  @get_absolute exact_arithmetic sample_geo_near (PyList (Arr2 2 [[1; 2]]))
  = Ok (PyList (Arr2 2 [[1; 2]]))
  /\ exists back : list (list Q),
       @change_points_geo_ref exact_arithmetic sample_geo_near
         (PyList (Arr2 2 [[1; 2]])) NoGeo
       = Ok (PyList (Arr2 2 back))
       /\ rows_equal back [[1 - (9 # 1000000000); 2]].
Proof.
  split; [reflexivity|]. eexists. split; [reflexivity|].
  repeat constructor; reflexivity.
Qed.

(** ** Shape errors of [change_points_geo_ref] *)

(** [get_absolute] raises ShapeError on a single point without two elements
    and on a matrix whose row width is not 2. *)
Lemma get_absolute_bad_shape {arith : Arithmetic} (self : Geo_reference) (points : pyseq) :
  (length (shape (ensure_numeric points)) = 1%nat
   /\ len (ensure_numeric points) <> 2%nat)
  \/ (exists n m, shape (ensure_numeric points) = [n; m] /\ m <> 2%nat) ->
  get_absolute self points = Raise ShapeError.
Proof.
  unfold get_absolute, len, format_shape.
  generalize (is_ListType points). generalize (ensure_numeric points).
  intros a b [[Hrank Hlen]|(n & m & Hshape & Hm)].
  - rewrite Hrank. cbn.
    destruct (Nat.eqb_spec (hd 0%nat (shape a)) 2); [contradiction|].
    reflexivity.
  - rewrite Hshape. cbn.
    destruct (Nat.eqb_spec m 2); [contradiction|]. reflexivity.
Qed.

(** C9: the code departs from the specification.  On a single point without
    exactly two elements, and on a matrix whose row width is not 2,
    [change_points_geo_ref] fails its [assert]: the error is AssertionError,
    where its sibling [get_absolute], which makes the same two checks with
    the same messages, raises the ShapeError that the specification
    names. *)
Theorem change_points_geo_ref_bad_shape {arith : Arithmetic} (self : Geo_reference)
    (points : pyseq) (points_geo_ref : geo_param) :
  (length (shape (ensure_numeric points)) = 1%nat
   /\ len (ensure_numeric points) <> 2%nat)
  \/ (exists n m, shape (ensure_numeric points) = [n; m] /\ m <> 2%nat) ->
  change_points_geo_ref self points points_geo_ref = Raise AssertionError
  /\ get_absolute self points = Raise ShapeError.
Proof.
  intros Hshape. split; [|apply get_absolute_bad_shape, Hshape].
  revert Hshape. unfold change_points_geo_ref, len, format_shape.
  generalize (is_ListType points). generalize (ensure_numeric points).
  intros a b [[Hrank Hlen]|(n & m & Hshape & Hm)].
  - rewrite Hrank. cbn.
    destruct (Nat.eqb_spec (hd 0%nat (shape a)) 2); [contradiction|].
    reflexivity.
  - rewrite Hshape. cbn. rewrite Hshape. cbn.
    destruct (Nat.eqb_spec m 2); [contradiction|]. reflexivity.
Qed.

Lemma change_points_geo_ref_bad_shape_witness :
  change_points_geo_ref Geo_reference_default (PyList (Arr1 [1; 2; 3])) NoGeo
  = Raise AssertionError
  /\ get_absolute Geo_reference_default (PyList (Arr1 [1; 2; 3]))
     = Raise ShapeError.
Proof.
  apply (change_points_geo_ref_bad_shape Geo_reference_default
           (PyList (Arr1 [1; 2; 3])) NoGeo).
  left. split; [reflexivity|]. cbn. lia.
Defined.

(** The same on a matrix of three columns. *)
Example change_points_geo_ref_three_columns :
  change_points_geo_ref Geo_reference_default
    (PyArray (Arr2 3 [[1; 2; 3]])) NoGeo
  = Raise AssertionError
  /\ get_absolute Geo_reference_default (PyArray (Arr2 3 [[1; 2; 3]]))
     = Raise ShapeError.
Proof. split; reflexivity. Qed.

(** An array of rank 0, or of rank 3 or more, fails earlier, while the text
    of the assertion message is formatted. *)
Lemma change_points_geo_ref_wrong_rank {arith : Arithmetic} (self : Geo_reference)
    (points : pyseq) (points_geo_ref : geo_param) :
  length (shape (ensure_numeric points)) <> 1%nat ->
  length (shape (ensure_numeric points)) <> 2%nat ->
  change_points_geo_ref self points points_geo_ref = Raise TypeError.
Proof.
  unfold change_points_geo_ref, format_shape.
  generalize (is_ListType points). generalize (ensure_numeric points).
  intros a b H1 H2.
  destruct (Nat.eqb_spec (length (shape a)) 1) as [|_]; [contradiction|]. cbn.
  destruct (shape a) as [|n [|m [|k dims]]]; cbn in *; try reflexivity; lia.
Qed.

(** ** Merging two sets *)


Lemma add_attributes_loop (attributes2 attributes1 : gmap string (list Q)) :
  (forall k, is_Some (attributes1 !! k) -> is_Some (attributes2 !! k)) ->
  exists new_attributes,
    add_attributes (Some attributes1) (Some attributes2)
    = Ok (Some new_attributes)
    /\ forall k, new_attributes !! k
       = attributes1 !! k ≫= fun v1 => (fun v2 => v1 ++ v2) <$> attributes2 !! k.
Proof.
  unfold add_attributes.
  apply (map_fold_weak_ind (fun r m =>
    (forall k, is_Some (m !! k) -> is_Some (attributes2 !! k)) ->
    exists new_attributes,
      r ≫= (fun new_attributes => Ok (Some new_attributes))
      = Ok (Some new_attributes)
      /\ forall k, new_attributes !! k
         = m !! k ≫= fun v1 => (fun v2 => v1 ++ v2) <$> attributes2 !! k)).
  - intros _. exists ∅. split; [reflexivity|].
    intros k. rewrite !lookup_empty. reflexivity.
  - intros i x m r Hi IH Hsub.
    destruct IH as (new & Hr & Hnew).
    { intros k Hk. apply Hsub. rewrite lookup_insert_is_Some'. auto. }
    destruct r as [new'|e]; [|discriminate]. cbn in Hr. injection Hr as ->.
    destruct (Hsub i) as [v2 Hv2]; [rewrite lookup_insert_eq; eauto|].
    cbn. rewrite Hv2. eexists. split; [reflexivity|].
    intros k. destruct (decide (i = k)) as [->|Hne].
    + rewrite !lookup_insert_eq. cbn. rewrite Hv2. reflexivity.
    + rewrite !lookup_insert_ne by done. apply Hnew.
Qed.


Lemma add_unfold {arith : Arithmetic} (self other : Geospatial_data) (rows1 rows2 : list (list Q))
    (g1 g2 : Geo_reference) (new_attributes : option (gmap string (list Q))) :
  data_points self = Arr2 2 rows1 ->
  data_points other = Arr2 2 rows2 ->
  reconcile_zones (geo_reference self) (geo_reference other)
  = ((g1, g2), Ok tt) ->
  add_attributes (attributes self) (attributes other) = Ok new_attributes ->
  __add__ self other
  = ((with_geo_reference self g1, with_geo_reference other g2),
     Ok (mkGeospatial
           (Arr2 2 (rebased g1 (merged_xll g1 g2) (merged_yll g1 g2) rows1
                    ++ rebased g2 (merged_xll g1 g2) (merged_yll g1 g2) rows2))
           new_attributes
           (Geo_reference_init (zone g1) (merged_xll g1 g2) (merged_yll g1 g2))
           None)).
Proof.
  intros Hrows1 Hrows2 Hzones Hattributes.
  unfold __add__, get_geo_reference. rewrite Hzones.
  f_equal. cbn [mbind result_bind].
  unfold get_data_points, with_geo_reference. cbn [data_points geo_reference].
  rewrite Hrows1, Hrows2. cbn [mbind result_bind].
  change (PyArray (Arr2 2 rows1)) with (as_input false (Arr2 2 rows1)).
  change (PyArray (Arr2 2 rows2)) with (as_input false (Arr2 2 rows2)).
  rewrite !change_points_geo_ref_Nx2. cbn [mbind result_bind as_input array_of ensure_numeric].
  cbn [concatenate Nat.eqb]. cbn [mbind result_bind attributes].
  rewrite Hattributes. cbn [mbind result_bind].
  unfold Geospatial_data_init, check_data_points. cbn.
  destruct new_attributes; reflexivity.
Qed.

(** Moving the rows of a set to another origin and reading them as
    absolute there agrees with reading them as absolute in the set's own
    frame, within twice [atol] and the rounding of three operations. *)
Lemma rebased_absolute_rows {arith : Arithmetic} (u M : Q)
    (g new_geo : Geo_reference) (rows : list (list Q)) :
  0 <= u -> u <= 1 -> accurate arith u (9 * M) ->
  origin_below M g -> origin_below M new_geo -> rows_below M rows ->
  rows_close (2 * atol + 18 * (u * M))
    (absolute_rows new_geo (rebased g (xllcorner new_geo) (yllcorner new_geo) rows))
    (absolute_rows g rows).
Proof.
  intros Hu0 Hu1 Haccurate Hg Hnew Hrows.
  pose proof (origin_below_nonneg M g Hg) as HM.
  destruct Hg as [Hgx Hgy]. destruct Hnew as [Hnx Hny].
  rewrite !absolute_rows_map. unfold rebased, untranslate, translate.
  rewrite !map_row_map_map.
  assert (Habs : forall g', is_absolute g' = true ->
                   Qabs (xllcorner g') < atol /\ Qabs (yllcorner g') < atol)
    by (intros g'; apply is_absolute_iff).
  apply (rows_close_maps _ M); [| | |exact Hrows].
  - assert (0 <= u * M) by (apply Qmult_le_0_compat; assumption).
    unfold atol. lra.
  - intros x Hx.
    apply (moved_coordinate u M (9 * M)); try assumption; try lra.
    + intros H. apply Habs, H.
    + intros H. apply Habs, H.
  - intros y Hy.
    apply (moved_coordinate u M (9 * M)); try assumption; try lra.
    + intros H. apply Habs, H.
    + intros H. apply Habs, H.
Qed.

Lemma get_data_points_absolute {arith : Arithmetic} (self : Geospatial_data) (rows : list (list Q)) :
  data_points self = Arr2 2 rows ->
  get_data_points self true NoGeo
  = Ok (Arr2 2 (absolute_rows (geo_reference self) rows)).
Proof.
  intros Hrows. unfold get_data_points. rewrite Hrows.
  change (PyArray (Arr2 2 rows)) with (as_input false (Arr2 2 rows)).
  rewrite get_absolute_Nx2. reflexivity.
Qed.

Lemma absolute_rows_same_origin {arith : Arithmetic} (g g' : Geo_reference) (rows : list (list Q)) :
  xllcorner g' = xllcorner g -> yllcorner g' = yllcorner g ->
  absolute_rows g' rows = absolute_rows g rows.
Proof.
  intros Hx Hy. unfold absolute_rows, is_absolute. rewrite Hx, Hy. reflexivity.
Qed.





(** The term [2 * atol] of the bound is not rounding: with the origins
    [(9e-9, 0)] and [(-9e-9, 0)], both of which [is_absolute] takes for zero,
    the first absolute point of the sum is [1.8e-8] away from that of the
    first set, also in exact arithmetic. *)
Example merge_small_origins :
  @get_data_points exact_arithmetic sample_near true NoGeo
  = Ok (Arr2 2 [[1; 2]])
  /\ exists (C : Geospatial_data) (absC : list (list Q)),
       snd (@__add__ exact_arithmetic sample_near sample_near') = Ok C
       /\ @get_data_points exact_arithmetic C true NoGeo = Ok (Arr2 2 absC)
       /\ rows_equal absC [[1 + (18 # 1000000000); 2]; [5; 6]].
Proof.
  split; [reflexivity|]. eexists _, _.
  split; [reflexivity|]. split; [reflexivity|].
  repeat constructor; reflexivity.
Qed.

(** C5 at the failing input: [self] has [elevation], [other] has [elevation]
    and [friction].  [__add__] returns a set that carries [elevation] alone:
    only the keys of [self] are looked up in [other]. *)
Lemma add_keeps_keys_of_self :
  exists C : Geospatial_data,
    snd (__add__ sample_A sample_B_friction) = Ok C
    /\ attribute_names (attributes sample_A)
       <> attribute_names (attributes sample_B_friction)
    /\ attributes C = Some (elevation_only [10; 20; 30]).
Proof.
  eexists. split; [vm_compute; reflexivity|]. split; [|reflexivity].
  intros Heq.
  assert (H : "friction" ∈ attribute_names (attributes sample_B_friction)).
  { cbn. apply elem_of_dom. eexists. reflexivity. }
  rewrite <- Heq in H. cbn in H. apply elem_of_dom in H as [v Hv].
  vm_compute in Hv. discriminate.
Qed.

(** In general [__add__] succeeds as soon as every key of [self] is a key
    of [other]; the keys that only [other] has are dropped. *)
Lemma add_attributes_subset (attributes1 attributes2 : gmap string (list Q)) :
  dom attributes1 ⊆ dom attributes2 ->
  exists new_attributes,
    add_attributes (Some attributes1) (Some attributes2)
    = Ok (Some new_attributes)
    /\ dom new_attributes = dom attributes1.
Proof.
  intros Hsub.
  destruct (add_attributes_loop attributes2 attributes1) as (c & Hc & Hlookup).
  { intros k Hk. apply elem_of_dom, Hsub, elem_of_dom, Hk. }
  exists c. split; [exact Hc|].
  apply set_eq. intros k. rewrite !elem_of_dom, Hlookup. split.
  - intros [vc Hvc]. destruct (attributes1 !! k); [eauto|discriminate].
  - intros [va Hva]. rewrite Hva. cbn.
    assert (is_Some (attributes2 !! k)) as [vb ->]; [|cbn; eauto].
    apply elem_of_dom, Hsub, elem_of_dom. eauto.
Qed.

(** ** Stored points stay relative *)

Lemma copying_returns_new_array : returns_new_array Store.copying.
Proof.
  intros h l a Hl. unfold Store.copying. rewrite Hl.
  eexists. split; [reflexivity|].
  apply not_elem_of_dom, is_fresh.
Qed.

Lemma get_absolute_in_store {arith : Arithmetic}
    (ensure_numeric_Float : Store.heap -> Store.loc -> Store.heap * Store.loc)
    (self : Geo_reference) (h : Store.heap) (points : Store.loc)
    (rows : list (list Q)) :
  returns_new_array ensure_numeric_Float ->
  h !! points = Some (Arr2 2 rows) ->
  exists result : Store.loc,
    Store.get_absolute ensure_numeric_Float self h points
    = (<[result := Arr2 2 (absolute_rows self rows)]> h, Ok result)
    /\ h !! result = None.
Proof.
  intros Hnew Hpoints.
  destruct (Hnew h points _ Hpoints) as (l' & Hcopy & Hfresh).
  exists l'. split; [|exact Hfresh].
  unfold Store.get_absolute. rewrite Hcopy. cbv beta iota.
  rewrite lookup_insert_eq.
  cbn -[is_absolute]. unfold absolute_rows.
  destruct (is_absolute self); cbn; [reflexivity|].
  f_equal. rewrite !alter_insert_eq. f_equal.
  apply col_add_both.
Qed.

(** C4: when [ensure_numeric] builds a new array, [get_data_points] with
    [absolute=True] returns the absolute coordinates in an array of its own
    and leaves the stored points as they were, relative to the geo reference;
    asked again it returns the same coordinates, and the array returned
    first is still intact. *)
Theorem get_data_points_keeps_stored_points {arith : Arithmetic}
    (ensure_numeric_Float : Store.heap -> Store.loc -> Store.heap * Store.loc)
    (self : Store.Geospatial_obj) (h : Store.heap) (rows : list (list Q)) :
  returns_new_array ensure_numeric_Float ->
  h !! Store.obj_data_points self = Some (Arr2 2 rows) ->
  exists (h1 h2 : Store.heap) (first second : Store.loc),
    Store.get_data_points ensure_numeric_Float self h = (h1, Ok first)
    /\ h1 !! first
       = Some (Arr2 2 (absolute_rows (Store.obj_geo_reference self) rows))
    /\ h1 !! Store.obj_data_points self = Some (Arr2 2 rows)
    /\ Store.get_data_points ensure_numeric_Float self h1 = (h2, Ok second)
    /\ h2 !! second = h1 !! first
    /\ h2 !! first = h1 !! first
    /\ h2 !! Store.obj_data_points self = Some (Arr2 2 rows).
Proof.
  intros Hnew Hstored. unfold Store.get_data_points.
  destruct (get_absolute_in_store ensure_numeric_Float
              (Store.obj_geo_reference self) h _ rows Hnew Hstored)
    as (first & Hfirst & Hfresh1).
  assert (Hne1 : first <> Store.obj_data_points self) by congruence.
  assert (Hstored1 : <[first := Arr2 2 (absolute_rows
                         (Store.obj_geo_reference self) rows)]> h
                     !! Store.obj_data_points self = Some (Arr2 2 rows)).
  { rewrite lookup_insert_ne by exact Hne1. exact Hstored. }
  destruct (get_absolute_in_store ensure_numeric_Float
              (Store.obj_geo_reference self) _ _ rows Hnew Hstored1)
    as (second & Hsecond & Hfresh2).
  assert (Hne2 : second <> Store.obj_data_points self) by congruence.
  assert (Hne12 : second <> first).
  { intros ->. rewrite lookup_insert_eq in Hfresh2. discriminate. }
  eexists _, _, first, second.
  split; [exact Hfirst|]. split; [apply lookup_insert_eq|].
  split; [exact Hstored1|]. split; [exact Hsecond|].
  split; [rewrite !lookup_insert_eq; reflexivity|].
  split; [rewrite lookup_insert_ne by exact Hne12; reflexivity|].
  rewrite lookup_insert_ne by exact Hne2. exact Hstored1.
Qed.

Lemma get_data_points_keeps_stored_points_witness :
  exists (h1 : Store.heap) (first : Store.loc),
    Store.get_data_points Store.copying sample_obj sample_heap = (h1, Ok first)
    /\ h1 !! Store.obj_data_points sample_obj = Some (Arr2 2 [[1; 2]; [3; 4]]).
Proof.
  destruct (get_data_points_keeps_stored_points Store.copying sample_obj
              sample_heap [[1; 2]; [3; 4]])
    as (h1 & h2 & first & second & H1 & _ & Hstored & _).
  - exact copying_returns_new_array.
  - reflexivity.
  - exists h1, first. split; [exact H1|exact Hstored].
Defined.

(** The condition on [ensure_numeric] is needed: were the array handed back
    as it is, the first query would move the stored points and the second
    would move them again. *)
Lemma aliasing_moves_stored_points :
  fst (Store.get_data_points Store.aliasing sample_obj sample_heap)
    !! Store.obj_data_points sample_obj
  = Some (Arr2 2 [[101; 202]; [103; 204]]).
Proof. reflexivity. Qed.

(** ** Clipping *)

Lemma elem_of_indices_where {A} (P : A -> bool) (l : list A) (i j : nat) :
  j ∈ indices_where P i l
  <-> (i <= j)%nat /\ exists x, l !! (j - i)%nat = Some x /\ P x = true.
Proof.
  revert i. induction l as [|y l IH]; intros i; cbn.
  - rewrite elem_of_nil. split; [tauto|]. intros (_ & x & Hx & _).
    rewrite lookup_nil in Hx. discriminate.
  - assert (Htail : j ∈ indices_where P (S i) l
                    <-> (i < j)%nat /\ exists x, (y :: l) !! (j - i)%nat = Some x
                                                /\ P x = true).
    { rewrite IH. split.
      - intros (Hle & x & Hx & HP). split; [lia|]. exists x. split; [|exact HP].
        replace (j - i)%nat with (S (j - S i)) by lia. exact Hx.
      - intros (Hlt & x & Hx & HP). split; [lia|]. exists x. split; [|exact HP].
        replace (j - i)%nat with (S (j - S i)) in Hx by lia. exact Hx. }
    destruct (P y) eqn:HPy.
    + rewrite elem_of_cons, Htail. split.
      * intros [->|(Hlt & Hx)].
        -- split; [lia|]. exists y. rewrite Nat.sub_diag. auto.
        -- split; [lia|exact Hx].
      * intros (Hle & x & Hx & HPx).
        destruct (decide (j = i)) as [->|Hne]; [auto|].
        right. split; [lia|eauto].
    + rewrite Htail. split.
      * intros (Hlt & Hx). split; [lia|exact Hx].
      * intros (Hle & x & Hx & HPx).
        destruct (decide (j = i)) as [->|Hne].
        -- rewrite Nat.sub_diag in Hx. cbn in Hx. congruence.
        -- split; [lia|eauto].
Qed.

Lemma NoDup_indices_where {A} (P : A -> bool) (l : list A) (i : nat) :
  NoDup (indices_where P i l).
Proof.
  revert i. induction l as [|y l IH]; intros i; cbn; [constructor|].
  destruct (P y); [|apply IH].
  constructor; [|apply IH].
  rewrite elem_of_indices_where. lia.
Qed.

Lemma Numeric_take_in_range {A} (l : list A) (indices : list nat) :
  Forall (fun i => (i < length l)%nat) indices ->
  Numeric_take l indices = Ok (at_indices l indices).
Proof.
  induction 1 as [|i indices Hi _ IH]; cbn; [reflexivity|].
  apply lookup_lt_is_Some_2 in Hi as [x ->]. rewrite IH. reflexivity.
Qed.

Lemma clip_attributes_in_range (d : gmap string (list Q)) (indices : list nat)
    (n : nat) :
  (forall k values, d !! k = Some values -> length values = n) ->
  Forall (fun i => (i < n)%nat) indices ->
  exists clipped,
    clip_attributes (Some d) indices = Ok clipped
    /\ forall k, clipped !! k
                 = (fun values => at_indices values indices) <$> d !! k.
Proof.
  intros Hlen Hrange. unfold clip_attributes. revert Hlen.
  apply (map_fold_weak_ind (fun r m =>
    (forall k values, m !! k = Some values -> length values = n) ->
    exists clipped, r = Ok clipped
      /\ forall k, clipped !! k
                   = (fun values => at_indices values indices) <$> m !! k)).
  - intros _. exists ∅. split; [reflexivity|].
    intros k. rewrite !lookup_empty. reflexivity.
  - intros key att m r Hkey IH Hlen.
    destruct IH as (clipped & -> & Hclipped).
    { intros k values Hk. apply (Hlen k).
      rewrite lookup_insert_ne; [exact Hk|]. intros ->. congruence. }
    cbn. rewrite Numeric_take_in_range.
    + cbn. eexists. split; [reflexivity|].
      intros k. destruct (decide (key = k)) as [->|Hne].
      * rewrite !lookup_insert_eq. reflexivity.
      * rewrite !lookup_insert_ne by done. apply Hclipped.
    + rewrite (Hlen key att) by apply lookup_insert_eq. exact Hrange.
Qed.

Section ClipProperties.

Context {arith : Arithmetic}.

Variable point_in_polygon : list Q -> ndarray -> bool -> bool.

Lemma length_absolute_rows (g : Geo_reference) (rows : list (list Q)) :
  length (absolute_rows g rows) = length rows.
Proof.
  unfold absolute_rows, translate.
  destruct (is_absolute g); rewrite ?length_map; reflexivity.
Qed.

Lemma indices_where_in_range {A} (P : A -> bool) (l : list A) :
  Forall (fun i => (i < length l)%nat) (indices_where P 0 l).
Proof.
  apply Forall_forall. intros i Hi.
  apply elem_of_indices_where in Hi as (_ & x & Hx & _).
  rewrite Nat.sub_0_r in Hx. apply lookup_lt_Some in Hx. exact Hx.
Qed.

(** What [clip] and [clip_outside] have in common: the points, then the
    attributes, at a list of indices within range. *)
Lemma clipped_at_indices (A : Geospatial_data) (rows : list (list Q))
    (indices : list nat) :
  well_formed A rows ->
  Forall (fun i => (i < length rows)%nat) indices ->
  exists C : Geospatial_data,
    (clipped_points ← take_rows (Arr2 2 (absolute_rows (geo_reference A) rows))
                                indices;
     clipped_attributes ← clip_attributes (get_all_attributes A) indices;
     Geospatial_data_init (Some (PyArray clipped_points))
                          (AttrDict clipped_attributes) None None) = Ok C
    /\ data_points C
       = Arr2 2 (at_indices (absolute_rows (geo_reference A) rows) indices)
    /\ geo_reference C = Geo_reference_default
    /\ forall k, attributes C ≫= (fun d => d !! k)
                 = (fun values => at_indices values indices)
                   <$> (attributes A ≫= (fun d => d !! k)).
Proof.
  intros (Hrows & _ & Hlen) Hrange. unfold take_rows, get_all_attributes.
  rewrite Numeric_take_in_range
    by (rewrite length_absolute_rows; exact Hrange).
  cbn [mbind result_bind].
  destruct (attributes A) as [d|] eqn:Hattributes.
  - destruct (clip_attributes_in_range d indices (length rows))
      as (clipped & -> & Hclipped); [eauto|exact Hrange|].
    cbn. eexists. split; [reflexivity|]. cbn. auto.
  - cbn. eexists. split; [reflexivity|]. cbn.
    split; [reflexivity|]. split; [reflexivity|].
    intros k. apply lookup_empty.
Qed.

(** C7: for a well-formed point set, the indices [clip] selects and the
    indices [clip_outside] selects, for one polygon and one [closed] flag,
    split the point index range in two: every index of a point is in one
    list or the other, none is in both, none occurs twice.  Both calls
    succeed, and each result holds the absolute points and the values of
    every attribute at its indices. *)
Theorem clip_and_clip_outside_partition (A : Geospatial_data)
    (polygon : polygon_arg) (closed : bool) (rows : list (list Q))
    (poly : ndarray) :
  well_formed A rows ->
  polygon_points polygon = Ok poly ->
  let points := absolute_rows (geo_reference A) rows in
  let inside := inside_polygon point_in_polygon (Arr2 2 points) poly closed in
  let outside := outside_polygon point_in_polygon (Arr2 2 points) poly closed in
  (forall i, (i < length rows)%nat <-> i ∈ inside \/ i ∈ outside)
  /\ (forall i, i ∈ inside -> i ∈ outside -> False)
  /\ NoDup inside /\ NoDup outside
  /\ exists Cin Cout : Geospatial_data,
       clip point_in_polygon A polygon closed = Ok Cin
       /\ clip_outside point_in_polygon A polygon closed = Ok Cout
       /\ data_points Cin = Arr2 2 (at_indices points inside)
       /\ data_points Cout = Arr2 2 (at_indices points outside)
       /\ (forall k, attributes Cin ≫= (fun d => d !! k)
                     = (fun values => at_indices values inside)
                       <$> (attributes A ≫= (fun d => d !! k)))
       /\ (forall k, attributes Cout ≫= (fun d => d !! k)
                     = (fun values => at_indices values outside)
                       <$> (attributes A ≫= (fun d => d !! k))).
Proof.
  intros Hwf Hpoly points inside outside.
  assert (Hin : forall i, i ∈ inside
            <-> exists p, points !! i = Some p
                          /\ point_in_polygon p poly closed = true).
  { intros i. unfold inside, inside_polygon.
    rewrite elem_of_indices_where, Nat.sub_0_r.
    split; [intros [_ H]; exact H|intros H; split; [lia|exact H]]. }
  assert (Hout : forall i, i ∈ outside
            <-> exists p, points !! i = Some p
                          /\ point_in_polygon p poly closed = false).
  { intros i. unfold outside, outside_polygon.
    rewrite elem_of_indices_where, Nat.sub_0_r.
    setoid_rewrite negb_true_iff.
    split; [intros [_ H]; exact H|intros H; split; [lia|exact H]]. }
  split.
  { intros i. rewrite Hin, Hout. split.
    - intros Hi. rewrite <- (length_absolute_rows (geo_reference A)) in Hi.
      apply lookup_lt_is_Some_2 in Hi as [p Hp].
      destruct (point_in_polygon p poly closed) eqn:Hp'; eauto.
    - rewrite <- (length_absolute_rows (geo_reference A)).
      intros [(p & Hp & _)|(p & Hp & _)]; apply lookup_lt_Some in Hp; exact Hp. }
  split.
  { intros i Hi Ho. apply Hin in Hi as (p & Hp & Htrue).
    apply Hout in Ho as (p' & Hp' & Hfalse). congruence. }
  split; [apply NoDup_indices_where|]. split; [apply NoDup_indices_where|].
  assert (Hrange_in : Forall (fun i => (i < length rows)%nat) inside).
  { rewrite <- (length_absolute_rows (geo_reference A)).
    apply indices_where_in_range. }
  assert (Hrange_out : Forall (fun i => (i < length rows)%nat) outside).
  { rewrite <- (length_absolute_rows (geo_reference A)).
    apply indices_where_in_range. }
  destruct (clipped_at_indices A rows inside Hwf Hrange_in)
    as (Cin & Hclip_in & Hpoints_in & _ & Hattributes_in).
  destruct (clipped_at_indices A rows outside Hwf Hrange_out)
    as (Cout & Hclip_out & Hpoints_out & _ & Hattributes_out).
  exists Cin, Cout.
  split.
  { unfold clip. rewrite Hpoly. cbn [mbind result_bind].
    rewrite (get_data_points_absolute A rows) by apply Hwf.
    cbn [mbind result_bind]. exact Hclip_in. }
  split.
  { unfold clip_outside. rewrite Hpoly. cbn [mbind result_bind].
    rewrite (get_data_points_absolute A rows) by apply Hwf.
    cbn [mbind result_bind]. exact Hclip_out. }
  auto.
Qed.

End ClipProperties.

Lemma clip_and_clip_outside_partition_witness :
  exists Cin Cout : Geospatial_data,
    clip sample_point_in_polygon sample_A
         (PolygonPoints (PyList (Arr2 2 [[0; 0]; [2; 0]; [2; 5]; [0; 5]]))) true
    = Ok Cin
    /\ clip_outside sample_point_in_polygon sample_A
         (PolygonPoints (PyList (Arr2 2 [[0; 0]; [2; 0]; [2; 5]; [0; 5]]))) true
       = Ok Cout.
Proof.
  destruct (clip_and_clip_outside_partition sample_point_in_polygon sample_A
              (PolygonPoints (PyList (Arr2 2 [[0; 0]; [2; 0]; [2; 5]; [0; 5]])))
              true [[1; 2]; [3; 4]] (Arr2 2 [[0; 0]; [2; 0]; [2; 5]; [0; 5]]))
    as (_ & _ & _ & _ & Cin & Cout & Hin & Hout & _).
  - split; [reflexivity|]. split; [repeat constructor|].
    intros d k values [= <-] Hk. unfold elevation_only in Hk.
    apply lookup_singleton_Some in Hk as [_ <-]. reflexivity.
  - reflexivity.
  - exists Cin, Cout. split; [exact Hin|exact Hout].
Defined.

Example clip_sample_indices :
  inside_polygon sample_point_in_polygon
    (Arr2 2 (absolute_rows sample_geo_A [[1; 2]; [3; 4]])) (Arr1 []) true
  = [0%nat]
  /\ outside_polygon sample_point_in_polygon
       (Arr2 2 (absolute_rows sample_geo_A [[1; 2]; [3; 4]])) (Arr1 []) true
     = [1%nat].
Proof. split; reflexivity. Qed.

(** ** Errors of the geo-reference block of a text file *)

Section ReadASCII.

Context {platform : Platform}.

Variable int_literal : string -> option Z.
Variable float_literal : string -> option Q.

(** [read_ASCII] on a title line already read and the three lines that
    follow it: of the closing asserts the one on the zone can fail. *)
Lemma read_ASCII_unfold (self : Geo_reference) (fd : list string)
    (read_title : string) :
  read_ASCII int_literal float_literal self fd (Some read_title)
  = if title_accepted read_title
    then zone ← py_int int_literal (readline fd).1;
         xllcorner ← py_float float_literal (readline (readline fd).2).1;
         yllcorner ← py_float float_literal
                       (readline (readline (readline fd).2).2).1;
         _ ← py_assert (is_IntType zone);
         Ok (mkGeo zone xllcorner yllcorner (datum self) (projection self)
                   (units self) (false_easting self) (false_northing self))
    else Raise TitleError.
Proof.
  unfold read_ASCII, title_accepted, py_int, py_float.
  destruct (upper (substring 0 2 read_title) =? upper (substring 0 2 TITLE))%string;
    [|reflexivity].
  cbn [negb].
  destruct fd as [|line1 [|line2 [|line3 fd]]]; cbn [readline fst snd];
    repeat (match goal with
            | |- context [int_literal ?s] => destruct (int_literal s)
            | |- context [float_literal ?s] => destruct (float_literal s)
            end; cbn [mbind result_bind try_except]; try reflexivity).
  all: cbn [zone xllcorner yllcorner is_FloatType py_assert mbind result_bind].
  all: destruct (is_IntType _); reflexivity.
Qed.

(** C8, amended: parsing the geo-reference block fails with TitleError
    exactly when the first two characters of the marker line, in upper case,
    differ from those of the expected marker; when they agree and the zone
    line or an origin line is not a number, it fails with another error. *)
Theorem read_ASCII_title_and_number_errors (self : Geo_reference)
    (fd : list string) (read_title : string) :
  (read_ASCII int_literal float_literal self fd (Some read_title)
   = Raise TitleError
   <-> title_accepted read_title = false)
  /\ (title_accepted read_title = true ->
      (exists e, py_int int_literal (readline fd).1 = Raise e)
      \/ (exists e, py_float float_literal (readline (readline fd).2).1 = Raise e)
      \/ (exists e, py_float float_literal
                      (readline (readline (readline fd).2).2).1 = Raise e) ->
      exists e, read_ASCII int_literal float_literal self fd (Some read_title)
                = Raise e
                /\ e <> TitleError).
Proof.
  rewrite read_ASCII_unfold.
  assert (Hint : forall s e, py_int int_literal s = Raise e -> e = ValueError).
  { intros s e. unfold py_int. destruct (int_literal (strip s)); congruence. }
  assert (Hfloat : forall s e, py_float float_literal s = Raise e -> e = ValueError).
  { intros s e. unfold py_float. destruct (float_literal (strip s)); congruence. }
  destruct (title_accepted read_title); split.
  - split; [|discriminate].
    destruct (py_int int_literal (readline fd).1) as [z|e] eqn:Hz; cbn.
    2: { apply Hint in Hz as ->. discriminate. }
    destruct (py_float float_literal (readline (readline fd).2).1)
      as [x|e] eqn:Hx; cbn.
    2: { apply Hfloat in Hx as ->. discriminate. }
    destruct (py_float float_literal (readline (readline (readline fd).2).2).1)
      as [y|e] eqn:Hy; cbn.
    2: { apply Hfloat in Hy as ->. discriminate. }
    destruct (is_IntType z); discriminate.
  - intros _ Hbad.
    destruct (py_int int_literal (readline fd).1) as [z|e] eqn:Hz; cbn.
    2: { apply Hint in Hz as ->. eexists. split; [reflexivity|discriminate]. }
    destruct (py_float float_literal (readline (readline fd).2).1)
      as [x|e] eqn:Hx; cbn.
    2: { apply Hfloat in Hx as ->. eexists. split; [reflexivity|discriminate]. }
    destruct (py_float float_literal (readline (readline (readline fd).2).2).1)
      as [y|e] eqn:Hy; cbn.
    2: { apply Hfloat in Hy as ->. eexists. split; [reflexivity|discriminate]. }
    destruct Hbad as [[e He]|[[e He]|[e He]]]; discriminate.
  - split; intros; reflexivity.
  - discriminate.
Qed.

(** The error for a malformed number is the ValueError of [int()] or
    [float()]: the handler of [read_ASCII] looks for SyntaxError, so
    ParsingError is never raised. *)
Lemma read_ASCII_never_ParsingError (self : Geo_reference) (fd : list string)
    (read_title : string) :
  read_ASCII int_literal float_literal self fd (Some read_title)
  <> Raise ParsingError.
Proof.
  rewrite read_ASCII_unfold. unfold py_int, py_float.
  destruct (title_accepted read_title); [|discriminate].
  repeat (match goal with
          | |- context [int_literal ?s] => destruct (int_literal s)
          | |- context [float_literal ?s] => destruct (float_literal s)
          end; cbn [mbind result_bind]; try discriminate).
  destruct (is_IntType _); discriminate.
Qed.

End ReadASCII.

(** C8 as stated fails: the line [#geology] is not the marker text
    [#geo reference], yet the block is parsed without a TitleError. *)
Lemma read_ASCII_accepts_other_marker :
  (text_line "#geology" =? TITLE)%string = false
  /\ exists g : Geo_reference,
       read_ASCII decimal_int decimal_float Geo_reference_default
                  sample_geo_lines (Some (text_line "#geology")) = Ok g
       /\ zone g = 56%Z /\ xllcorner g == 466600 /\ yllcorner g == 8644444.
Proof.
  split; [reflexivity|]. eexists. split; [vm_compute; reflexivity|].
  split; [reflexivity|]. split; reflexivity.
Qed.

Lemma read_ASCII_title_and_number_errors_witness :
  exists e : exn,
    read_ASCII decimal_int decimal_float Geo_reference_default
               [text_line "fifty-six"; text_line "466600.0"; text_line "8644444.0"]
               (Some TITLE) = Raise e
    /\ e <> TitleError.
Proof.
  apply (read_ASCII_title_and_number_errors decimal_int decimal_float
           Geo_reference_default
           [text_line "fifty-six"; text_line "466600.0"; text_line "8644444.0"]
           TITLE).
  - reflexivity.
  - left. eexists. reflexivity.
Defined.

(** ** Strings *)

Lemma append_cons (c : ascii) (s t : string) :
  String c s +:+ t = String c (s +:+ t).
Proof. reflexivity. Qed.

Lemma append_empty_l (t : string) : "" +:+ t = t.
Proof. reflexivity. Qed.

Ltac string_simpl := rewrite ?append_cons, ?append_empty_l.

Lemma append_assoc (s1 s2 s3 : string) :
  (s1 +:+ s2) +:+ s3 = s1 +:+ (s2 +:+ s3).
Proof.
  induction s1 as [|c s1 IH]; string_simpl; [reflexivity|].
  rewrite IH. reflexivity.
Qed.

Ltac string_norm :=
  repeat (rewrite append_assoc || rewrite append_cons || rewrite append_empty_l).

Lemma append_empty_r (s : string) : s +:+ "" = s.
Proof.
  induction s as [|c s IH]; string_simpl; [reflexivity|].
  rewrite IH. reflexivity.
Qed.

Lemma append_middle (c : ascii) (s t : string) :
  s +:+ String c t = (s +:+ String c "") +:+ t.
Proof. rewrite append_assoc. reflexivity. Qed.

Lemma has_char_append (c : ascii) (s1 s2 : string) :
  has_char c (s1 +:+ s2) = has_char c s1 || has_char c s2.
Proof.
  induction s1 as [|c' s1 IH]; string_simpl; cbn; [reflexivity|].
  rewrite IH, orb_assoc. reflexivity.
Qed.

Lemma split_without_sep (sep : ascii) (s : string) :
  has_char sep s = false -> split sep s = [s].
Proof.
  induction s as [|c s IH]; cbn; [reflexivity|].
  intros H. apply orb_false_iff in H as [Hc Hs].
  rewrite Hc, (IH Hs). reflexivity.
Qed.

Lemma split_field_sep (sep : ascii) (field rest : string) :
  has_char sep field = false ->
  split sep (field +:+ String sep rest) = field :: split sep rest.
Proof.
  induction field as [|c field IH]; string_simpl; cbn.
  - intros _. rewrite Ascii.eqb_refl. reflexivity.
  - intros H. apply orb_false_iff in H as [Hc Hfield].
    rewrite Hc, (IH Hfield). reflexivity.
Qed.

Lemma join_fields_cons (sep : ascii) (field field' : string)
    (fields : list string) :
  join_fields sep (field :: field' :: fields)
  = field +:+ String sep (join_fields sep (field' :: fields)).
Proof. reflexivity. Qed.

Lemma split_join_fields (sep : ascii) (fields : list string) :
  fields <> [] ->
  Forall (fun field => has_char sep field = false) fields ->
  split sep (join_fields sep fields) = fields.
Proof.
  intros Hne Hall. induction Hall as [|field fields Hfield Hall IH]; [done|].
  destruct fields as [|field' fields].
  - apply split_without_sep, Hfield.
  - rewrite join_fields_cons, split_field_sep by exact Hfield.
    f_equal. apply IH. discriminate.
Qed.

Lemma lstrip_append (s t : string) :
  s <> "" -> lstrip s = s -> lstrip (s +:+ t) = s +:+ t.
Proof.
  destruct s as [|c s]; [done|]. string_simpl. cbn. intros _.
  destruct (is_space c); [|reflexivity].
  intros H. exfalso.
  assert (Hlen : forall u, (String.length (lstrip u) <= String.length u)%nat).
  { clear. induction u as [|c u IH]; cbn; [lia|]. destruct (is_space c); cbn; lia. }
  specialize (Hlen s). rewrite H in Hlen. cbn in Hlen. lia.
Qed.

Lemma rstrip_append (s t : string) :
  s <> "" -> rstrip s = s -> rstrip (t +:+ s) = t +:+ s.
Proof.
  intros Hne Hs. induction t as [|c t IH]; string_simpl; cbn; [exact Hs|].
  rewrite IH. destruct (t +:+ s) eqn:E.
  - destruct t; [rewrite append_empty_l in E; congruence|discriminate].
  - rewrite andb_false_r. reflexivity.
Qed.

Lemma rstrip_cons_fixed (c : ascii) (s : string) :
  rstrip (String c s) = String c s ->
  rstrip s = s /\ (s = "" -> is_space c = false).
Proof.
  cbn. destruct (is_space c && (rstrip s =? ""))%string eqn:E; [discriminate|].
  intros [= H]. split; [exact H|].
  intros ->. cbn in E. rewrite andb_true_r in E. exact E.
Qed.

Lemma rstrip_newline (s : string) :
  s <> "" -> rstrip s = s -> rstrip (s +:+ String newline "") = s.
Proof.
  induction s as [|c s IH]; [done|]. intros _ Hfixed.
  apply rstrip_cons_fixed in Hfixed as [Hs Hc]. string_simpl. cbn.
  destruct s as [|c' s].
  - cbn. rewrite (Hc eq_refl). reflexivity.
  - rewrite IH by done. rewrite andb_false_r. reflexivity.
Qed.

Lemma field_ok_iff (s : string) :
  field_ok s = true
  <-> s <> "" /\ lstrip s = s /\ rstrip s = s
      /\ has_char "," s = false /\ has_char newline s = false.
Proof.
  unfold field_ok.
  rewrite !andb_true_iff, !negb_true_iff, !String.eqb_eq, String.eqb_neq.
  tauto.
Qed.

Lemma strip_field_ok (s : string) : field_ok s = true -> strip s = s.
Proof.
  intros H. apply field_ok_iff in H as (_ & Hl & Hr & _).
  unfold strip. rewrite Hr. exact Hl.
Qed.

Lemma join_fields_ok (fields : list string) :
  fields <> [] ->
  Forall (fun field => field_ok field = true) fields ->
  join_fields "," fields <> ""
  /\ lstrip (join_fields "," fields) = join_fields "," fields
  /\ rstrip (join_fields "," fields) = join_fields "," fields
  /\ has_char newline (join_fields "," fields) = false.
Proof.
  intros Hne Hall. induction Hall as [|field fields Hfield Hall IH]; [done|].
  apply field_ok_iff in Hfield as (Hf & Hl & Hr & _ & Hnl).
  destruct fields as [|field' fields]; [cbn [join_fields]; auto|].
  rewrite join_fields_cons.
  destruct IH as (Hj & Hjl & Hjr & Hjnl); [discriminate|].
  split; [destruct field; [done|discriminate]|].
  split; [apply lstrip_append; assumption|].
  split.
  - rewrite append_middle. apply rstrip_append; assumption.
  - rewrite has_char_append. cbn [has_char]. rewrite Hnl, Hjnl. reflexivity.
Qed.

Lemma clean_line_join_fields (fields : list string) :
  fields <> [] ->
  Forall (fun field => field_ok field = true) fields ->
  clean_line (join_fields "," fields +:+ String newline "") "," = fields.
Proof.
  intros Hne Hall.
  destruct (join_fields_ok fields Hne Hall) as (Hj & Hjl & Hjr & _).
  unfold clean_line.
  replace (strip (join_fields "," fields +:+ String newline ""))
    with (join_fields "," fields)
    by (unfold strip; rewrite rstrip_newline, Hjl by assumption; reflexivity).
  rewrite split_join_fields; [|exact Hne|].
  2: { eapply Forall_impl; [exact Hall|]. cbn. intros f Hf.
       apply field_ok_iff in Hf. tauto. }
  clear Hne Hj Hjl Hjr. induction Hall as [|f fs Hf _ IH]; [reflexivity|].
  rewrite filter_cons_True by (apply field_ok_iff in Hf; tauto).
  cbn [map]. rewrite strip_field_ok by exact Hf. f_equal. exact IH.
Qed.

Lemma readlines_from_line (cur : string -> string) (s rest : string) :
  has_char newline s = false ->
  readlines_from cur (s +:+ String newline rest)
  = cur (s +:+ String newline "") :: readlines rest.
Proof.
  revert cur. induction s as [|c s IH]; intros cur; string_simpl; cbn.
  - intros _. reflexivity.
  - intros H. apply orb_false_iff in H as [Hc Hs]. rewrite Hc.
    apply (IH (fun x => cur (String c x)) Hs).
Qed.

Lemma readlines_line (s rest : string) :
  has_char newline s = false ->
  readlines (s +:+ String newline rest)
  = (s +:+ String newline "") :: readlines rest.
Proof. apply (readlines_from_line (fun x => x)). Qed.

(** ** What the writer of text files writes *)

Lemma drop_last_append (s : string) (c : ascii) :
  drop_last (s +:+ String c "") = s.
Proof.
  induction s as [|c' s IH]; string_simpl; [reflexivity|].
  cbn [drop_last]. rewrite IH.
  destruct s; reflexivity.
Qed.

Lemma terminated_cons (sep : ascii) (field : string) (fields : list string) :
  terminated sep (field :: fields)
  = field +:+ String sep (terminated sep fields).
Proof. reflexivity. Qed.

Lemma terminated_join_fields (sep : ascii) (fields : list string) :
  fields <> [] ->
  terminated sep fields = join_fields sep fields +:+ String sep "".
Proof.
  induction fields as [|field fields IH]; [done|]. intros _.
  destruct fields as [|field' fields].
  - reflexivity.
  - rewrite join_fields_cons, (terminated_cons sep field).
    rewrite IH by discriminate.
    rewrite append_assoc. reflexivity.
Qed.

Lemma drop_last_terminated (sep : ascii) (fields : list string) :
  drop_last (terminated sep fields) = join_fields sep fields.
Proof.
  destruct fields as [|field fields]; [reflexivity|].
  rewrite terminated_join_fields by discriminate. apply drop_last_append.
Qed.

Lemma foldl_terminated (sep : ascii) (fields : list string) (acc : string) :
  foldl (fun titlelist title => titlelist +:+ title +:+ String sep "")
        acc fields
  = acc +:+ terminated sep fields.
Proof.
  revert acc. induction fields as [|field fields IH]; intros acc; cbn.
  - rewrite append_empty_r. reflexivity.
  - rewrite IH, !append_assoc. reflexivity.
Qed.

Lemma write_title_join_fields (a : option (gmap string (list Q))) (sep : ascii) :
  write_title a sep = join_fields sep (attribute_keys a).
Proof.
  destruct a as [d|]; [|reflexivity].
  unfold write_title, keys, attribute_keys.
  rewrite foldl_terminated, append_empty_l. apply drop_last_terminated.
Qed.

Lemma bind_Ok {A B} (a : A) (f : A -> result B) : Ok a ≫= f = f a.
Proof. reflexivity. Qed.

Section Writer.

Variable str_float : Q -> string.

Lemma foldl_attlist (d : gmap string (list Q)) (sep : ascii) (i : nat)
    (ks : list string) (values : list Q) (acc : string) :
  mapM (fun k => d !! k ≫= (.!! i)) ks = Some values ->
  foldl (fun acc att =>
           attlist ← acc;
           match d !! att ≫= (.!! i) with
           | Some value => Ok (attlist +:+ str_float value +:+ String sep "")
           | None => Raise IndexError
           end)
        (Ok acc) ks
  = Ok (acc +:+ terminated sep (map str_float values)).
Proof.
  revert values acc. induction ks as [|k ks IH]; intros values acc Hvalues.
  - cbn in Hvalues. injection Hvalues as <-. cbn.
    rewrite append_empty_r. reflexivity.
  - rewrite mapM_Some in Hvalues.
    destruct values as [|v values]; [inversion Hvalues|].
    apply Forall2_cons in Hvalues as [Hv Hvalues].
    cbv beta in Hv. cbn [foldl]. rewrite bind_Ok, Hv.
    rewrite (IH values) by (apply mapM_Some; exact Hvalues).
    cbn [map]. rewrite terminated_cons, !append_assoc. reflexivity.
Qed.

(** The line written for point [i]: the two coordinates and the attribute
    values, commas between them. *)
Lemma write_vertex_join_fields (a : option (gmap string (list Q))) (i : nat)
    (x y : Q) (values : list Q) :
  attribute_values a i = Some values ->
  write_vertex str_float a "," i [x; y]
  = Ok (join_fields "," (map str_float (x :: y :: values)) +:+ String newline "").
Proof.
  intros Hvalues. unfold write_vertex.
  assert (Hattlist :
    match a with
    | Some d =>
        attlist ←
          foldl (fun acc att =>
                   attlist ← acc;
                   match d !! att ≫= (.!! i) with
                   | Some value => Ok (attlist +:+ str_float value +:+ String "," "")
                   | None => Raise IndexError
                   end)
                (Ok ",") (keys d);
        Ok (drop_last attlist)
    | None => Ok ""
    end
    = Ok (match values with
          | [] => ""
          | _ => String "," (join_fields "," (map str_float values))
          end)).
  { destruct a as [d|]; cbn in Hvalues.
    - unfold keys. rewrite (foldl_attlist d "," i _ values) by exact Hvalues.
      rewrite bind_Ok. f_equal.
      destruct values as [|v values]; [reflexivity|].
      rewrite terminated_join_fields by discriminate.
      rewrite <- append_assoc. apply drop_last_append.
    - injection Hvalues as <-. reflexivity. }
  rewrite Hattlist, bind_Ok. cbn [lookup list_lookup].
  f_equal. destruct values as [|v values].
  - cbn [map join_fields]. string_norm. reflexivity.
  - cbn [map]. rewrite !join_fields_cons. string_norm. reflexivity.
Qed.

End Writer.

(** ** What the reader of text files reads *)

Lemma clean_line_title (names : list string) :
  Forall (fun name => field_ok name = true) names ->
  clean_line (text_line (join_fields "," names)) "," = names.
Proof.
  intros Hnames. destruct names as [|name names]; [reflexivity|].
  apply clean_line_join_fields; [discriminate|exact Hnames].
Qed.

Lemma has_char_join_fields (c : ascii) (fields : list string) :
  c <> ","%char ->
  Forall (fun field => has_char c field = false) fields ->
  has_char c (join_fields "," fields) = false.
Proof.
  intros Hc Hall. induction Hall as [|field fields Hfield _ IH]; [reflexivity|].
  destruct fields as [|field' fields]; [exact Hfield|].
  rewrite join_fields_cons, has_char_append. cbn [has_char].
  rewrite Hfield, IH.
  destruct (Ascii.eqb_spec "," c); [congruence|reflexivity].
Qed.

Lemma field_ok_no_newline (fields : list string) :
  Forall (fun field => field_ok field = true) fields ->
  has_char newline (join_fields "," fields) = false.
Proof.
  intros Hall. apply has_char_join_fields; [discriminate|].
  eapply Forall_impl; [exact Hall|]. cbn. intros f Hf.
  apply field_ok_iff in Hf. tauto.
Qed.

Lemma readlines_concat_strings (lines : list string) (rest : string) :
  Forall (fun line => has_char newline line = false) lines ->
  readlines (concat_strings (map text_line lines) +:+ rest)
  = map text_line lines ++ readlines rest.
Proof.
  induction 1 as [|line lines Hline _ IH]; [reflexivity|].
  cbn [map concat_strings foldr app]. unfold text_line at 1.
  string_norm. rewrite readlines_line by exact Hline.
  unfold text_line at 1. f_equal.
  rewrite <- IH. reflexivity.
Qed.

Section Reader.

Context {platform : Platform}.

Variable float_literal : string -> option Q.
Variable str_float : Q -> string.

Lemma printable_field_ok (v : Q) :
  printable float_literal str_float v -> field_ok (str_float v) = true.
Proof.
  intros [Hok _]. unfold number_ok in Hok.
  apply andb_true_iff in Hok. tauto.
Qed.

Lemma py_float_printable (v : Q) :
  printable float_literal str_float v ->
  py_float float_literal (str_float v) = Ok v.
Proof.
  intros Hv. unfold py_float.
  rewrite strip_field_ok by (apply printable_field_ok, Hv).
  destruct Hv as [_ ->]. reflexivity.
Qed.

Lemma strip_text_line (s : string) :
  field_ok s = true -> strip (text_line s) = s.
Proof.
  intros H. apply field_ok_iff in H as (Hne & Hl & Hr & _).
  unfold strip, text_line. rewrite rstrip_newline by assumption. exact Hl.
Qed.

Lemma py_float_text_line (v : Q) :
  printable float_literal str_float v ->
  py_float float_literal (text_line (str_float v)) = Ok v.
Proof.
  intros Hv. unfold py_float.
  rewrite strip_text_line by (apply printable_field_ok, Hv).
  destruct Hv as [_ ->]. reflexivity.
Qed.

Lemma read_attributes_append_values (names : list string) (values : list Q)
    (att_dict : gmap string (list Q)) :
  length names = length values ->
  Forall (printable float_literal str_float) values ->
  read_attributes float_literal names (map str_float values) att_dict
  = Ok (append_values names values att_dict).
Proof.
  revert values att_dict.
  induction names as [|name names IH]; intros [|v values] att_dict Hlen Hvalues;
    try discriminate; [reflexivity|].
  apply Forall_cons in Hvalues as [Hv Hvalues].
  cbn [map read_attributes].
  pose proof (printable_field_ok v Hv) as Hok.
  apply field_ok_iff in Hok as (Hne & _ & _ & _ & Hnl).
  assert (Hne1 : (str_float v =? String newline "")%string = false).
  { apply String.eqb_neq. intros Heq. rewrite Heq in Hnl. discriminate. }
  assert (Hne2 : (str_float v =? "")%string = false).
  { apply String.eqb_neq. exact Hne. }
  rewrite Hne1, Hne2. cbn [negb andb].
  rewrite py_float_printable by exact Hv. rewrite !bind_Ok.
  rewrite IH; [reflexivity|cbn in Hlen; lia|exact Hvalues].
Qed.

Lemma read_data_line_row (names : list string) (x y : Q) (values : list Q)
    (points : list (list Q)) (att_dict : gmap string (list Q)) :
  length names = length values ->
  Forall (printable float_literal str_float) (x :: y :: values) ->
  read_data_line float_literal names (map str_float (x :: y :: values))
                 points att_dict
  = Ok (points ++ [[x; y]], append_values names values att_dict).
Proof.
  intros Hlen Hall.
  apply Forall_cons in Hall as [Hx Hall]. apply Forall_cons in Hall as [Hy Hall].
  unfold read_data_line. cbn [map].
  rewrite !py_float_printable, !bind_Ok by assumption.
  rewrite length_map, Hlen, Nat.eqb_refl. cbn [negb].
  rewrite read_attributes_append_values by assumption.
  reflexivity.
Qed.

End Reader.

Lemma starts_with_append (c : ascii) (s t : string) :
  s <> "" -> starts_with c (s +:+ t) = starts_with c s.
Proof. destruct s; [done|reflexivity]. Qed.

Lemma join_fields_head (field : string) (fields : list string) :
  exists rest, join_fields "," (field :: fields) = field +:+ rest.
Proof.
  destruct fields as [|field' fields].
  - exists "". cbn. rewrite append_empty_r. reflexivity.
  - eexists. apply join_fields_cons.
Qed.

Lemma length_attribute_values (a : option (gmap string (list Q))) (i : nat)
    (values : list Q) :
  attribute_values a i = Some values ->
  length (attribute_keys a) = length values.
Proof.
  destruct a as [d|]; cbn.
  - unfold attribute_row. intros H. apply length_mapM in H. exact H.
  - intros [= <-]. reflexivity.
Qed.

Section ReaderLoop.

Context {platform : Platform}.

Variable float_literal : string -> option Q.
Variable str_float : Q -> string.

Lemma read_data_lines_unfold (names : list string) (line : string)
    (fd : list string) (points : list (list Q))
    (att_dict : gmap string (list Q)) :
  read_data_lines float_literal names "," line fd points att_dict
  = if (1 <? length (clean_line line ","))%nat && negb (starts_with "#" line)
    then '(points, att_dict) ←
           read_data_line float_literal names (clean_line line ",")
                          points att_dict;
         continue_reading float_literal names fd points att_dict
    else Ok (line, fd, points, att_dict).
Proof. destruct fd; reflexivity. Qed.

Lemma read_after_readline (names : list string) (fd : list string)
    (points : list (list Q)) (att_dict : gmap string (list Q)) :
  read_data_lines float_literal names "," (readline fd).1 (readline fd).2
                  points att_dict
  = continue_reading float_literal names fd points att_dict.
Proof. destruct fd; reflexivity. Qed.

Lemma continue_reading_rows (a : option (gmap string (list Q)))
    (rows : list (list Q)) (tail : list string) :
  stops_reading (readline tail).1 ->
  forall (i : nat) (points : list (list Q)) (att_dict : gmap string (list Q)),
  rows_printable float_literal str_float a i rows ->
  continue_reading float_literal (attribute_keys a) (data_lines str_float a i rows ++ tail)
                   points att_dict
  = Ok ((readline tail).1, (readline tail).2, points ++ rows,
        foldl (fun att_dict j =>
                 append_values (attribute_keys a) (values_at a j) att_dict)
              att_dict (seq i (length rows))).
Proof.
  intros Hstop. induction rows as [|row rows IH]; intros i points att_dict Hrows.
  - cbn [data_lines app length seq foldl]. rewrite app_nil_r.
    destruct tail as [|line tail]; [reflexivity|].
    cbn [continue_reading readline fst snd] in *.
    rewrite read_data_lines_unfold. unfold stops_reading in Hstop.
    rewrite Hstop. reflexivity.
  - destruct Hrows as (Hlen & [values Hvalues] & Hprintable & Hrows).
    destruct row as [|x [|y [|z row]]]; try discriminate.
    cbn [data_lines app continue_reading].
    rewrite read_data_lines_unfold.
    assert (Hat : values_at a i = values)
      by (unfold values_at; rewrite Hvalues; reflexivity).
    unfold data_line. rewrite Hat in *. cbn [app] in *.
    assert (Hfields : Forall (fun field => field_ok field = true)
                        (map str_float (x :: y :: values))).
    { apply List.Forall_map. eapply Forall_impl; [exact Hprintable|].
      apply (printable_field_ok float_literal str_float). }
    unfold text_line.
    rewrite clean_line_join_fields; [|discriminate|exact Hfields].
    assert (Hhash : starts_with "#"
               (join_fields "," (map str_float (x :: y :: values))
                +:+ String newline "")
             = false).
    { cbn [map]. destruct (join_fields_head (str_float x)
                             (str_float y :: map str_float values)) as [rest ->].
      apply Forall_cons in Hprintable as [[Hx _] _].
      unfold number_ok in Hx. apply andb_true_iff in Hx as [Hok Hx].
      apply field_ok_iff in Hok as (Hne & _).
      rewrite append_assoc, starts_with_append by exact Hne.
      apply negb_true_iff. exact Hx. }
    rewrite Hhash, length_map. cbn [length Nat.ltb Nat.leb negb andb].
    rewrite (read_data_line_row float_literal str_float);
      [|apply (length_attribute_values a i), Hvalues|exact Hprintable].
    rewrite bind_Ok. cbv beta iota.
    rewrite IH by exact Hrows.
    cbn [length seq foldl]. rewrite Hat.
    rewrite <- app_assoc. reflexivity.
Qed.

End ReaderLoop.

(** ** The dictionary built line by line *)

Lemma append_values_cons (name : string) (names : list string) (v : Q)
    (values : list Q) (att_dict : gmap string (list Q)) :
  append_values (name :: names) (v :: values) att_dict
  = append_values names values
      (<[name := default [] (att_dict !! name) ++ [v]]> att_dict).
Proof. reflexivity. Qed.

Lemma append_values_lookup (names : list string) (values : list Q)
    (att_dict : gmap string (list Q)) :
  NoDup names -> length names = length values ->
  (forall k, k ∉ names ->
     append_values names values att_dict !! k = att_dict !! k)
  /\ (forall j k v, names !! j = Some k -> values !! j = Some v ->
        append_values names values att_dict !! k
        = Some (default [] (att_dict !! k) ++ [v])).
Proof.
  intros Hnodup. revert values att_dict.
  induction Hnodup as [|name names Hname Hnodup IH];
    intros [|v values] att_dict Hlen; try discriminate.
  - split; [reflexivity|]. intros j k v' Hj. rewrite lookup_nil in Hj. discriminate.
  - rewrite append_values_cons.
    destruct (IH values (<[name := default [] (att_dict !! name) ++ [v]]> att_dict))
      as [Hout Hin]; [cbn in Hlen; lia|].
    split.
    + intros k Hk. apply not_elem_of_cons in Hk as [Hne Hk].
      rewrite Hout by exact Hk. rewrite lookup_insert_ne by done. reflexivity.
    + intros [|j] k v' Hj Hv; cbn in Hj, Hv.
      * injection Hj as <-. injection Hv as <-.
        rewrite Hout by exact Hname. apply lookup_insert_eq.
      * rewrite (Hin j k v' Hj Hv).
        rewrite lookup_insert_ne; [reflexivity|].
        intros ->. apply Hname. eapply list_elem_of_lookup_2, Hj.
Qed.

Lemma elem_of_keys (d : gmap string (list Q)) (k : string) :
  k ∈ (map_to_list d).*1 <-> is_Some (d !! k).
Proof.
  rewrite list_elem_of_fmap. split.
  - intros ([k' col] & -> & Hin). apply elem_of_map_to_list in Hin. eauto.
  - intros [col Hcol]. exists (k, col). split; [reflexivity|].
    apply elem_of_map_to_list, Hcol.
Qed.

Lemma columns_upto_step (d : gmap string (list Q)) (i : nat)
    (values : list Q) (att_dict : gmap string (list Q)) :
  columns_upto d i att_dict ->
  attribute_row d i = Some values ->
  columns_upto d (S i) (append_values ((map_to_list d).*1) values att_dict).
Proof.
  intros Hupto Hvalues k. cbn [Nat.eqb].
  pose proof (length_mapM _ _ _ Hvalues) as Hlen.
  apply mapM_Some in Hvalues.
  destruct (append_values_lookup ((map_to_list d).*1) values att_dict)
    as [Hout Hin]; [apply NoDup_fst_map_to_list|exact Hlen|].
  destruct (decide (k ∈ (map_to_list d).*1)) as [Hk|Hk].
  - apply list_elem_of_lookup in Hk as [j Hj].
    destruct (Forall2_lookup_l _ _ _ _ _ Hvalues Hj) as (v & Hv & Hcol).
    rewrite (Hin j k v Hj Hv), Hupto.
    destruct (d !! k) as [col|]; [|discriminate]. cbn in Hcol. cbn [fmap option_fmap option_map].
    f_equal. rewrite (take_S_r _ _ _ Hcol).
    destruct i; reflexivity.
  - rewrite (Hout k Hk), Hupto.
    destruct (d !! k) as [col|] eqn:Hcol.
    + exfalso. apply Hk, elem_of_keys. eauto.
    + destruct (i =? 0)%nat; reflexivity.
Qed.

Lemma columns_upto_fold (d : gmap string (list Q)) (n i : nat)
    (att_dict : gmap string (list Q)) :
  columns_upto d i att_dict ->
  (forall j, (i <= j < i + n)%nat -> is_Some (attribute_row d j)) ->
  columns_upto d (i + n)
    (foldl (fun att_dict j =>
              append_values ((map_to_list d).*1) (values_at (Some d) j) att_dict)
           att_dict (seq i n)).
Proof.
  revert i att_dict. induction n as [|n IH]; intros i att_dict Hupto Hrows.
  - rewrite Nat.add_0_r. exact Hupto.
  - cbn [seq foldl]. replace (i + S n)%nat with (S i + n)%nat by lia.
    apply IH.
    + destruct (Hrows i) as [values Hvalues]; [lia|].
      unfold values_at. cbn [attribute_values]. rewrite Hvalues.
      apply columns_upto_step; assumption.
    + intros j Hj. apply Hrows. lia.
Qed.

Lemma columns_upto_all (d : gmap string (list Q)) (n : nat)
    (att_dict : gmap string (list Q)) :
  (0 < n)%nat ->
  (forall k col, d !! k = Some col -> length col = n) ->
  columns_upto d n att_dict -> att_dict = d.
Proof.
  intros Hn Hlen Hupto. apply map_eq. intros k. rewrite Hupto.
  destruct (Nat.eqb_spec n 0); [lia|].
  destruct (d !! k) as [col|] eqn:Hcol; [|reflexivity].
  cbn. rewrite take_ge; [reflexivity|]. rewrite (Hlen k col Hcol). lia.
Qed.

Lemma is_Some_attribute_row (d : gmap string (list Q)) (i n : nat) :
  (forall k col, d !! k = Some col -> length col = n) ->
  (i < n)%nat -> is_Some (attribute_row d i).
Proof.
  intros Hlen Hi. apply mapM_is_Some, Forall_forall. intros k Hk.
  apply elem_of_keys in Hk as [col Hcol]. cbn. rewrite Hcol. cbn.
  apply lookup_lt_is_Some. rewrite (Hlen k col Hcol). exact Hi.
Qed.

Lemma attribute_row_values (d : gmap string (list Q)) (i : nat)
    (values : list Q) (P : Q -> Prop) :
  (forall k col, d !! k = Some col -> Forall P col) ->
  attribute_row d i = Some values -> Forall P values.
Proof.
  intros HP Hvalues. apply mapM_Some in Hvalues.
  induction Hvalues as [|k v names values Hv _ IH]; constructor; [|exact IH].
  destruct (d !! k) as [col|] eqn:Hcol; [|discriminate]. cbn in Hv.
  apply (Forall_lookup_1 _ _ _ _ (HP k col Hcol) Hv).
Qed.

(** The dictionary read from the data lines of all points of a set is the
    dictionary of the set; for a set without a dictionary it is empty. *)
Lemma read_all_columns (a : option (gmap string (list Q))) (n : nat) :
  (0 < n)%nat ->
  (forall d k col, a = Some d -> d !! k = Some col -> length col = n) ->
  foldl (fun att_dict j =>
           append_values (attribute_keys a) (values_at a j) att_dict)
        ∅ (seq 0 n)
  = default ∅ a.
Proof.
  intros Hn Hlen. destruct a as [d|]; cbn [attribute_keys default].
  - apply (columns_upto_all d n); [exact Hn|eauto|].
    apply (columns_upto_fold d n 0 ∅).
    + intros k. apply lookup_empty.
    + intros j Hj. apply (is_Some_attribute_row d j n); [eauto|lia].
  - clear. generalize (∅ : gmap string (list Q)). generalize 0%nat.
    induction n as [|n IH]; intros i att_dict; [reflexivity|].
    cbn [seq foldl]. apply IH.
Qed.

(** ** A text file written, then read *)

Section WriteThenRead.

Context {platform : Platform}.

Variable int_literal : string -> option Z.
Variable float_literal : string -> option Q.
Variable str_int : Z -> string.
Variable str_float : Q -> string.

Lemma rows_printable_intro (a : option (gmap string (list Q)))
    (rows : list (list Q)) (i : nat) :
  Forall (fun row => length row = 2%nat
                     /\ Forall (printable float_literal str_float) row) rows ->
  (forall d k col, a = Some d -> d !! k = Some col ->
     (i + length rows <= length col)%nat
     /\ Forall (printable float_literal str_float) col) ->
  rows_printable float_literal str_float a i rows.
Proof.
  intros Hrows. revert i.
  induction Hrows as [|row rows [Hlen Hrow] _ IH]; intros i Hcols; [exact I|].
  assert (Hsome : is_Some (attribute_values a i)).
  { destruct a as [d|]; [|cbn; eauto]. cbn.
    apply mapM_is_Some, Forall_forall. intros k Hk.
    apply elem_of_keys in Hk as [col Hcol]. cbn. rewrite Hcol. cbn.
    apply lookup_lt_is_Some. destruct (Hcols d k col eq_refl Hcol) as [Hle _].
    cbn in Hle. lia. }
  cbn [rows_printable]. split; [exact Hlen|]. split; [exact Hsome|]. split.
  - apply Forall_app. split; [exact Hrow|].
    destruct Hsome as [values Hvalues]. unfold values_at. rewrite Hvalues.
    destruct a as [d|]; cbn in Hvalues.
    + apply (attribute_row_values d i values _ (fun k col Hcol =>
               proj2 (Hcols d k col eq_refl Hcol)) Hvalues).
    + injection Hvalues as <-. constructor.
  - apply IH. intros d k col Ha Hcol.
    destruct (Hcols d k col Ha Hcol) as [Hle Hp]. cbn in Hle. split; [lia|exact Hp].
Qed.

Lemma write_vertices_data_lines (a : option (gmap string (list Q)))
    (rows : list (list Q)) (i : nat) :
  rows_printable float_literal str_float a i rows ->
  write_vertices str_float a "," i rows
  = Ok (concat_strings (data_lines str_float a i rows)).
Proof.
  revert i. induction rows as [|row rows IH]; intros i Hrows; [reflexivity|].
  destruct Hrows as (Hlen & [values Hvalues] & _ & Hrows).
  destruct row as [|x [|y [|z row]]]; try discriminate.
  cbn [write_vertices].
  rewrite (write_vertex_join_fields str_float a i x y values Hvalues), bind_Ok.
  rewrite (IH (S i) Hrows), bind_Ok.
  cbn [data_lines concat_strings foldr]. unfold data_line, values_at, text_line.
  rewrite Hvalues. reflexivity.
Qed.

Lemma readlines_data_lines (a : option (gmap string (list Q)))
    (rows : list (list Q)) (i : nat) (rest : string) :
  rows_printable float_literal str_float a i rows ->
  readlines (concat_strings (data_lines str_float a i rows) +:+ rest)
  = data_lines str_float a i rows ++ readlines rest.
Proof.
  revert i. induction rows as [|row rows IH]; intros i Hrows; [reflexivity|].
  destruct Hrows as (_ & _ & Hprintable & Hrows).
  cbn [data_lines concat_strings foldr app]. unfold text_line at 1.
  string_norm. rewrite readlines_line.
  - unfold text_line. f_equal. apply (IH (S i) Hrows).
  - apply field_ok_no_newline, List.Forall_map.
    eapply Forall_impl; [exact Hprintable|].
    apply (printable_field_ok float_literal str_float).
Qed.

Lemma readlines_TITLE (rest : string) :
  readlines (TITLE +:+ rest) = TITLE :: readlines rest.
Proof. apply (readlines_line "#geo reference" rest). reflexivity. Qed.

Lemma readlines_write_ASCII (g : Geo_reference) :
  geo_printable int_literal float_literal str_int str_float g ->
  readlines (write_ASCII str_int str_float g)
  = [TITLE; text_line (str_int (zone g));
     text_line (str_float (xllcorner g)); text_line (str_float (yllcorner g))].
Proof.
  intros ([Hz _] & _ & Hx & Hy).
  assert (Hnl : forall v, printable float_literal str_float v ->
                          has_char newline (str_float v) = false).
  { intros v Hv. apply (printable_field_ok float_literal str_float) in Hv.
    apply field_ok_iff in Hv. tauto. }
  unfold write_ASCII. rewrite readlines_TITLE.
  rewrite !append_cons, !append_empty_l.
  rewrite readlines_line by exact Hz.
  rewrite readlines_line by (apply Hnl, Hx).
  rewrite readlines_line by (apply Hnl, Hy).
  reflexivity.
Qed.

Lemma read_ASCII_written (g : Geo_reference) :
  geo_printable int_literal float_literal str_int str_float g ->
  Geo_reference_from_ASCII int_literal float_literal
    [text_line (str_int (zone g)); text_line (str_float (xllcorner g));
     text_line (str_float (yllcorner g))]
    (Some TITLE)
  = Ok (reread g).
Proof.
  intros ([_ Hz] & Hint & Hx & Hy). unfold Geo_reference_from_ASCII.
  rewrite read_ASCII_unfold.
  replace (title_accepted TITLE) with true by reflexivity.
  cbn [readline fst snd]. rewrite Hz, bind_Ok.
  rewrite !(py_float_text_line float_literal str_float), !bind_Ok by assumption.
  rewrite Hint. reflexivity.
Qed.

(** [_read_xya_file] on what [_write_xya_file] wrote. *)
Lemma read_written_xya (a : option (gmap string (list Q)))
    (rows : list (list Q)) (geo : option Geo_reference) :
  rows <> [] ->
  Forall (fun name => field_ok name = true) (attribute_keys a) ->
  rows_printable float_literal str_float a 0 rows ->
  (forall d k col, a = Some d -> d !! k = Some col -> length col = length rows) ->
  (forall g, geo = Some g ->
     geo_printable int_literal float_literal str_int str_float g) ->
  exists text,
    _write_xya_file str_int str_float (Arr2 2 rows) a geo "," = Ok text
    /\ _read_xya_file int_literal float_literal (readlines text) ","
       = Ok (Arr2 2 rows, default ∅ a, reread <$> geo).
Proof.
  intros Hne Hnames Hrows Hcols Hgeo.
  unfold _write_xya_file.
  rewrite write_title_join_fields, (write_vertices_data_lines a rows 0 Hrows), bind_Ok.
  eexists. split; [reflexivity|].
  string_norm. rewrite readlines_line by (apply field_ok_no_newline, Hnames).
  rewrite (readlines_data_lines a rows 0 _ Hrows).
  unfold _read_xya_file. cbn [readline].
  change (join_fields "," (attribute_keys a) +:+ String newline "")
    with (text_line (join_fields "," (attribute_keys a))).
  rewrite (clean_line_title _ Hnames).
  set (fd := data_lines str_float a 0 rows ++ _).
  change (let '(line, fd0) := readline fd in ?k line fd0)
    with (k (readline fd).1 (readline fd).2).
  replace (let '(line, fd0) := readline fd in
           read_data_lines float_literal (attribute_keys a) "," line fd0 [] ∅
             ≫= λ '(line0, fd1, points, att_dict0),
                  (if (line0 =? "")%string then Ok None
                   else Some <$> Geo_reference_from_ASCII int_literal
                                   float_literal fd1 (Some line0))
                  ≫= λ geo_reference,
                       Ok (array_of_rows points, att_dict0, geo_reference))
    with (read_data_lines float_literal (attribute_keys a) ","
            (readline fd).1 (readline fd).2 [] ∅
            ≫= λ '(line0, fd1, points, att_dict0),
                 (if (line0 =? "")%string then Ok None
                  else Some <$> Geo_reference_from_ASCII int_literal
                                  float_literal fd1 (Some line0))
                 ≫= λ geo_reference,
                      Ok (array_of_rows points, att_dict0, geo_reference))
    by (destruct (readline fd); reflexivity).
  rewrite read_after_readline. unfold fd.
  destruct geo as [g|].
  - rewrite (readlines_write_ASCII g (Hgeo g eq_refl)).
    rewrite (continue_reading_rows float_literal str_float a rows);
      [|reflexivity|exact Hrows].
    rewrite bind_Ok. cbn [readline fst snd].
    replace (TITLE =? "")%string with false by reflexivity.
    rewrite (read_ASCII_written g (Hgeo g eq_refl)).
    cbn [fmap result_fmap]. rewrite bind_Ok.
    rewrite read_all_columns; [|destruct rows; [done|cbn; lia]|exact Hcols].
    destruct rows; [done|reflexivity].
  - cbn [readlines readlines_from].
    rewrite (continue_reading_rows float_literal str_float a rows);
      [|reflexivity|exact Hrows].
    rewrite bind_Ok. cbn [readline fst snd String.eqb]. rewrite bind_Ok.
    rewrite read_all_columns; [|destruct rows; [done|cbn; lia]|exact Hcols].
    destruct rows; [done|reflexivity].
Qed.

End WriteThenRead.

(** ** A structured file written, then read *)

Lemma write_pts_variables (d : gmap string (list Q)) (n : nat)
    (ks : list string) (acc : gmap string ndarray) :
  NoDup ks ->
  (forall k, k ∈ ks ->
     acc !! k = None /\ exists col, d !! k = Some col /\ length col = n) ->
  exists variables,
    foldl (fun acc key =>
             variables ← acc;
             match d !! key with
             | Some value =>
                 if (length value =? n)%nat
                 then createVariable key (Arr1 value) variables
                 else Raise ValueError
             | None => Raise IndexError
             end)
          (Ok acc) ks
    = Ok variables
    /\ forall k, variables !! k
                 = if decide (k ∈ ks) then Arr1 <$> d !! k else acc !! k.
Proof.
  intros Hnodup. revert acc.
  induction Hnodup as [|key ks Hkey Hnodup IH]; intros acc Hks.
  - exists acc. split; [reflexivity|]. intros k.
    destruct (decide (k ∈ [])) as [Hk|_]; [|reflexivity].
    apply elem_of_nil in Hk. contradiction.
  - destruct (Hks key) as (Hacc & col & Hcol & Hlen); [left|].
    assert (Hstep : createVariable key (Arr1 col) acc
                    = Ok (<[key := Arr1 col]> acc))
      by (unfold createVariable; rewrite Hacc; reflexivity).
    cbn [foldl]. rewrite bind_Ok, Hcol, Hlen, Nat.eqb_refl, Hstep.
    destruct (IH (<[key := Arr1 col]> acc)) as (variables & -> & Hvariables).
    { intros k Hk. destruct (Hks k) as [Hk' Hd]; [right; exact Hk|].
      split; [|exact Hd]. rewrite lookup_insert_ne; [exact Hk'|].
      intros ->. contradiction. }
    exists variables. split; [reflexivity|]. intros k. rewrite Hvariables.
    destruct (decide (k ∈ ks)) as [Hk|Hk].
    + rewrite decide_True by (right; exact Hk). reflexivity.
    + destruct (decide (k = key)) as [->|Hne].
      * rewrite decide_True by left. rewrite lookup_insert_eq, Hcol. reflexivity.
      * rewrite decide_False by (intros Hin; apply elem_of_cons in Hin; tauto).
        apply lookup_insert_ne. done.
Qed.

Lemma read_pts_attributes (m : gmap string ndarray) :
  forall d : gmap string (list Q),
  (forall k, m !! k = Arr1 <$> d !! k) ->
  map_fold (fun key value acc =>
              attributes ← acc;
              value ← vector_of value;
              Ok (<[key := value]> attributes))
           (Ok ∅) m
  = Ok d.
Proof.
  apply (map_fold_weak_ind (fun r m =>
    forall d : gmap string (list Q),
      (forall k, m !! k = Arr1 <$> d !! k) -> r = Ok d)).
  - intros d Hd. f_equal. symmetry. apply map_empty. intros k.
    specialize (Hd k). rewrite lookup_empty in Hd.
    destruct (d !! k); [discriminate|reflexivity].
  - intros key value m0 r Hkey IH d Hd.
    pose proof (Hd key) as Hvalue. rewrite lookup_insert_eq in Hvalue.
    destruct (d !! key) as [col|] eqn:Hcol; [|discriminate].
    injection Hvalue as ->.
    rewrite (IH (delete key d)).
    + rewrite bind_Ok. cbn [vector_of]. rewrite bind_Ok.
      rewrite insert_delete_eq, insert_id by exact Hcol. reflexivity.
    + intros k. destruct (decide (k = key)) as [->|Hne].
      * rewrite lookup_delete_eq, Hkey. reflexivity.
      * rewrite lookup_delete_ne by done.
        rewrite <- Hd, lookup_insert_ne by done. reflexivity.
Qed.

(** [_read_pts_file] on what [_write_pts_file] wrote. *)
Lemma read_written_pts {platform : Platform} (a : option (gmap string (list Q)))
    (rows : list (list Q)) (geo : option Geo_reference) :
  (forall d, a = Some d -> d !! "points" = None) ->
  (forall d k col, a = Some d -> d !! k = Some col -> length col = length rows) ->
  (forall g, geo = Some g -> is_IntType (zone g) = true) ->
  exists dataset,
    _write_pts_file (Arr2 2 rows) a geo = Ok dataset
    /\ _read_pts_file dataset = Ok (Arr2 2 rows, default ∅ a, reread <$> geo).
Proof.
  intros Hpoints Hcols Hint. unfold _write_pts_file.
  replace (bool_decide (shape (Arr2 2 rows) = [len (Arr2 2 rows); 2%nat]))
    with true by (symmetry; apply bool_decide_eq_true; reflexivity).
  rewrite bind_Ok.
  replace (createVariable "points" (Arr2 2 rows) ∅)
    with (Ok (<["points" := Arr2 2 rows]> (∅ : gmap string ndarray)))
    by reflexivity.
  rewrite bind_Ok.
  assert (Hvariables : exists variables : gmap string ndarray,
    match a with
    | Some d =>
        foldl (fun acc key =>
                 variables ← acc;
                 match d !! key with
                 | Some value =>
                     if (length value =? len (Arr2 2 rows))%nat
                     then createVariable key (Arr1 value) variables
                     else Raise ValueError
                 | None => Raise IndexError
                 end)
              (Ok (<["points" := Arr2 2 rows]> ∅)) (keys d)
    | None => Ok (<["points" := Arr2 2 rows]> ∅)
    end = Ok variables
    /\ variables !! "points" = Some (Arr2 2 rows)
    /\ forall k, delete "points" variables !! k = Arr1 <$> default ∅ a !! k).
  { destruct a as [d|].
    - destruct (write_pts_variables d (length rows) (keys d)
                  (<["points" := Arr2 2 rows]> ∅))
        as (variables & Hfold & Hvariables).
      + apply NoDup_fst_map_to_list.
      + intros k Hk. apply elem_of_keys in Hk as [col Hcol]. split.
        * rewrite lookup_insert_ne, lookup_empty; [reflexivity|].
          intros <-. rewrite (Hpoints d eq_refl) in Hcol. discriminate.
        * exists col. split; [exact Hcol|]. apply (Hcols d k col eq_refl Hcol).
      + exists variables. split; [exact Hfold|].
        assert (Hnot : "points" ∉ keys d).
        { intros Hin. apply elem_of_keys in Hin as [col Hcol].
          rewrite (Hpoints d eq_refl) in Hcol. discriminate. }
        split.
        * rewrite Hvariables, decide_False by exact Hnot. apply lookup_insert_eq.
        * intros k. change (default ∅ (Some d)) with d.
          destruct (decide (k = "points")) as [->|Hne].
          -- rewrite lookup_delete_eq, (Hpoints d eq_refl). reflexivity.
          -- rewrite lookup_delete_ne by done. rewrite Hvariables.
             destruct (decide (k ∈ keys d)) as [Hk|Hk]; [reflexivity|].
             rewrite lookup_insert_ne, lookup_empty by done.
             destruct (d !! k) as [col|] eqn:Hcol; [|reflexivity].
             exfalso. apply Hk, elem_of_keys. eauto.
    - eexists. split; [reflexivity|]. split; [apply lookup_insert_eq|].
      intros k. change (default ∅ None) with (∅ : gmap string (list Q)).
      rewrite lookup_empty.
      destruct (decide (k = "points")) as [->|Hne].
      + apply lookup_delete_eq.
      + rewrite lookup_delete_ne, lookup_insert_ne by done. apply lookup_empty. }
  destruct Hvariables as (variables & -> & Hpts & Hrest). rewrite bind_Ok.
  destruct geo as [g|]; (eexists; split; [reflexivity|]);
    unfold _read_pts_file; cbn [nc_variables]; rewrite Hpts;
    rewrite (read_pts_attributes _ _ Hrest), bind_Ok; [|reflexivity].
  unfold read_NetCDF.
  cbn [nc_xllcorner nc_yllcorner nc_zone mbind result_bind zone xllcorner
       yllcorner is_FloatType py_assert].
  rewrite (Hint g eq_refl). reflexivity.
Qed.

(** ** Export, then import *)

Section ExportImport.

Context {arith : Arithmetic} {platform : Platform}.

Variable int_literal : string -> option Z.
Variable float_literal : string -> option Q.
Variable str_int : Z -> string.
Variable str_float : Q -> string.
Variable is_IOError : exn -> bool.

Lemma Geospatial_data_from_file_imported (fs : gmap string file)
    (file_name : string) (rows : list (list Q))
    (att_dict : gmap string (list Q)) (geo : option Geo_reference) :
  import_points_file int_literal float_literal is_IOError fs file_name None
  = Ok (Arr2 2 rows, att_dict, geo) ->
  Geospatial_data_from_file int_literal float_literal is_IOError fs file_name
                            None None
  = Ok (mkGeospatial (Arr2 2 rows) (Some att_dict)
                     (default Geo_reference_default geo) None).
Proof.
  intros Himport. unfold Geospatial_data_from_file. rewrite Himport, bind_Ok.
  cbv beta iota.
  replace (check_data_points (Some (PyArray (Arr2 2 rows))))
    with (Ok (Arr2 2 rows)) by reflexivity.
  rewrite bind_Ok. destruct geo as [g|]; [|reflexivity].
  change (PyArray (Arr2 2 rows)) with (as_input false (Arr2 2 rows)).
  rewrite change_points_geo_ref_Nx2. reflexivity.
Qed.

Lemma import_points_file_xya (fs : gmap string file) (file_name text : string)
    (r : ndarray * gmap string (list Q) * option Geo_reference) :
  extension file_name = ".xya" ->
  fs !! file_name = Some (TextFile text) ->
  _read_xya_file int_literal float_literal (readlines text) "," = Ok r ->
  import_points_file int_literal float_literal is_IOError fs file_name None
  = Ok r.
Proof.
  intros Hext Hfile Hread. unfold import_points_file.
  rewrite Hfile, Hext, Hread. reflexivity.
Qed.

Lemma import_points_file_pts (fs : gmap string file) (file_name : string)
    (dataset : NetCDF)
    (r : ndarray * gmap string (list Q) * option Geo_reference) :
  extension file_name = ".pts" ->
  fs !! file_name = Some (NetCDFFile dataset) ->
  _read_pts_file dataset = Ok r ->
  import_points_file int_literal float_literal is_IOError fs file_name None
  = Ok r.
Proof.
  intros Hext Hfile Hread. unfold import_points_file.
  rewrite Hfile, Hext, Hread. reflexivity.
Qed.

Lemma get_data_points_written (S : Geospatial_data) (rows : list (list Q))
    (absolute : bool) :
  data_points S = Arr2 2 rows ->
  get_data_points S absolute NoGeo = Ok (Arr2 2 (written_rows S rows absolute)).
Proof.
  intros Hrows. destruct absolute.
  - apply get_data_points_absolute, Hrows.
  - cbn. rewrite Hrows. reflexivity.
Qed.

Lemma written_rows_pairs (S : Geospatial_data) (rows : list (list Q))
    (absolute : bool) :
  Forall (fun row => length row = 2%nat) rows ->
  Forall (fun row => length row = 2%nat) (written_rows S rows absolute)
  /\ length (written_rows S rows absolute) = length rows.
Proof.
  intros Hrows. unfold written_rows, absolute_rows, translate.
  destruct absolute; [|auto]. destruct (is_absolute (geo_reference S)); [auto|].
  split; [|apply length_map].
  apply List.Forall_map. eapply Forall_impl; [exact Hrows|].
  intros row Hrow. unfold row_map. rewrite !length_alter. exact Hrow.
Qed.

(** The set read back has the absolute points and the attribute values of
    the set written. *)
Lemma reimported_same (S : Geospatial_data) (rows : list (list Q))
    (absolute : bool) :
  data_points S = Arr2 2 rows ->
  let S' := mkGeospatial (Arr2 2 (written_rows S rows absolute))
              (Some (default ∅ (attributes S)))
              (default Geo_reference_default
                 (reread <$> (if absolute then None else Some (geo_reference S))))
              None in
  get_data_points S' true NoGeo = get_data_points S true NoGeo
  /\ forall k, attributes S' ≫= (fun d => d !! k)
               = attributes S ≫= (fun d => d !! k).
Proof.
  intros Hrows S'. split.
  - rewrite (get_data_points_absolute S rows Hrows).
    rewrite (get_data_points_absolute S' (written_rows S rows absolute) eq_refl).
    do 2 f_equal. unfold S'. destruct absolute; cbn [geo_reference written_rows].
    + reflexivity.
    + apply absolute_rows_same_origin; reflexivity.
  - intros k. cbn. destruct (attributes S); [reflexivity|apply lookup_empty].
Qed.

End ExportImport.

(** ** Sample runs of the reader and the writer *)

Example read_docstring_file :
  _read_xya_file decimal_int decimal_float (readlines docstring_file) ","
  = Ok (Arr2 2 [[6 # 10; 7 # 10]; [19 # 10; 28 # 10]; [27 # 10; 24 # 10]],
        elevation_friction [49 # 10; 5 # 1; 52 # 10] [3 # 10; 3 # 10; 3 # 10],
        Some (Geo_reference_init 56 (4666000 # 10) (86444440 # 10))).
Proof. vm_compute. reflexivity. Qed.

Example write_sample_spec :
  _write_xya_file sample_str_int sample_str_float (data_points sample_spec)
                  (attributes sample_spec) None ","
  = Ok (concat_strings (map text_line
          ["elevation"; "0.6,0.7,4.9"; "1.9,2.8,5.0"])).
Proof. vm_compute. reflexivity. Qed.

(** C6 as stated fails.  A set without points is written to a .xya file
    that cannot be read back: the reader makes an array of shape (0,) of its
    empty list of points and the constructor's assertion on the shape fails.
    A set whose attribute name holds a comma is written to a .xya file whose
    title line is read as two names, and the import fails with IOError. *)
Lemma export_then_import_fails :
  (exists fs,
     export_points_file sample_str_int sample_str_float sample_no_points
                        "none.xya" true ∅ = Ok fs
     /\ Geospatial_data_from_file decimal_int decimal_float sample_is_IOError
          fs "none.xya" None None = Raise AssertionError)
  /\ (exists fs,
        export_points_file sample_str_int sample_str_float sample_comma
                           "comma.xya" true ∅ = Ok fs
        /\ Geospatial_data_from_file decimal_int decimal_float sample_is_IOError
             fs "comma.xya" None None = Raise IOError).
Proof.
  split.
  - eexists. split; [vm_compute; reflexivity|]. vm_compute. reflexivity.
  - eexists. split; [vm_compute; reflexivity|]. vm_compute. reflexivity.
Qed.

(** A set with an attribute called [points] cannot be written to a .pts
    file, where that name is taken by the variable of the points ("There
    can't be an attribute called points", says [_write_pts_file]). *)
Lemma export_points_attribute_fails :
  export_points_file sample_str_int sample_str_float sample_points_attribute
                     "points.pts" true ∅ = Raise IOError.
Proof. vm_compute. reflexivity. Qed.

(** C6, amended: a well-formed point set that is [pts_exportable], written
    to a .pts file, or that is [xya_exportable], written to a .xya file,
    with either value of [absolute], is read back by the constructor as a set
    with the same absolute points and the same values for every attribute. *)
Theorem export_then_import {arith : Arithmetic} {platform : Platform}
    (int_literal : string -> option Z)
    (float_literal : string -> option Q) (str_int : Z -> string)
    (str_float : Q -> string) (is_IOError : exn -> bool)
    (S : Geospatial_data) (rows : list (list Q)) (file_name : string)
    (absolute : bool) (fs : gmap string file) :
  well_formed S rows ->
  (extension file_name = ".pts" /\ pts_exportable S absolute)
  \/ (extension file_name = ".xya"
      /\ xya_exportable int_literal float_literal str_int str_float
                        S rows absolute) ->
  exists (fs' : gmap string file) (S' : Geospatial_data),
    export_points_file str_int str_float S file_name absolute fs = Ok fs'
    /\ Geospatial_data_from_file int_literal float_literal is_IOError
         fs' file_name None None = Ok S'
    /\ get_data_points S' true NoGeo = get_data_points S true NoGeo
    /\ forall k, attributes S' ≫= (fun d => d !! k)
                 = attributes S ≫= (fun d => d !! k).
Proof.
  intros (Hrows & Hpairs & Hcols) Hformat.
  destruct (written_rows_pairs S rows absolute Hpairs) as [Hwpairs Hwlen].
  pose proof (get_data_points_written S rows absolute Hrows) as Hpoints.
  pose proof (reimported_same S rows absolute Hrows) as Hsame.
  destruct Hformat as [[Hext Hpts]|[Hext (Hne & Hnames & Hprint & Hvalues & Hgeo)]].
  - destruct (read_written_pts (attributes S) (written_rows S rows absolute)
                (if absolute then None else Some (geo_reference S)))
      as (dataset & Hwrite & Hread).
    { apply Hpts. }
    { intros d k col Hd Hk. rewrite Hwlen. apply (Hcols d k col Hd Hk). }
    { intros g Hg. destruct absolute; [discriminate|].
      injection Hg as <-. apply Hpts. reflexivity. }
    exists (<[file_name := NetCDFFile dataset]> fs). eexists.
    split.
    { unfold export_points_file. rewrite Hext.
      replace (".pts" =? ".xya")%string with false by reflexivity.
      replace (".pts" =? ".pts")%string with true by reflexivity.
      rewrite Hpoints. unfold get_all_attributes, get_geo_reference.
      destruct absolute; rewrite bind_Ok, Hwrite; reflexivity. }
    split; [|exact Hsame].
    apply Geospatial_data_from_file_imported.
    eapply import_points_file_pts;
      [exact Hext|apply lookup_insert_eq|exact Hread].
  - destruct (read_written_xya int_literal float_literal str_int str_float
                (attributes S) (written_rows S rows absolute)
                (if absolute then None else Some (geo_reference S)))
      as (text & Hwrite & Hread).
    { intros Hnil. apply Hne. destruct rows; [reflexivity|].
      rewrite Hnil in Hwlen. discriminate. }
    { exact Hnames. }
    { apply rows_printable_intro.
      - apply Forall_forall. intros row Hrow. split.
        + apply (proj1 (Forall_forall _ _) Hwpairs row Hrow).
        + apply (proj1 (Forall_forall _ _) Hprint row Hrow).
      - intros d k col Hd Hk. split; [|apply (Hvalues d k col Hd Hk)].
        rewrite Hwlen, (Hcols d k col Hd Hk). cbn. lia. }
    { intros d k col Hd Hk. rewrite Hwlen. apply (Hcols d k col Hd Hk). }
    { intros g Hg. destruct absolute; [discriminate|].
      injection Hg as <-. apply Hgeo. reflexivity. }
    exists (<[file_name := TextFile text]> fs). eexists.
    split.
    { unfold export_points_file. rewrite Hext.
      replace (".xya" =? ".xya")%string with true by reflexivity.
      unfold get_all_attributes, get_geo_reference.
      destruct absolute; rewrite Hpoints, bind_Ok, Hwrite; reflexivity. }
    split; [|exact Hsame].
    apply Geospatial_data_from_file_imported.
    eapply import_points_file_xya;
      [exact Hext|apply lookup_insert_eq|exact Hread].
Qed.

Lemma export_then_import_witness :
  exists (fs' : gmap string file) (S' : Geospatial_data),
    export_points_file sample_str_int sample_str_float sample_spec
                       "points.xya" true ∅ = Ok fs'
    /\ Geospatial_data_from_file decimal_int decimal_float sample_is_IOError
         fs' "points.xya" None None = Ok S'
    /\ get_data_points S' true NoGeo = get_data_points sample_spec true NoGeo
    /\ forall k, attributes S' ≫= (fun d => d !! k)
                 = attributes sample_spec ≫= (fun d => d !! k).
Proof.
  apply (export_then_import decimal_int decimal_float sample_str_int
           sample_str_float sample_is_IOError sample_spec
           [[6 # 10; 7 # 10]; [19 # 10; 28 # 10]] "points.xya" true ∅).
  - split; [reflexivity|]. split; [repeat constructor|].
    intros d k values [= <-] Hk. unfold elevation_only in Hk.
    apply lookup_singleton_Some in Hk as [_ <-]. reflexivity.
  - right. split; [reflexivity|].
    split; [discriminate|].
    split; [vm_compute; repeat constructor|].
    split; [repeat constructor|].
    split; [|discriminate].
    intros d k col [= <-] Hk. unfold elevation_only in Hk.
    apply lookup_singleton_Some in Hk as [_ <-]. repeat constructor.
Defined.

(** * The rest of the modules *)

(** ** Shapes accepted by the two coordinate transforms *)

(** X1.  [get_absolute] has no use for a single point: for a vector of two
    elements the shape test passes, but the reshape to 1 x 2 is commented
    out, and formatting the message ['%d x %d' % points.shape] with a shape
    of one number raises TypeError.  [change_points_geo_ref] reshapes the
    same input and returns the 1 x 2 matrix of the rebased point. *)
Theorem single_point_get_absolute_vs_change {arith : Arithmetic} (self : Geo_reference)
    (is_list : bool) (x y : Q) (g : Geo_reference) :
  get_absolute self (as_input is_list (Arr1 [x; y])) = Raise TypeError
  /\ change_points_geo_ref self (as_input is_list (Arr1 [x; y])) NoGeo
     = Ok (as_input is_list
             (Arr2 2 [[fsub x (xllcorner self); fsub y (yllcorner self)]]))
  /\ change_points_geo_ref self (as_input is_list (Arr1 [x; y])) (OtherGeo g)
     = Ok (as_input is_list
             (Arr2 2 [[fsub (fadd x (xllcorner g)) (xllcorner self);
                       fsub (fadd y (yllcorner g)) (yllcorner self)]]))
  /\ change_points_geo_ref self (as_input is_list (Arr1 [x; y])) SameGeo
     = Ok (as_input is_list (Arr2 2 [[x; y]])).
Proof.
  destruct is_list; repeat split; reflexivity.
Qed.

(** X2.  [get_absolute] returns exactly on arrays of shape N x 2, and the
    result is then of the kind handed in (list or array) with the shape of
    the input.  [change_points_geo_ref] returns on every such array too, and
    otherwise only on a vector of two elements. *)
Theorem transforms_return_on_Nx2 {arith : Arithmetic} (self : Geo_reference) (points : pyseq)
    (points_geo_ref : geo_param) :
  ((exists r, get_absolute self points = Ok r)
   <-> exists n, shape (ensure_numeric points) = [n; 2%nat])
  /\ (forall r, get_absolute self points = Ok r ->
        is_ListType r = is_ListType points
        /\ shape (ensure_numeric r) = shape (ensure_numeric points))
  /\ ((exists n, shape (ensure_numeric points) = [n; 2%nat]) ->
      exists r, change_points_geo_ref self points points_geo_ref = Ok r)
  /\ ((exists r, change_points_geo_ref self points points_geo_ref = Ok r) ->
      (exists n, shape (ensure_numeric points) = [n; 2%nat])
      \/ shape (ensure_numeric points) = [2%nat]).
Proof.
  set (is_list := is_ListType points).
  set (a := ensure_numeric points).
  assert (Hget : get_absolute self points
                 = match shape a with
                   | [n; m] =>
                       if (m =? 2)%nat
                       then Ok (as_input is_list
                                  (if is_absolute self then a
                                   else col_add 1 (yllcorner self)
                                          (col_add 0 (xllcorner self) a)))
                       else Raise ShapeError
                   | [n] => if (n =? 2)%nat then Raise TypeError
                            else Raise ShapeError
                   | _ => Raise TypeError
                   end).
  { unfold get_absolute, format_shape, len. fold is_list a.
    destruct (shape a) as [|n [|m [|k dims]]]; cbn -[is_absolute];
      try reflexivity.
    - destruct (n =? 2)%nat; reflexivity.
    - destruct (m =? 2)%nat; cbn -[is_absolute]; [|reflexivity].
      destruct (is_absolute self); reflexivity. }
  assert (Hchange : (exists r, change_points_geo_ref self points points_geo_ref = Ok r)
                    <-> match shape a with
                        | [n; m] => m = 2%nat
                        | [n] => n = 2%nat /\ exists xs, a = Arr1 xs
                        | _ => False
                        end).
  { unfold change_points_geo_ref, format_shape, len. fold is_list a.
    destruct a as [x|xs|ncols rows|dims flat]; cbn.
    - split; [intros [r Hr]; discriminate|intros []].
    - destruct (length xs =? 2)%nat eqn:E; cbn.
      + apply Nat.eqb_eq in E. split; eauto.
      + apply Nat.eqb_neq in E. split; [intros [r Hr]; discriminate|].
        intros [H _]. contradiction.
    - destruct (ncols =? 2)%nat eqn:E; cbn.
      + apply Nat.eqb_eq in E. split; eauto.
      + apply Nat.eqb_neq in E. split; [intros [r Hr]; discriminate|].
        intros H. contradiction.
    - destruct dims as [|n [|m [|k dims]]]; cbn.
      + split; [intros [r Hr]; discriminate|intros []].
      + split; [|intros [_ [xs Hxs]]; discriminate].
        intros [r Hr]. destruct (n =? 2)%nat; discriminate.
      + destruct (m =? 2)%nat eqn:E; cbn.
        * apply Nat.eqb_eq in E. split; eauto.
        * apply Nat.eqb_neq in E. split; [intros [r Hr]; discriminate|].
          intros H. contradiction.
      + split; [intros [r Hr]; discriminate|intros []]. }
  clearbody a is_list.
  destruct (shape a) as [|n [|m [|k dims]]] eqn:E; rewrite Hget.
  all: split; [split; [intros [r Hr]|intros [n' Hn]]
              |split; [intros r Hr|split; [intros [n' Hn]|intros Hr]]].
  all: try discriminate.
  all: try (apply Hchange in Hr; contradiction).
  - destruct (n =? 2)%nat; discriminate.
  - destruct (n =? 2)%nat; discriminate.
  - apply Hchange in Hr. destruct Hr as [-> _]. right. reflexivity.
  - destruct (m =? 2)%nat eqn:Em; [|discriminate].
    apply Nat.eqb_eq in Em. subst m. eauto.
  - injection Hn as -> ->. cbn. eauto.
  - destruct (m =? 2)%nat eqn:Em; [|discriminate].
    injection Hr as <-.
    destruct (ensure_numeric_as_input is_list
                (if is_absolute self then a
                 else col_add 1 (yllcorner self)
                        (col_add 0 (xllcorner self) a))) as [-> ->].
    split; [reflexivity|].
    destruct (is_absolute self); [exact E|].
    destruct a; try exact E. cbn in E |- *.
    rewrite !length_map. exact E.
  - apply Hchange. congruence.
  - apply Hchange in Hr. subst m. left. eauto.
Qed.

(** ** Moving points between frames *)

Lemma Forall2_rows_maps_equal (F G : list Q -> list Q)
    (rows : list (list Q)) :
  (forall row, Forall2 Qeq (F row) (G row)) ->
  rows_equal (map F rows) (map G rows).
Proof.
  intros H. unfold rows_equal.
  induction rows as [|row rows IH]; cbn [map]; constructor; auto.
Qed.

Section RebaseRounding.

Context {arith : Arithmetic}.
Variables u M : Q.
Hypothesis Hu0 : 0 <= u.
Hypothesis Hu1 : u <= 1.
Hypothesis HM : 0 <= M.

(** A coordinate moved from the frame with origin [o1] to the one with
    origin [o2]: after the two operations, and after moving it on to a
    third frame or back. *)
Lemma rebased_coordinate (bound p o1 o2 : Q) :
  accurate arith u bound -> 5 * M <= bound ->
  Qabs p <= M -> Qabs o1 <= M -> Qabs o2 <= M ->
  Qabs (fsub (fadd p o1) o2 - (p + o1 - o2)) <= 7 * (u * M).
Proof.
  intros Haccurate Hbound Hp H1 H2.
  assert (HuM : 0 <= u * M) by (apply Qmult_le_0_compat; assumption).
  assert (Hpp : Qabs (p - p) <= 0 * (u * M)).
  { assert (E : p - p == 0) by ring. rewrite E. change (Qabs 0) with 0. lra. }
  pose proof (Qabs_le_sum (p + o1) p o1 ltac:(ring)) as Hsum1.
  assert (Hadd : Qabs (fadd p o1 - (p + o1)) <= (2 * 0 + 2) * (u * M))
    by (apply (fadd_step u M bound Hu0 Hu1 HM Haccurate p p o1 0 2); lra).
  assert (Hadd' : Qabs (fadd p o1 - (p + o1)) <= 2 * (u * M)) by lra.
  pose proof (Qabs_le_sum (p + o1 - o2) (p + o1) (- o2) ltac:(ring)) as Hsum2.
  rewrite Qabs_opp in Hsum2.
  assert (Hsub : Qabs (fsub (fadd p o1) o2 - (p + o1 - o2))
                 <= (2 * 2 + 3) * (u * M))
    by (apply (fsub_step u M bound Hu0 Hu1 HM Haccurate (fadd p o1) (p + o1)
                 o2 2 3); lra).
  lra.
Qed.

Lemma rebased_twice_coordinate (bound p o1 o2 o3 : Q) :
  accurate arith u bound -> 19 * M <= bound ->
  Qabs p <= M -> Qabs o1 <= M -> Qabs o2 <= M -> Qabs o3 <= M ->
  Qabs (fsub (fadd (fsub (fadd p o1) o2) o2) o3 - (p + o1 - o3))
  <= 35 * (u * M).
Proof.
  intros Haccurate Hbound Hp H1 H2 H3.
  assert (HuM : 0 <= u * M) by (apply Qmult_le_0_compat; assumption).
  pose proof (rebased_coordinate bound p o1 o2 Haccurate ltac:(lra) Hp H1 H2)
    as Hthere.
  pose proof (Qabs_le_sum (p + o1) p o1 ltac:(ring)) as Hsum1.
  assert (E : p + o1 - o2 + o2 == p + o1) by ring.
  assert (Hadd : Qabs (fadd (fsub (fadd p o1) o2) o2 - (p + o1 - o2 + o2))
                 <= (2 * 7 + 2) * (u * M)).
  { apply (fadd_step u M bound Hu0 Hu1 HM Haccurate
             (fsub (fadd p o1) o2) (p + o1 - o2) o2 7 2); try lra.
    rewrite E. lra. }
  assert (Hadd' : Qabs (fadd (fsub (fadd p o1) o2) o2 - (p + o1 - o2 + o2))
                  <= 16 * (u * M)) by lra.
  assert (E' : p + o1 - o2 + o2 - o3 == p + o1 - o3) by ring.
  pose proof (Qabs_le_sum (p + o1 - o3) (p + o1) (- o3) ltac:(ring)) as Hsum3.
  rewrite Qabs_opp in Hsum3.
  assert (Hsub : Qabs (fsub (fadd (fsub (fadd p o1) o2) o2) o3
                       - (p + o1 - o2 + o2 - o3))
                 <= (2 * 16 + 3) * (u * M)).
  { apply (fsub_step u M bound Hu0 Hu1 HM Haccurate
             (fadd (fsub (fadd p o1) o2) o2) (p + o1 - o2 + o2) o3 16 3);
      try lra.
    rewrite E'. lra. }
  rewrite E' in Hsub. lra.
Qed.

End RebaseRounding.

(** X3.  Moving N x 2 points from the frame of [g1] into the frame of [g2]
    and back again gives the points handed in up to the rounding of the four
    operations: where the coordinates of the points and of the two origins
    are of magnitude at most [M] and the arithmetic rounds sums and
    differences up to [19 * M] with relative error at most [u], each
    coordinate comes back within [35 * u * M]. *)
Theorem rebase_there_and_back {arith : Arithmetic} (u M : Q)
    (g1 g2 : Geo_reference) (is_list : bool) (rows : list (list Q)) :
  0 <= u -> u <= 1 -> accurate arith u (19 * M) ->
  origin_below M g1 -> origin_below M g2 -> rows_below M rows ->
  exists there back : list (list Q),
    change_points_geo_ref g2 (as_input is_list (Arr2 2 rows)) (OtherGeo g1)
    = Ok (as_input is_list (Arr2 2 there))
    /\ change_points_geo_ref g1 (as_input is_list (Arr2 2 there)) (OtherGeo g2)
       = Ok (as_input is_list (Arr2 2 back))
    /\ rows_close (35 * (u * M)) back rows.
Proof.
  intros Hu0 Hu1 Haccurate Hg1 Hg2 Hrows.
  pose proof (origin_below_nonneg M g1 Hg1) as HM.
  destruct Hg1 as [Hx1 Hy1]. destruct Hg2 as [Hx2 Hy2].
  eexists _, _. rewrite !change_points_geo_ref_Nx2.
  split; [reflexivity|]. split; [reflexivity|].
  unfold untranslate, translate. rewrite !map_row_map_map.
  rewrite <- (map_row_map_id rows) at 2.
  assert (HuM : 0 <= u * M) by (apply Qmult_le_0_compat; assumption).
  apply (rows_close_maps _ M); [lra| | |exact Hrows].
  - intros x Hx.
    pose proof (rebased_twice_coordinate u M Hu0 Hu1 HM (19 * M) x
                  (xllcorner g1) (xllcorner g2) (xllcorner g1) Haccurate
                  ltac:(lra) Hx Hx1 Hx2 Hx1) as H.
    assert (E : x + xllcorner g1 - xllcorner g1 == x) by ring.
    rewrite E in H. exact H.
  - intros y Hy.
    pose proof (rebased_twice_coordinate u M Hu0 Hu1 HM (19 * M) y
                  (yllcorner g1) (yllcorner g2) (yllcorner g1) Haccurate
                  ltac:(lra) Hy Hy1 Hy2 Hy1) as H.
    assert (E : y + yllcorner g1 - yllcorner g1 == y) by ring.
    rewrite E in H. exact H.
Qed.

Lemma rebase_there_and_back_witness :
  exists there back : list (list Q),
    @change_points_geo_ref double_arithmetic sample_geo_B
      (PyList (Arr2 2 [[1; 2]; [3; 4]])) (OtherGeo sample_geo_A)
    = Ok (PyList (Arr2 2 there))
    /\ @change_points_geo_ref double_arithmetic sample_geo_A
         (PyList (Arr2 2 there)) (OtherGeo sample_geo_B)
       = Ok (PyList (Arr2 2 back))
    /\ rows_close (35 * (double_u * 300)) back [[1; 2]; [3; 4]].
Proof.
  apply (@rebase_there_and_back double_arithmetic double_u 300 sample_geo_A
           sample_geo_B true [[1; 2]; [3; 4]]).
  - unfold double_u. lra.
  - unfold double_u. lra.
  - apply double_arithmetic_accurate.
  - split; apply Qabs_le_iff; cbn; lra.
  - split; apply Qabs_le_iff; cbn; lra.
  - repeat (constructor; try (apply Qabs_le_iff; lra)).
Defined.

(** In doubles the points need not come back as they were: between the
    origins [(0, 0)] and [(-1e16, 0)] the point [(1, 2)] comes back as
    [(0, 2)]. *)
Example rebase_there_and_back_rounds :
  @change_points_geo_ref double_arithmetic
    (Geo_reference_init 56 (-10000000000000000) 0) (PyList (Arr2 2 [[1; 2]]))
    (OtherGeo (Geo_reference_init 56 0 0))
  = Ok (PyList (Arr2 2 [[10000000000000000; 2]]))
  /\ @change_points_geo_ref double_arithmetic (Geo_reference_init 56 0 0)
       (PyList (Arr2 2 [[10000000000000000; 2]]))
       (OtherGeo (Geo_reference_init 56 (-10000000000000000) 0))
     = Ok (PyList (Arr2 2 [[0; 2]])).
Proof. split; vm_compute; reflexivity. Qed.

(** X4.  Rebasing composes up to rounding: moving points from the frame of
    [g1] to that of [g2] and on to that of [g3] gives what moving them from
    [g1] to [g3] directly gives, each coordinate within [42 * u * M], where
    the coordinates of the points and of the three origins are of magnitude
    at most [M] and the arithmetic rounds sums and differences up to
    [19 * M] with relative error at most [u]. *)
Theorem rebase_composes {arith : Arithmetic} (u M : Q)
    (g1 g2 g3 : Geo_reference) (is_list : bool) (rows : list (list Q)) :
  0 <= u -> u <= 1 -> accurate arith u (19 * M) ->
  origin_below M g1 -> origin_below M g2 -> origin_below M g3 ->
  rows_below M rows ->
  exists via direct two_steps : list (list Q),
    change_points_geo_ref g2 (as_input is_list (Arr2 2 rows)) (OtherGeo g1)
    = Ok (as_input is_list (Arr2 2 via))
    /\ change_points_geo_ref g3 (as_input is_list (Arr2 2 via)) (OtherGeo g2)
       = Ok (as_input is_list (Arr2 2 two_steps))
    /\ change_points_geo_ref g3 (as_input is_list (Arr2 2 rows)) (OtherGeo g1)
       = Ok (as_input is_list (Arr2 2 direct))
    /\ rows_close (42 * (u * M)) two_steps direct.
Proof.
  intros Hu0 Hu1 Haccurate Hg1 Hg2 Hg3 Hrows.
  pose proof (origin_below_nonneg M g1 Hg1) as HM.
  destruct Hg1 as [Hx1 Hy1]. destruct Hg2 as [Hx2 Hy2].
  destruct Hg3 as [Hx3 Hy3].
  eexists _, _, _. rewrite !change_points_geo_ref_Nx2.
  split; [reflexivity|]. split; [reflexivity|]. split; [reflexivity|].
  unfold untranslate, translate. rewrite !map_row_map_map.
  assert (HuM : 0 <= u * M) by (apply Qmult_le_0_compat; assumption).
  apply (rows_close_maps _ M); [lra| | |exact Hrows].
  - intros x Hx.
    pose proof (rebased_twice_coordinate u M Hu0 Hu1 HM (19 * M) x
                  (xllcorner g1) (xllcorner g2) (xllcorner g3) Haccurate
                  ltac:(lra) Hx Hx1 Hx2 Hx3) as Htwo.
    pose proof (rebased_coordinate u M Hu0 Hu1 HM (19 * M) x
                  (xllcorner g1) (xllcorner g3) Haccurate
                  ltac:(lra) Hx Hx1 Hx3) as Hdirect.
    pose proof (Qabs_close_via _ _ _ _ _ Htwo Hdirect). lra.
  - intros y Hy.
    pose proof (rebased_twice_coordinate u M Hu0 Hu1 HM (19 * M) y
                  (yllcorner g1) (yllcorner g2) (yllcorner g3) Haccurate
                  ltac:(lra) Hy Hy1 Hy2 Hy3) as Htwo.
    pose proof (rebased_coordinate u M Hu0 Hu1 HM (19 * M) y
                  (yllcorner g1) (yllcorner g3) Haccurate
                  ltac:(lra) Hy Hy1 Hy3) as Hdirect.
    pose proof (Qabs_close_via _ _ _ _ _ Htwo Hdirect). lra.
Qed.

Lemma rebase_composes_witness :
  exists via direct two_steps : list (list Q),
    @change_points_geo_ref double_arithmetic sample_geo_B
      (PyList (Arr2 2 [[1; 2]; [3; 4]])) (OtherGeo sample_geo_A)
    = Ok (PyList (Arr2 2 via))
    /\ @change_points_geo_ref double_arithmetic sample_geo_far
         (PyList (Arr2 2 via)) (OtherGeo sample_geo_B)
       = Ok (PyList (Arr2 2 two_steps))
    /\ @change_points_geo_ref double_arithmetic sample_geo_far
         (PyList (Arr2 2 [[1; 2]; [3; 4]])) (OtherGeo sample_geo_A)
       = Ok (PyList (Arr2 2 direct))
    /\ rows_close (42 * (double_u * 10000000000000000)) two_steps direct.
Proof.
  apply (@rebase_composes double_arithmetic double_u 10000000000000000
           sample_geo_A sample_geo_B sample_geo_far true [[1; 2]; [3; 4]]).
  - unfold double_u. lra.
  - unfold double_u. lra.
  - apply double_arithmetic_accurate.
  - split; apply Qabs_le_iff; cbn; lra.
  - split; apply Qabs_le_iff; cbn; lra.
  - split; apply Qabs_le_iff; cbn; lra.
  - repeat (constructor; try (apply Qabs_le_iff; lra)).
Defined.

(** ** Zones *)

(** X5.  [reconcile_zones] returns exactly when the zones are equal or one
    of them is unset, and raises ANUGAError otherwise; when it raises,
    neither reference has been changed. *)
Theorem reconcile_zones_returns_iff (self other : Geo_reference) :
  (snd (reconcile_zones self other) = Ok tt <-> reconcilable self other)
  /\ (~ reconcilable self other ->
      reconcile_zones self other = ((self, other), Raise ANUGAError)).
Proof.
  unfold reconcile_zones, reconcilable.
  destruct (zone self =? zone other)%Z eqn:E1;
    destruct (zone self =? DEFAULT_ZONE)%Z eqn:E2;
    destruct (zone other =? DEFAULT_ZONE)%Z eqn:E3; cbn.
  all: apply Z.eqb_eq in E1 || apply Z.eqb_neq in E1.
  all: apply Z.eqb_eq in E2 || apply Z.eqb_neq in E2.
  all: apply Z.eqb_eq in E3 || apply Z.eqb_neq in E3.
  all: split; [split; intros H|intros H].
  all: try reflexivity; try discriminate; intuition congruence.
Qed.

(** X6.  A successful [reconcile_zones] leaves nothing to reconcile: a second
    call on the two references changes neither.  Only a reference whose zone
    was unset can have been changed by the first call. *)
Theorem reconcile_zones_twice (self other self' other' : Geo_reference) :
  reconcile_zones self other = ((self', other'), Ok tt) ->
  reconcile_zones self' other' = ((self', other'), Ok tt)
  /\ (zone self <> DEFAULT_ZONE -> self' = self)
  /\ (zone other <> DEFAULT_ZONE -> other' = other).
Proof.
  unfold reconcile_zones.
  destruct (zone self =? zone other)%Z eqn:E1;
    destruct (zone self =? DEFAULT_ZONE)%Z eqn:E2;
    destruct (zone other =? DEFAULT_ZONE)%Z eqn:E3; cbn.
  all: intros H; inversion H; subst; clear H.
  all: cbn; rewrite ?E1, ?E2, ?E3, ?Z.eqb_refl; cbn.
  all: apply Z.eqb_eq in E1 || apply Z.eqb_neq in E1.
  all: apply Z.eqb_eq in E2 || apply Z.eqb_neq in E2.
  all: apply Z.eqb_eq in E3 || apply Z.eqb_neq in E3.
  all: repeat split; try reflexivity; try (intros; contradiction).
Qed.

Lemma reconcile_zones_twice_witness :
  reconcile_zones (set_zone sample_geo_B 56) sample_geo_A
  = ((set_zone sample_geo_B 56, sample_geo_A), Ok tt).
Proof.
  apply (reconcile_zones_twice sample_geo_B sample_geo_A). reflexivity.
Defined.

(** ** The text encoding of a geo reference *)

(** X7.  What [write_ASCII] writes, [read_ASCII] reads back from the start
    of the file: zone and origin are those written, provided [str] of each
    survives [int] or [float] and the zone is an int, not a long (both are
    part of [geo_printable]).  The other fields are not in the text: they
    stay as the reading object has them. *)
Theorem write_ASCII_then_read_ASCII {platform : Platform} (int_literal : string -> option Z)
    (float_literal : string -> option Q) (str_int : Z -> string)
    (str_float : Q -> string) (self g : Geo_reference) :
  geo_printable int_literal float_literal str_int str_float g ->
  read_ASCII int_literal float_literal self
             (readlines (write_ASCII str_int str_float g)) None
  = Ok (mkGeo (zone g) (xllcorner g) (yllcorner g) (datum self)
              (projection self) (units self) (false_easting self)
              (false_northing self)).
Proof.
  intros Hg.
  rewrite (readlines_write_ASCII int_literal float_literal) by exact Hg.
  destruct Hg as ([_ Hz] & Hint & Hx & Hy).
  unfold read_ASCII. cbn [readline].
  replace (upper (substring 0 2 TITLE) =? upper (substring 0 2 TITLE))%string
    with true by reflexivity.
  cbn [negb]. rewrite Hz, bind_Ok.
  rewrite !(py_float_text_line float_literal str_float), !bind_Ok by assumption.
  cbn [try_except mbind result_bind zone xllcorner yllcorner is_FloatType
       py_assert].
  rewrite Hint. reflexivity.
Qed.

Lemma write_ASCII_then_read_ASCII_witness :
  read_ASCII decimal_int decimal_float Geo_reference_default
             (readlines (write_ASCII sample_str_int sample_str_float
                                     sample_geo_tenths)) None
  = Ok sample_geo_tenths.
Proof.
  apply (write_ASCII_then_read_ASCII decimal_int decimal_float sample_str_int
           sample_str_float Geo_reference_default sample_geo_tenths).
  repeat split; vm_compute; reflexivity.
Defined.

(** ** Changing the geo reference of a set *)

Lemma set_geo_reference_Nx2 {arith : Arithmetic} (S : Geospatial_data) (g : Geo_reference)
    (rows : list (list Q)) :
  data_points S = Arr2 2 rows ->
  set_geo_reference S (OtherGeo g)
  = Ok (mkGeospatial
          (Arr2 2 (rebased (geo_reference S) (xllcorner g) (yllcorner g) rows))
          (attributes S) g (default_attribute_name S)).
Proof.
  intros Hrows. unfold set_geo_reference, get_data_points. rewrite Hrows.
  rewrite (change_points_geo_ref_Nx2 g false). reflexivity.
Qed.

(** X8.  [set_geo_reference] with another reference moves the stored points
    into the new frame: the set then has the new reference and its
    attributes as before, and the absolute points [get_data_points] returns
    before and after agree up to tolerance and rounding: where the
    coordinates of the points and of the two origins are of magnitude at
    most [M] and the arithmetic rounds sums and differences up to [9 * M]
    with relative error at most [u], each coordinate is within
    [2 * atol + 18 * u * M]. *)
Theorem set_geo_reference_keeps_absolute {arith : Arithmetic} (u M : Q)
    (S : Geospatial_data) (g : Geo_reference) (rows : list (list Q)) :
  0 <= u -> u <= 1 -> accurate arith u (9 * M) ->
  data_points S = Arr2 2 rows -> rows_below M rows ->
  origin_below M (geo_reference S) -> origin_below M g ->
  exists (S' : Geospatial_data) (rows' before after : list (list Q)),
    set_geo_reference S (OtherGeo g) = Ok S'
    /\ geo_reference S' = g
    /\ attributes S' = attributes S
    /\ data_points S' = Arr2 2 rows'
    /\ get_data_points S true NoGeo = Ok (Arr2 2 before)
    /\ get_data_points S' true NoGeo = Ok (Arr2 2 after)
    /\ rows_close (2 * atol + 18 * (u * M)) after before.
Proof.
  intros Hu0 Hu1 Haccurate Hrows Hbelow Hold Hnew. eexists _, _, _, _.
  rewrite (set_geo_reference_Nx2 S g rows Hrows).
  split; [reflexivity|]. split; [reflexivity|]. split; [reflexivity|].
  split; [reflexivity|]. split; [|split].
  - apply get_data_points_absolute, Hrows.
  - apply get_data_points_absolute. reflexivity.
  - cbn [geo_reference]. apply rebased_absolute_rows; assumption.
Qed.

Lemma set_geo_reference_keeps_absolute_witness :
  exists (S' : Geospatial_data) (rows' before after : list (list Q)),
    @set_geo_reference double_arithmetic sample_A (OtherGeo sample_geo_B)
    = Ok S'
    /\ geo_reference S' = sample_geo_B
    /\ attributes S' = attributes sample_A
    /\ data_points S' = Arr2 2 rows'
    /\ @get_data_points double_arithmetic sample_A true NoGeo
       = Ok (Arr2 2 before)
    /\ @get_data_points double_arithmetic S' true NoGeo = Ok (Arr2 2 after)
    /\ rows_close (2 * atol + 18 * (double_u * 300)) after before.
Proof.
  apply (@set_geo_reference_keeps_absolute double_arithmetic double_u 300
           sample_A sample_geo_B [[1; 2]; [3; 4]]).
  - unfold double_u. lra.
  - unfold double_u. lra.
  - apply double_arithmetic_accurate.
  - reflexivity.
  - repeat (constructor; try (apply Qabs_le_iff; lra)).
  - split; apply Qabs_le_iff; cbn; lra.
  - split; apply Qabs_le_iff; cbn; lra.
Defined.

(** X9.  [set_geo_reference] with the reference the set already has changes
    nothing.  With [None] the set gets the default reference, and the stored
    points become the old stored points plus the old origin, exactly, also
    for an origin so close to zero that [get_absolute] would not add it:
    the origin [0.0] of the default reference is subtracted from the sums,
    which changes nothing in exact arithmetic nor in that of doubles. *)
Theorem set_geo_reference_same_and_None {arith : Arithmetic}
    (S : Geospatial_data) (rows : list (list Q)) :
  data_points S = Arr2 2 rows ->
  set_geo_reference S SameGeo = Ok S
  /\ ((forall x y, fsub (fadd x y) 0 == fadd x y) ->
      exists rows' : list (list Q),
        set_geo_reference S NoGeo
        = Ok (mkGeospatial (Arr2 2 rows') (attributes S) Geo_reference_default
                           (default_attribute_name S))
        /\ rows_equal rows'
             (translate (xllcorner (geo_reference S))
                        (yllcorner (geo_reference S)) rows)).
Proof.
  intros Hrows. split.
  - unfold set_geo_reference, get_data_points. rewrite Hrows.
    rewrite (change_points_geo_ref_Nx2 (geo_reference S) false).
    destruct S; cbn in *. subst. reflexivity.
  - intros Hzero. eexists. split.
    + unfold set_geo_reference, get_data_points. rewrite Hrows.
      rewrite (change_points_geo_ref_Nx2 Geo_reference_default false).
      reflexivity.
    + cbn [xllcorner yllcorner Geo_reference_default Geo_reference_init].
      unfold untranslate, translate. rewrite map_row_map_map.
      apply Forall2_rows_maps_equal. intros row.
      apply Forall2_row_maps_below with (P := fun _ => True);
        [reflexivity|intros; apply Hzero..|].
      apply Forall_forall. intros; exact I.
Qed.

Lemma set_geo_reference_same_and_None_witness :
  @set_geo_reference double_arithmetic sample_A SameGeo = Ok sample_A
  /\ exists rows' : list (list Q),
       @set_geo_reference double_arithmetic sample_A NoGeo
       = Ok (mkGeospatial (Arr2 2 rows') (attributes sample_A)
                          Geo_reference_default None)
       /\ rows_equal rows'
            (@translate double_arithmetic 100 200 [[1; 2]; [3; 4]]).
Proof.
  destruct (@set_geo_reference_same_and_None double_arithmetic sample_A
              [[1; 2]; [3; 4]] eq_refl) as [Hsame Hnone].
  split; [exact Hsame|]. apply Hnone. apply double_arithmetic_sub_zero.
Defined.

(** ** Looking up an attribute *)

(** X10.  How [get_attributes] fails.  On a set without a dictionary every
    call raises AttributeError.  A name that is not a key, given in the call
    or as the default name, fails the assertion: the error is
    AssertionError, not KeyError.  Without a name and without a default name
    an empty dictionary raises IndexError. *)
Theorem get_attributes_errors (S : Geospatial_data)
    (attribute_name : option string) (name : string)
    (d : gmap string (list Q)) :
  (attributes S = None ->
   get_attributes S attribute_name = Raise AttributeError)
  /\ (attributes S = Some d -> d !! name = None ->
      get_attributes S (Some name) = Raise AssertionError
      /\ (default_attribute_name S = Some name ->
          get_attributes S None = Raise AssertionError))
  /\ (attributes S = Some ∅ -> default_attribute_name S = None ->
      get_attributes S None = Raise IndexError).
Proof.
  unfold get_attributes. split; [|split].
  - intros ->. destruct attribute_name as [n|]; [reflexivity|].
    destruct (default_attribute_name S); reflexivity.
  - intros -> Hname. split.
    + cbn. rewrite Hname. rewrite bool_decide_eq_false_2; [reflexivity|].
      intros [v Hv]. discriminate.
    + intros ->. cbn. rewrite Hname.
      rewrite bool_decide_eq_false_2; [reflexivity|].
      intros [v Hv]. discriminate.
  - intros -> ->. unfold keys. rewrite map_to_list_empty. reflexivity.
Qed.

Lemma get_attributes_key (S : Geospatial_data) (name : string)
    (d : gmap string (list Q)) (values : list Q) :
  attributes S = Some d -> d !! name = Some values ->
  get_attributes S (Some name) = Ok values.
Proof.
  intros Hd Hname. unfold get_attributes. cbn. rewrite Hd, Hname.
  rewrite bool_decide_eq_true_2 by eauto. reflexivity.
Qed.

(** X11.  What [get_attributes] returns.  A name that is a key gives its
    values, whatever the default name.  Without a name the default name is
    looked up.  Without either, on a dictionary that is not empty the call
    returns the values of one of its keys. *)
Theorem get_attributes_returns (S : Geospatial_data)
    (d : gmap string (list Q)) :
  attributes S = Some d ->
  (forall name values, d !! name = Some values ->
     get_attributes S (Some name) = Ok values)
  /\ (forall name, default_attribute_name S = Some name ->
       get_attributes S None = get_attributes S (Some name))
  /\ (default_attribute_name S = None -> d <> ∅ ->
      exists name values,
        d !! name = Some values /\ get_attributes S None = Ok values).
Proof.
  intros Hd. split; [|split].
  - intros name values. apply get_attributes_key, Hd.
  - intros name Hdefault. unfold get_attributes. rewrite Hdefault. reflexivity.
  - intros Hdefault Hne.
    destruct (map_to_list d) as [|[name values] rest] eqn:E.
    + apply map_to_list_empty_iff in E. contradiction.
    + assert (Hname : d !! name = Some values).
      { apply elem_of_map_to_list. rewrite E. left. }
      exists name, values. split; [exact Hname|].
      rewrite <- (get_attributes_key S name d values Hd Hname).
      unfold get_attributes, keys. rewrite Hdefault, Hd, E. reflexivity.
Qed.

Lemma get_attributes_returns_witness :
  get_attributes sample_A (Some "elevation") = Ok [10; 20].
Proof.
  apply (get_attributes_returns sample_A (elevation_only [10; 20]));
    reflexivity.
Defined.

(** X12.  A set constructed from a single sequence of values, not a
    dictionary, holds them under the name ['attribute'], and
    [get_attributes()] without a name returns them. *)
Theorem single_attribute_sequence (data_points : option pyseq)
    (values : list Q) (geo_reference : option Geo_reference)
    (G : Geospatial_data) :
  Geospatial_data_init data_points (AttrSeq values) geo_reference None = Ok G ->
  attributes G = Some {[ "attribute" := values ]}
  /\ get_attributes G None = Ok values
  /\ get_attributes G (Some "attribute") = Ok values.
Proof.
  unfold Geospatial_data_init.
  destruct (check_data_points data_points) as [points|e]; [|discriminate].
  cbn. intros H. injection H as <-. cbn.
  split; [reflexivity|].
  assert (Hkey : get_attributes
                   (mkGeospatial points (Some {[ "attribute" := values ]})
                      (default Geo_reference_default geo_reference) None)
                   (Some "attribute") = Ok values).
  { apply (get_attributes_key _ _ {[ "attribute" := values ]});
      [reflexivity|apply lookup_singleton_eq]. }
  split; [|exact Hkey].
  rewrite <- Hkey. unfold get_attributes, keys. cbn.
  rewrite map_to_list_singleton. reflexivity.
Qed.

Lemma single_attribute_sequence_witness :
  let G := mkGeospatial (Arr2 2 [[1; 2]]) (Some {[ "attribute" := [7] ]})
                        Geo_reference_default None in
  attributes G = Some {[ "attribute" := [7] ]}
  /\ get_attributes G None = Ok [7]
  /\ get_attributes G (Some "attribute") = Ok [7].
Proof.
  apply (single_attribute_sequence (Some (PyList (Arr2 2 [[1; 2]]))) [7] None).
  reflexivity.
Defined.

(** ** Points dictionaries *)

Lemma map_fold_insert_all (d : gmap string (list Q)) :
  map_fold (fun k v (acc : gmap string (list Q)) => <[k := v]> acc) ∅ d = d.
Proof.
  apply (map_fold_weak_ind (fun acc m => acc = m)); [reflexivity|].
  intros k v m acc _ ->. reflexivity.
Qed.

(** X13.  Turning a set with an attribute dictionary into a points
    dictionary and that back into a set gives the set again, with its
    points, attributes and geo reference; only the default attribute name is
    not carried over.  A set without a dictionary cannot be turned into a
    points dictionary: the call raises AttributeError. *)
Theorem points_dictionary_round_trip (G : Geospatial_data) :
  (forall (n : nat) (d : gmap string (list Q)),
     shape (data_points G) = [n; 2%nat] -> attributes G = Some d ->
     geospatial_data2points_dictionary G ≫= points_dictionary2geospatial_data
     = Ok (mkGeospatial (data_points G) (attributes G) (geo_reference G) None))
  /\ (attributes G = None ->
      geospatial_data2points_dictionary G = Raise AttributeError).
Proof.
  split.
  - intros n d Hshape Hd. unfold geospatial_data2points_dictionary.
    rewrite Hd, map_fold_insert_all. cbn.
    unfold Geospatial_data_init, check_data_points. cbn.
    rewrite Hshape. reflexivity.
  - intros Hd. unfold geospatial_data2points_dictionary. rewrite Hd.
    reflexivity.
Qed.

(** ** The constructor *)

Section ConstructorProperties.

Context {arith : Arithmetic} {platform : Platform}.

Variable int_literal : string -> option Z.
Variable float_literal : string -> option Q.
Variable is_IOError : exn -> bool.
Variable convert_from_latlon_to_utm : list Q -> list Q -> result (pyseq * Z).
Variable fs : gmap string file.

Ltac no_value :=
  match goal with
  | H : is_Some None |- _ => destruct (is_Some_None H)
  | H : _ \/ _ |- _ => destruct H
  | H : _ /\ _ |- _ => destruct H
  end.

(** X14.  The combinations of arguments the constructor refuses when no
    file is named, each with ValueError: a delimiter; no points at all; a
    geo reference together with latitudes, longitudes or
    [points_are_lats_longs]; points together with latitudes or longitudes
    that are not declared to be latitudes and longitudes;
    [points_are_lats_longs] without points; and latitudes without
    longitudes or longitudes without latitudes. *)
Theorem constructor_argument_errors (data_points : option pyseq)
    (attributes : attributes_arg) (geo_reference : option Geo_reference)
    (default_attribute_name : option string) (delimiter : option ascii)
    (latitudes longitudes : option (list Q)) (points_are_lats_longs : bool) :
  let construct :=
    Geospatial_data__init__ int_literal float_literal is_IOError
      convert_from_latlon_to_utm fs
      match data_points with Some p => DataSeq p | None => DataNone end
      attributes geo_reference default_attribute_name None delimiter
      latitudes longitudes points_are_lats_longs in
  (is_Some delimiter -> construct = Raise ValueError)
  /\ (data_points = None -> latitudes = None -> longitudes = None ->
      points_are_lats_longs = false -> construct = Raise ValueError)
  /\ (is_Some geo_reference ->
      is_Some latitudes \/ is_Some longitudes \/ points_are_lats_longs = true ->
      construct = Raise ValueError)
  /\ (is_Some data_points -> points_are_lats_longs = false ->
      is_Some latitudes \/ is_Some longitudes ->
      construct = Raise ValueError)
  /\ (data_points = None -> points_are_lats_longs = true ->
      construct = Raise ValueError)
  /\ (points_are_lats_longs = false ->
      (is_Some latitudes /\ longitudes = None)
      \/ (latitudes = None /\ is_Some longitudes) ->
      construct = Raise ValueError).
Proof.
  unfold Geospatial_data__init__, _set_using_lat_long.
  destruct data_points as [p|], geo_reference as [g|], delimiter as [c|],
    latitudes as [lat|], longitudes as [long|], points_are_lats_longs.
  all: cbn; repeat split; intros; repeat no_value.
  all: try reflexivity; try discriminate.
Qed.

(** X15.  Points given as latitudes and longitudes are stored as the
    projection returns them, with a geo reference that has the zone of the
    projection and the origin (0, 0): the stored points are the absolute
    ones.  With [points_are_lats_longs] the two columns of the points are
    the latitudes and longitudes, and latitudes and longitudes given
    besides are not looked at. *)
Theorem constructor_from_latitudes_longitudes (attributes : attributes_arg)
    (default_attribute_name : option string) (latitudes longitudes : list Q)
    (points : pyseq) (zone : Z) (rows : list (list Q)) :
  convert_from_latlon_to_utm latitudes longitudes = Ok (points, zone) ->
  ensure_numeric points = Arr2 2 rows ->
  let G := mkGeospatial (Arr2 2 rows) (set_attributes attributes)
                        (Geo_reference_init zone 0 0)
                        default_attribute_name in
  Geospatial_data__init__ int_literal float_literal is_IOError
    convert_from_latlon_to_utm fs DataNone attributes None
    default_attribute_name None None (Some latitudes) (Some longitudes) false
  = Ok G
  /\ get_data_points G true NoGeo = Ok (Arr2 2 rows)
  /\ forall (lats_longs : pyseq) (other_latitudes other_longitudes : option (list Q)),
       split_columns (ensure_numeric lats_longs) = Ok (latitudes, longitudes) ->
       Geospatial_data__init__ int_literal float_literal is_IOError
         convert_from_latlon_to_utm fs (DataSeq lats_longs) attributes None
         default_attribute_name None None other_latitudes other_longitudes true
       = Ok G.
Proof.
  intros Hconvert Hpoints G.
  assert (Hinit : Geospatial_data_init (Some points) attributes
                    (Some (Geo_reference_init zone 0 0)) default_attribute_name
                  = Ok G).
  { unfold Geospatial_data_init, check_data_points. rewrite Hpoints.
    reflexivity. }
  split; [|split].
  - unfold Geospatial_data__init__, _set_using_lat_long. cbn.
    rewrite Hconvert. cbn. exact Hinit.
  - rewrite (get_data_points_absolute G rows) by reflexivity. reflexivity.
  - intros lats_longs other_latitudes other_longitudes Hsplit.
    unfold Geospatial_data__init__, _set_using_lat_long.
    rewrite orb_true_r. cbn. rewrite Hsplit. cbn.
    rewrite Hconvert. cbn. exact Hinit.
Qed.

End ConstructorProperties.

Lemma constructor_from_latitudes_longitudes_witness :
  Geospatial_data__init__ decimal_int decimal_float sample_is_IOError
    sample_convert ∅ DataNone AttrNone None None None None
    (Some [1; 2]) (Some [3; 4]) false
  = Ok (mkGeospatial (Arr2 2 [[3; 1]; [4; 2]]) None
                     (Geo_reference_init 56 0 0) None).
Proof.
  apply (constructor_from_latitudes_longitudes decimal_int decimal_float
           sample_is_IOError sample_convert ∅ AttrNone None [1; 2] [3; 4]
           (PyList (Arr2 2 [[3; 1]; [4; 2]])) 56 [[3; 1]; [4; 2]]);
    reflexivity.
Defined.

(** ** Normalising points *)

Lemma check_data_points_Ok (p : pyseq) (a : ndarray) :
  check_data_points (Some p) = Ok a ->
  a = ensure_numeric p /\ exists n, shape a = [n; 2%nat].
Proof.
  unfold check_data_points.
  destruct (shape (ensure_numeric p)) as [|n [|m [|k dims]]] eqn:E; cbn;
    try discriminate.
  destruct (m =? 2)%nat eqn:Em; cbn; [|discriminate].
  apply Nat.eqb_eq in Em. subst m. intros H. injection H as <-.
  split; [reflexivity|]. eauto.
Qed.

Lemma get_absolute_default {arith : Arithmetic} (a : ndarray) (n : nat) :
  shape a = [n; 2%nat] ->
  get_absolute Geo_reference_default (PyArray a) = Ok (PyArray a).
Proof.
  intros Hshape. unfold get_absolute, format_shape. cbn [ensure_numeric].
  rewrite Hshape. reflexivity.
Qed.

Section Normalising.

Context {arith : Arithmetic} {platform : Platform}.

Variable int_literal : string -> option Z.
Variable float_literal : string -> option Q.
Variable is_IOError : exn -> bool.
Variable convert_from_latlon_to_utm : list Q -> list Q -> result (pyseq * Z).
Variable fs : gmap string file.

(** X16.  The two normalising functions agree: whenever [ensure_geospatial]
    returns a set for some points and geo reference, [ensure_absolute] on
    the same arguments gives what [get_data_points(absolute=True)] gives on
    that set. *)
Theorem ensure_geospatial_then_absolute (points : points_arg)
    (geo_reference : geo_reference_arg) (G : Geospatial_data) :
  ensure_geospatial points geo_reference = Ok G ->
  ensure_absolute int_literal float_literal is_IOError
                  convert_from_latlon_to_utm fs (inr points) geo_reference
  = get_data_points G true NoGeo.
Proof.
  unfold ensure_geospatial, ensure_absolute.
  destruct points as [G0|p].
  - cbn. destruct geo_reference as [|g|z x y]; cbn; try discriminate.
    intros H. injection H as ->. unfold get_data_points.
    destruct (get_absolute (geo_reference G) (PyArray (data_points G)));
      reflexivity.
  - unfold Geospatial_data_init.
    destruct (check_data_points (Some (PyArray (ensure_numeric p))))
      as [a|e] eqn:Ha; [|cbn; discriminate].
    apply check_data_points_Ok in Ha. destruct Ha as [-> [n Hn]].
    cbn -[get_absolute]. intros H. injection H as <-. cbn -[get_absolute].
    destruct (as_Geo_reference geo_reference) as [g|]; cbn -[get_absolute];
      [reflexivity|].
    cbn in Hn. rewrite (get_absolute_default _ n Hn). reflexivity.
Qed.

(** X17.  A Geospatial_data object cannot be given together with a geo
    reference, be it an object or a tuple: [geo_reference == None] is
    false for both, and the assertion fails in [ensure_geospatial], and in
    [ensure_absolute] once the points of the set have been got. *)
Theorem Geospatial_with_geo_reference_refused (G : Geospatial_data)
    (geo_reference : geo_reference_arg) (rows : list (list Q)) :
  geo_reference <> GeoNone ->
  data_points G = Arr2 2 rows ->
  ensure_geospatial (PointsGeospatial G) geo_reference = Raise AssertionError
  /\ ensure_absolute int_literal float_literal is_IOError
                     convert_from_latlon_to_utm fs
                     (inr (PointsGeospatial G)) geo_reference
     = Raise AssertionError.
Proof.
  intros Hgeo Hrows.
  assert (Hnone : equals_None geo_reference = false).
  { destruct geo_reference; [contradiction|reflexivity..]. }
  split.
  - unfold ensure_geospatial. rewrite Hnone. reflexivity.
  - unfold ensure_absolute. cbn -[get_data_points].
    rewrite (get_data_points_absolute G rows Hrows), Hnone. reflexivity.
Qed.

End Normalising.

Lemma ensure_geospatial_then_absolute_witness :
  ensure_absolute decimal_int decimal_float sample_is_IOError sample_convert ∅
                  (inr (PointsSeq (PyList (Arr2 2 [[1; 2]; [3; 4]]))))
                  (GeoTuple 56 100 200)
  = get_data_points
      (mkGeospatial (Arr2 2 [[1; 2]; [3; 4]]) None sample_geo_A None)
      true NoGeo.
Proof.
  apply (ensure_geospatial_then_absolute decimal_int decimal_float
           sample_is_IOError sample_convert ∅).
  reflexivity.
Defined.

Lemma Geospatial_with_geo_reference_refused_witness :
  ensure_geospatial (PointsGeospatial sample_A) (GeoObject sample_geo_A)
  = Raise AssertionError
  /\ ensure_absolute decimal_int decimal_float sample_is_IOError
                     sample_convert ∅ (inr (PointsGeospatial sample_A))
                     (GeoObject sample_geo_A)
     = Raise AssertionError.
Proof.
  apply (Geospatial_with_geo_reference_refused decimal_int decimal_float
           sample_is_IOError sample_convert ∅ sample_A
           (GeoObject sample_geo_A) [[1; 2]; [3; 4]]).
  - discriminate.
  - reflexivity.
Defined.

(** ** Cleaning a line *)

Lemma lstrip_lstrip (s : string) : lstrip (lstrip s) = lstrip s.
Proof.
  induction s as [|c s IH]; [reflexivity|]. cbn [lstrip].
  destruct (is_space c) eqn:E; [exact IH|]. cbn [lstrip]. rewrite E.
  reflexivity.
Qed.

Lemma rstrip_rstrip (s : string) : rstrip (rstrip s) = rstrip s.
Proof.
  induction s as [|c s IH]; [reflexivity|]. cbn [rstrip]. cbv zeta.
  destruct (is_space c && (rstrip s =? "")%string) eqn:E; [reflexivity|].
  cbn [rstrip]. cbv zeta. rewrite IH, E. reflexivity.
Qed.

Lemma rstrip_lstrip (s : string) : rstrip (lstrip s) = lstrip (rstrip s).
Proof.
  induction s as [|c s IH]; [reflexivity|]. cbn [lstrip rstrip]. cbv zeta.
  destruct (is_space c) eqn:E; cbn [andb].
  - rewrite IH. destruct (rstrip s =? "")%string eqn:Er.
    + apply String.eqb_eq in Er. rewrite Er. reflexivity.
    + cbn [lstrip]. rewrite E. reflexivity.
  - cbn [lstrip rstrip]. cbv zeta. rewrite E. reflexivity.
Qed.

Lemma strip_strip (s : string) : strip (strip s) = strip s.
Proof.
  unfold strip. rewrite (rstrip_lstrip (rstrip s)), rstrip_rstrip.
  apply lstrip_lstrip.
Qed.

Lemma has_char_lstrip (c : ascii) (s : string) :
  has_char c s = false -> has_char c (lstrip s) = false.
Proof.
  induction s as [|c' s IH]; [reflexivity|]. cbn [has_char lstrip].
  intros H. apply orb_false_iff in H. destruct H as [Hc Hs].
  destruct (is_space c'); [apply IH, Hs|]. cbn [has_char]. rewrite Hc.
  exact Hs.
Qed.

Lemma has_char_rstrip (c : ascii) (s : string) :
  has_char c s = false -> has_char c (rstrip s) = false.
Proof.
  induction s as [|c' s IH]; [reflexivity|]. cbn [has_char rstrip]. cbv zeta.
  intros H. apply orb_false_iff in H. destruct H as [Hc Hs].
  destruct (is_space c' && (rstrip s =? "")%string); [reflexivity|].
  cbn [has_char]. rewrite Hc. apply IH, Hs.
Qed.

Lemma has_char_strip (c : ascii) (s : string) :
  has_char c s = false -> has_char c (strip s) = false.
Proof. intros H. apply has_char_lstrip, has_char_rstrip, H. Qed.

Lemma split_fields_without_sep (sep : ascii) (s : string) :
  Forall (fun field => has_char sep field = false) (split sep s).
Proof.
  induction s as [|c s IH]; cbn.
  - repeat constructor.
  - destruct (Ascii.eqb c sep) eqn:E.
    + constructor; [reflexivity|exact IH].
    + destruct (split sep s) as [|field fields].
      * repeat constructor. cbn. rewrite E. reflexivity.
      * inversion IH; subst. constructor; [|assumption].
        cbn. rewrite E. assumption.
Qed.

(** X18.  What [clean_line] returns: every field is free of the delimiter
    and has no blank at either end, and a line of blanks only gives no field
    at all.  Empty fields are dropped before the fields are stripped, so a
    field of blanks is kept, as an empty string. *)
Theorem clean_line_fields (line : string) (delimiter : ascii) :
  Forall (fun field => has_char delimiter field = false /\ strip field = field)
         (clean_line line delimiter)
  /\ (strip line = "" -> clean_line line delimiter = [])
  /\ clean_line "1, ,2" "," = ["1"; ""; "2"].
Proof.
  split; [|split].
  - unfold clean_line.
    pose proof (split_fields_without_sep delimiter (strip line)) as Hsplit.
    induction Hsplit as [|field fields Hfield _ IH]; [constructor|].
    rewrite filter_cons. destruct (decide (field ≠ "")); [|exact IH].
    cbn. constructor; [|exact IH].
    split; [apply has_char_strip, Hfield|apply strip_strip].
  - intros Hblank. unfold clean_line. rewrite Hblank. reflexivity.
  - reflexivity.
Qed.

(** ** What importing a file can raise *)

Lemma raises_only_Ok {A} (allowed : list exn) (a : A) :
  raises_only allowed (Ok a).
Proof. intros e H. discriminate. Qed.

Lemma raises_only_Raise {A} (allowed : list exn) (e : exn) :
  e ∈ allowed -> raises_only allowed (Raise e : result A).
Proof. intros He e' H. injection H as <-. exact He. Qed.

Lemma raises_only_bind {A B} (allowed : list exn) (r : result A)
    (f : A -> result B) :
  raises_only allowed r -> (forall a, raises_only allowed (f a)) ->
  raises_only allowed (r ≫= f).
Proof.
  intros Hr Hf. destruct r as [a|e]; cbn; [apply Hf|].
  intros e' H. injection H as <-. apply Hr. reflexivity.
Qed.

Lemma raises_only_fmap {A B} (allowed : list exn) (r : result A) (f : A -> B) :
  raises_only allowed r -> raises_only allowed (f <$> r).
Proof.
  intros Hr. destruct r as [a|e]; cbn; [apply raises_only_Ok|].
  intros e' H. injection H as <-. apply Hr. reflexivity.
Qed.

Lemma raises_only_mono {A} (allowed allowed' : list exn) (r : result A) :
  allowed ⊆ allowed' -> raises_only allowed r -> raises_only allowed' r.
Proof. intros Hsub Hr e H. apply Hsub, Hr, H. Qed.

(** [try: body except E: handler] raises what the handler raises and what
    the body raises outside [E]. *)
Lemma raises_only_try_except {A} (allowed allowed' : list exn)
    (body handler : result A) (E : exn -> bool) :
  raises_only allowed body ->
  raises_only allowed' handler ->
  (forall e, e ∈ allowed -> E e = false -> e ∈ allowed') ->
  raises_only allowed' (try_except body E handler).
Proof.
  intros Hbody Hhandler Hrest. destruct body as [a|e]; cbn.
  - apply raises_only_Ok.
  - destruct (E e) eqn:He; [exact Hhandler|].
    apply raises_only_Raise, Hrest; [|exact He]. apply Hbody. reflexivity.
Qed.

Ltac exn_elem :=
  solve [repeat first [apply list_elem_of_here | apply list_elem_of_further]].

Ltac exn_subseteq :=
  let e := fresh "e" in
  let He := fresh "He" in
  intros e He;
  repeat (apply elem_of_cons in He; destruct He as [->|He]; [exn_elem|]);
  apply not_elem_of_nil in He; contradiction.

Section ImportRaises.

Context {platform : Platform}.

Variable int_literal : string -> option Z.
Variable float_literal : string -> option Q.
Variable is_IOError : exn -> bool.

Lemma py_float_raises (s : string) :
  raises_only [ValueError] (py_float float_literal s).
Proof.
  unfold py_float. destruct (float_literal (strip s));
    [apply raises_only_Ok|apply raises_only_Raise; left].
Qed.

Lemma py_int_raises (s : string) :
  raises_only [ValueError] (py_int int_literal s).
Proof.
  unfold py_int. destruct (int_literal (strip s));
    [apply raises_only_Ok|apply raises_only_Raise; left].
Qed.

Lemma read_attributes_raises (att_names numbers : list string)
    (att_dict : gmap string (list Q)) :
  raises_only [ValueError; IndexError]
    (read_attributes float_literal att_names numbers att_dict).
Proof.
  revert att_names att_dict.
  induction numbers as [|num numbers IH]; intros att_names att_dict.
  - destruct att_names; apply raises_only_Ok.
  - destruct att_names as [|name att_names]; cbn [read_attributes].
    + apply raises_only_Raise. right. left.
    + apply raises_only_bind; [|intros; apply IH].
      destruct (negb (num =? String newline "")%string
                && negb (num =? "")%string); [|apply raises_only_Ok].
      apply raises_only_bind; [|intros; apply raises_only_Ok].
      eapply raises_only_mono; [|apply py_float_raises]. exn_subseteq.
Qed.

Lemma read_data_line_raises (att_names numbers : list string)
    (points : list (list Q)) (att_dict : gmap string (list Q)) :
  raises_only [SyntaxError; IOError; IndexError]
    (read_data_line float_literal att_names numbers points att_dict).
Proof.
  unfold read_data_line.
  apply (raises_only_try_except [ValueError; IOError; IndexError]).
  - destruct numbers as [|n0 [|n1 numbers]];
      try (apply raises_only_Raise; right; right; left).
    apply raises_only_bind.
    { eapply raises_only_mono; [|apply py_float_raises]. exn_subseteq. }
    intros x. apply raises_only_bind.
    { eapply raises_only_mono; [|apply py_float_raises]. exn_subseteq. }
    intros y. cbv zeta.
    destruct (negb (length att_names =? length numbers)%nat).
    { apply raises_only_Raise. right. left. }
    apply raises_only_bind; [|intros; apply raises_only_Ok].
    eapply raises_only_mono; [|apply read_attributes_raises]. exn_subseteq.
  - apply raises_only_Raise. left.
  - intros e He Hne. apply elem_of_cons in He. destruct He as [->|He];
      [discriminate|]. right. exact He.
Qed.

Lemma read_data_lines_raises (att_names : list string) (delimiter : ascii)
    (fd : list string) :
  forall (line : string) (points : list (list Q))
         (att_dict : gmap string (list Q)),
  raises_only [SyntaxError; IOError; IndexError]
    (read_data_lines float_literal att_names delimiter line fd points att_dict).
Proof.
  induction fd as [|next fd IH]; intros line points att_dict;
    simpl read_data_lines; cbv zeta.
  all: destruct ((1 <? length (clean_line line delimiter))%nat
                 && negb (starts_with "#" line)); [|apply raises_only_Ok].
  all: apply raises_only_bind; [apply read_data_line_raises|].
  all: intros [points' att_dict'].
  - apply raises_only_Ok.
  - apply IH.
Qed.

Lemma read_ASCII_raises (self : Geo_reference) (fd : list string)
    (read_title : string) :
  raises_only [TitleError; ValueError; AssertionError]
    (read_ASCII int_literal float_literal self fd (Some read_title)).
Proof.
  rewrite read_ASCII_unfold.
  destruct (title_accepted read_title); [|apply raises_only_Raise; left].
  apply raises_only_bind.
  { eapply raises_only_mono; [|apply py_int_raises]. exn_subseteq. }
  intros z. apply raises_only_bind.
  { eapply raises_only_mono; [|apply py_float_raises]. exn_subseteq. }
  intros x. apply raises_only_bind.
  { eapply raises_only_mono; [|apply py_float_raises]. exn_subseteq. }
  intros y. apply raises_only_bind; [|intros; apply raises_only_Ok].
  unfold py_assert. destruct (is_IntType z);
    [apply raises_only_Ok|apply raises_only_Raise; exn_elem].
Qed.

Lemma _read_xya_file_raises (fd : list string) (delimiter : ascii) :
  raises_only [SyntaxError; IOError; IndexError; TitleError; ValueError;
               AssertionError]
    (_read_xya_file int_literal float_literal fd delimiter).
Proof.
  unfold _read_xya_file.
  destruct (readline fd) as [title fd1].
  destruct (readline fd1) as [line fd2].
  apply raises_only_bind.
  { eapply raises_only_mono; [|apply read_data_lines_raises]. exn_subseteq. }
  intros [[[line' fd'] points] att_dict].
  apply raises_only_bind; [|intros; apply raises_only_Ok].
  destruct (line' =? "")%string; [apply raises_only_Ok|].
  apply raises_only_fmap. unfold Geo_reference_from_ASCII.
  eapply raises_only_mono; [|apply read_ASCII_raises]. exn_subseteq.
Qed.

(** X19.  What importing a .xya file can raise.  From a file that can be
    opened: IOError, into which the IndexError, ValueError and SyntaxError
    of the parser are turned; the TitleError of a geo-reference block with a
    wrong first line; and the AssertionError of [read_ASCII] on a zone that
    is a long.  A file that is there but cannot be opened raises
    UnboundLocalError: [open] raises IOError, whose handler closes a file
    that was never assigned. *)
Theorem import_xya_raises (fs : gmap string file) (file_name : string)
    (delimiter : option ascii) :
  extension file_name = ".xya" ->
  (fs !! file_name <> Some Unreadable ->
   raises_only [IOError; TitleError; AssertionError]
     (import_points_file int_literal float_literal is_IOError fs file_name
                         delimiter))
  /\ (fs !! file_name = Some Unreadable ->
      import_points_file int_literal float_literal is_IOError fs file_name
                         delimiter
      = Raise UnboundLocalError).
Proof.
  intros Hext. unfold import_points_file. split.
  2: { intros ->. rewrite Hext. reflexivity. }
  intros Hfile.
  destruct (fs !! file_name) as [[content|dataset|]|];
    rewrite ?Hext; cbn [String.eqb Ascii.eqb Bool.eqb];
    try (apply raises_only_Raise; left); [|contradiction].
  apply (raises_only_try_except [IOError; TitleError; AssertionError]).
  - apply (raises_only_try_except
             [SyntaxError; IOError; IndexError; TitleError; ValueError;
              AssertionError]).
    + destruct delimiter as [delimiter|]; [apply _read_xya_file_raises|].
      apply (raises_only_try_except
               [SyntaxError; IOError; IndexError; TitleError; ValueError;
                AssertionError]);
        try apply _read_xya_file_raises.
      intros e He _. exact He.
    + apply raises_only_Raise. left.
    + intros e He Hne.
      repeat (apply elem_of_cons in He; destruct He as [->|He]);
        try discriminate; try exn_elem.
      apply not_elem_of_nil in He. contradiction.
  - apply raises_only_Raise. left.
  - intros e He _. exact He.
Qed.

End ImportRaises.

Lemma import_xya_raises_witness :
  raises_only [IOError; TitleError; AssertionError]
    (import_points_file decimal_int decimal_float sample_is_IOError
       {[ "docstring.xya" := TextFile docstring_file ]} "docstring.xya" None).
Proof.
  apply (import_xya_raises decimal_int decimal_float sample_is_IOError).
  - reflexivity.
  - vm_compute. discriminate.
Defined.

(** The AssertionError does occur: a geo-reference block whose zone is
    [sys.maxint + 1]. *)
Example import_zone_long :
  import_points_file decimal_int decimal_float sample_is_IOError
    {[ "long.xya" := TextFile long_zone_file ]} "long.xya" None
  = Raise AssertionError.
Proof. vm_compute. reflexivity. Qed.

(** ** Files that cannot be imported *)

Lemma eqb_extension (file_name ext : string) :
  extension file_name <> ext -> (extension file_name =? ext)%string = false.
Proof. intros H. apply String.eqb_neq, H. Qed.

Section ImportErrors.

Context {arith : Arithmetic} {platform : Platform}.

Variable int_literal : string -> option Z.
Variable float_literal : string -> option Q.
Variable str_int : Z -> string.
Variable str_float : Q -> string.
Variable is_IOError : exn -> bool.

(** X20.  A file that is not there cannot be imported, and a file name
    that ends in neither [.xya] nor [.pts] can be neither imported nor
    exported: each of these raises IOError, whatever the file system holds
    under the name. *)
Theorem missing_file_and_unknown_extension (fs : gmap string file)
    (file_name : string) (delimiter : option ascii) :
  (fs !! file_name = None ->
   import_points_file int_literal float_literal is_IOError fs file_name
                      delimiter
   = Raise IOError)
  /\ (extension file_name <> ".xya" -> extension file_name <> ".pts" ->
      import_points_file int_literal float_literal is_IOError fs file_name
                         delimiter
      = Raise IOError
      /\ forall (S : Geospatial_data) (absolute : bool),
           export_points_file str_int str_float S file_name absolute fs
           = Raise IOError).
Proof.
  split.
  - intros Hmissing. unfold import_points_file. rewrite Hmissing. reflexivity.
  - intros Hxya Hpts. apply eqb_extension in Hxya, Hpts. split.
    + unfold import_points_file. rewrite Hxya, Hpts.
      destruct (fs !! file_name); reflexivity.
    + intros S absolute. unfold export_points_file. rewrite Hxya, Hpts.
      reflexivity.
Qed.

Lemma clean_line_empty (delimiter : ascii) : clean_line "" delimiter = [].
Proof. reflexivity. Qed.

Lemma read_xya_without_data_lines (content : string) (delimiter : ascii)
    (title : string) :
  content = "" \/ (content = text_line title /\ has_char newline title = false) ->
  _read_xya_file int_literal float_literal (readlines content) delimiter
  = Ok (Arr1 [], ∅, None).
Proof.
  intros [->|[-> Htitle]].
  - reflexivity.
  - unfold text_line. rewrite (readlines_line title "" Htitle).
    unfold _read_xya_file. cbn [readlines readlines_from readline].
    cbn [read_data_lines]. rewrite clean_line_empty. reflexivity.
Qed.

(** X21.  A text file without data lines, empty or with a title line only,
    is read without complaint, as an array of points of shape (0,), and is
    then refused by the constructor, whose assertion on the shape of the
    points fails: the error is AssertionError, not IOError. *)
Theorem text_file_without_points (fs : gmap string file)
    (file_name content title : string) (delimiter : option ascii)
    (default_attribute_name : option string) :
  extension file_name = ".xya" ->
  fs !! file_name = Some (TextFile content) ->
  content = "" \/ (content = text_line title /\ has_char newline title = false) ->
  import_points_file int_literal float_literal is_IOError fs file_name
                     delimiter
  = Ok (Arr1 [], ∅, None)
  /\ Geospatial_data_from_file int_literal float_literal is_IOError fs
       file_name delimiter default_attribute_name
     = Raise AssertionError.
Proof.
  intros Hext Hfile Hcontent.
  assert (Himport : import_points_file int_literal float_literal is_IOError
                      fs file_name delimiter
                    = Ok (Arr1 [], ∅, None)).
  { unfold import_points_file. rewrite Hfile, Hext.
    cbn [String.eqb Ascii.eqb Bool.eqb].
    destruct delimiter as [delimiter|];
      rewrite (read_xya_without_data_lines content _ title Hcontent);
      reflexivity. }
  split; [exact Himport|].
  unfold Geospatial_data_from_file. rewrite Himport. reflexivity.
Qed.

End ImportErrors.

Lemma missing_file_and_unknown_extension_witness :
  import_points_file decimal_int decimal_float sample_is_IOError ∅
                     "points.csv" None
  = Raise IOError
  /\ export_points_file sample_str_int sample_str_float sample_A "points.csv"
                        true ∅
     = Raise IOError.
Proof.
  destruct (missing_file_and_unknown_extension decimal_int decimal_float
              sample_str_int sample_str_float sample_is_IOError ∅
              "points.csv" None) as [_ H].
  destruct H as [Himport Hexport]; [discriminate..|].
  split; [exact Himport|apply Hexport].
Defined.

Lemma text_file_without_points_witness :
  Geospatial_data_from_file decimal_int decimal_float sample_is_IOError
    {[ "title.xya" := TextFile (text_line "elevation") ]} "title.xya" None None
  = Raise AssertionError.
Proof.
  apply (text_file_without_points decimal_int decimal_float sample_is_IOError
           {[ "title.xya" := TextFile (text_line "elevation") ]} "title.xya"
           (text_line "elevation") "elevation" None None).
  - reflexivity.
  - reflexivity.
  - right. split; reflexivity.
Defined.

(** ** The first line after the title *)

Section FirstDataLine.

Context {platform : Platform}.

Variable int_literal : string -> option Z.
Variable float_literal : string -> option Q.

Lemma read_data_lines_step (att_names : list string) (delimiter : ascii)
    (line : string) (fd : list string) (points : list (list Q))
    (att_dict : gmap string (list Q)) (e : exn) :
  (1 <? length (clean_line line delimiter))%nat && negb (starts_with "#" line)
  = true ->
  read_data_line float_literal att_names (clean_line line delimiter) points
                 att_dict
  = Raise e ->
  read_data_lines float_literal att_names delimiter line fd points att_dict
  = Raise e.
Proof.
  intros Hdata Hline.
  destruct fd; cbn [read_data_lines]; cbv zeta; rewrite Hdata, Hline;
    reflexivity.
Qed.

Lemma read_data_lines_stop (att_names : list string) (delimiter : ascii)
    (line : string) (fd : list string) (points : list (list Q))
    (att_dict : gmap string (list Q)) :
  (1 <? length (clean_line line delimiter))%nat && negb (starts_with "#" line)
  = false ->
  read_data_lines float_literal att_names delimiter line fd points att_dict
  = Ok (line, fd, points, att_dict).
Proof.
  intros Hstop.
  destruct fd; cbn [read_data_lines]; cbv zeta; rewrite Hstop; reflexivity.
Qed.

(** X22.  How [_read_xya_file] fails on the line after the title.  If the
    line has two fields or more and does not start with [#], it is a data
    line: a first or second field that is no number raises SyntaxError, and
    a number of further fields that differs from the number of names in the
    title raises IOError.  Any other line that is not empty is taken as the
    first line of a geo-reference block, also a data line of one field only,
    and raises TitleError unless it starts with [#g] or [#G]. *)
Theorem first_data_line_errors (title line : string) (fd : list string)
    (delimiter : ascii) (n0 n1 : string) (numbers : list string) :
  let read :=
    _read_xya_file int_literal float_literal (title :: line :: fd) delimiter in
  (clean_line line delimiter = n0 :: n1 :: numbers ->
   starts_with "#" line = false ->
   (float_literal (strip n0) = None \/ float_literal (strip n1) = None ->
    read = Raise SyntaxError)
   /\ (is_Some (float_literal (strip n0)) ->
       is_Some (float_literal (strip n1)) ->
       length (clean_line title delimiter) <> length numbers ->
       read = Raise IOError))
  /\ ((length (clean_line line delimiter) <= 1)%nat
      \/ starts_with "#" line = true ->
      line <> "" -> title_accepted line = false ->
      read = Raise TitleError).
Proof.
  intros read. subst read. unfold _read_xya_file. cbn [readline].
  split.
  - intros Hline Hhash.
    assert (Hdata : (1 <? length (clean_line line delimiter))%nat
                    && negb (starts_with "#" line) = true).
    { rewrite Hline, Hhash. reflexivity. }
    split.
    + intros Hbad.
      rewrite (read_data_lines_step _ _ _ _ _ _ SyntaxError Hdata);
        [reflexivity|].
      rewrite Hline. unfold read_data_line, py_float.
      destruct (float_literal (strip n0)); [|reflexivity].
      destruct Hbad as [Hbad|Hbad]; [discriminate|]. rewrite Hbad.
      reflexivity.
    + intros [x Hx] [y Hy] Hlength.
      rewrite (read_data_lines_step _ _ _ _ _ _ IOError Hdata);
        [reflexivity|].
      rewrite Hline. unfold read_data_line, py_float. rewrite Hx, Hy.
      cbn. apply Nat.eqb_neq in Hlength. rewrite Hlength. reflexivity.
  - intros Hstop Hline Htitle.
    rewrite read_data_lines_stop.
    + cbn. apply String.eqb_neq in Hline. rewrite Hline.
      unfold Geo_reference_from_ASCII. rewrite read_ASCII_unfold, Htitle.
      reflexivity.
    + destruct Hstop as [Hshort|Hhash].
      * apply Nat.ltb_ge in Hshort. rewrite Hshort. reflexivity.
      * rewrite Hhash. apply andb_false_r.
Qed.

End FirstDataLine.

Lemma first_data_line_errors_witness :
  _read_xya_file decimal_int decimal_float
                 [text_line "elevation"; text_line "0.6"] ","
  = Raise TitleError.
Proof.
  apply (first_data_line_errors decimal_int decimal_float
           (text_line "elevation") (text_line "0.6") [] "," "" "" []).
  - left. vm_compute. lia.
  - discriminate.
  - reflexivity.
Defined.

(** ** Structured files *)

Section PtsFiles.

Context {arith : Arithmetic} {platform : Platform}.

Variable int_literal : string -> option Z.
Variable float_literal : string -> option Q.
Variable is_IOError : exn -> bool.

(** X23.  A structured file need not hold a geo reference: when one of the
    three global attributes is missing, the set read from points of shape
    N x 2 and vectors of attribute values has the default geo reference and
    the points and attributes of the file.  A file without the variable
    [points] raises KeyError, which is passed on unless it counts as an
    IOError. *)
Theorem pts_file_without_geo_reference (fs : gmap string file)
    (file_name : string) (dataset : NetCDF) (delimiter : option ascii)
    (default_attribute_name : option string) :
  extension file_name = ".pts" ->
  fs !! file_name = Some (NetCDFFile dataset) ->
  (forall (rows : list (list Q)) (d : gmap string (list Q)),
     nc_variables dataset !! "points" = Some (Arr2 2 rows) ->
     (forall k, delete "points" (nc_variables dataset) !! k = Arr1 <$> d !! k) ->
     nc_xllcorner dataset = None \/ nc_yllcorner dataset = None
     \/ nc_zone dataset = None ->
     Geospatial_data_from_file int_literal float_literal is_IOError fs
       file_name delimiter default_attribute_name
     = Ok (mkGeospatial (Arr2 2 rows) (Some d) Geo_reference_default
                        default_attribute_name))
  /\ (nc_variables dataset !! "points" = None ->
      is_IOError KeyError = false ->
      import_points_file int_literal float_literal is_IOError fs file_name
                         delimiter
      = Raise KeyError).
Proof.
  intros Hext Hfile.
  assert (Himport : import_points_file int_literal float_literal is_IOError
                      fs file_name delimiter
                    = try_except (_read_pts_file dataset) is_IOError
                                 (Raise IOError)).
  { unfold import_points_file. rewrite Hfile, Hext. reflexivity. }
  split.
  - intros rows d Hpoints Hattributes Hgeo.
    unfold Geospatial_data_from_file. rewrite Himport.
    unfold _read_pts_file. rewrite Hpoints.
    rewrite (read_pts_attributes _ d Hattributes).
    assert (Hread : read_NetCDF Geo_reference_default dataset
                    = Raise AttributeError).
    { unfold read_NetCDF.
      destruct (nc_xllcorner dataset), (nc_yllcorner dataset),
        (nc_zone dataset); try reflexivity.
      destruct Hgeo as [Hgeo|[Hgeo|Hgeo]]; discriminate. }
    rewrite Hread. reflexivity.
  - intros Hpoints HKeyError. rewrite Himport.
    unfold _read_pts_file. rewrite Hpoints. cbn. rewrite HKeyError.
    reflexivity.
Qed.

End PtsFiles.

Lemma pts_file_without_geo_reference_witness :
  Geospatial_data_from_file decimal_int decimal_float sample_is_IOError
    {[ "sample.pts" :=
         NetCDFFile (mkNetCDF {[ "points" := Arr2 2 [[1; 2]] ]} None None None) ]}
    "sample.pts" None None
  = Ok (mkGeospatial (Arr2 2 [[1; 2]]) (Some ∅) Geo_reference_default None).
Proof.
  apply (pts_file_without_geo_reference decimal_int decimal_float
           sample_is_IOError
           {[ "sample.pts" :=
                NetCDFFile (mkNetCDF {[ "points" := Arr2 2 [[1; 2]] ]}
                                     None None None) ]}
           "sample.pts"
           (mkNetCDF {[ "points" := Arr2 2 [[1; 2]] ]} None None None)
           None None).
  - reflexivity.
  - reflexivity.
  - reflexivity.
  - intros k. cbn. rewrite delete_singleton_eq, !lookup_empty. reflexivity.
  - left. reflexivity.
Defined.

(** ** Writing a set whose attributes are too short *)

Section ShortAttribute.

Context {arith : Arithmetic}.

Variable str_int : Z -> string.
Variable str_float : Q -> string.

Lemma attlist_Raise (d : gmap string (list Q)) (sep : ascii) (i : nat)
    (ks : list string) (e : exn) :
  foldl (fun acc att =>
           attlist ← acc;
           match d !! att ≫= (.!! i) with
           | Some value => Ok (attlist +:+ str_float value +:+ String sep "")
           | None => Raise IndexError
           end)
        (Raise e) ks
  = Raise e.
Proof. induction ks as [|k ks IH]; [reflexivity|]. cbn. exact IH. Qed.

Lemma attlist_outcome (d : gmap string (list Q)) (sep : ascii) (i : nat)
    (ks : list string) :
  forall acc : string,
  match foldl (fun acc att =>
                 attlist ← acc;
                 match d !! att ≫= (.!! i) with
                 | Some value =>
                     Ok (attlist +:+ str_float value +:+ String sep "")
                 | None => Raise IndexError
                 end)
              (Ok acc) ks with
  | Ok _ => forall k, k ∈ ks -> is_Some (d !! k ≫= (.!! i))
  | Raise e => e = IndexError
  end.
Proof.
  induction ks as [|k ks IH]; intros acc; cbn [foldl].
  - intros k Hk. apply not_elem_of_nil in Hk. contradiction.
  - rewrite bind_Ok. destruct (d !! k ≫= (.!! i)) as [value|] eqn:Hvalue.
    + specialize (IH (acc +:+ str_float value +:+ String sep "")).
      destruct (foldl _ _ ks); [|exact IH].
      intros k' Hk'. apply elem_of_cons in Hk'. destruct Hk' as [->|Hk'].
      * rewrite Hvalue. eauto.
      * apply IH, Hk'.
    + rewrite attlist_Raise. reflexivity.
Qed.

Lemma write_vertex_outcome (d : gmap string (list Q)) (sep : ascii)
    (i : nat) (vert : list Q) :
  match write_vertex str_float (Some d) sep i vert with
  | Ok _ => forall k, k ∈ keys d -> is_Some (d !! k ≫= (.!! i))
  | Raise e => e = IndexError
  end.
Proof.
  unfold write_vertex.
  pose proof (attlist_outcome d sep i (keys d) ",") as Hattlist.
  destruct (foldl _ _ (keys d)) as [attlist|e]; cbn; [|exact Hattlist].
  destruct (vert !! 0%nat); [|reflexivity].
  destruct (vert !! 1%nat); [exact Hattlist|reflexivity].
Qed.

Lemma write_vertices_outcome (d : gmap string (list Q)) (sep : ascii)
    (rows : list (list Q)) :
  forall i : nat,
  match write_vertices str_float (Some d) sep i rows with
  | Ok _ => forall j k, (j < length rows)%nat -> k ∈ keys d ->
                        is_Some (d !! k ≫= (.!! (i + j)%nat))
  | Raise e => e = IndexError
  end.
Proof.
  induction rows as [|vert rows IH]; intros i; cbn [write_vertices].
  - intros j k Hj. cbn in Hj. lia.
  - pose proof (write_vertex_outcome d sep i vert) as Hvert.
    destruct (write_vertex str_float (Some d) sep i vert) as [line|e]; cbn;
      [|exact Hvert].
    specialize (IH (S i)).
    destruct (write_vertices str_float (Some d) sep (S i) rows) as [rest|e];
      cbn; [|exact IH].
    intros j k Hj Hk. destruct j as [|j].
    + rewrite Nat.add_0_r. apply Hvert, Hk.
    + replace (i + S j)%nat with (S i + j)%nat by lia.
      apply IH; [cbn in Hj; lia|exact Hk].
Qed.

(** X24.  A set one of whose attributes has fewer values than there are
    points cannot be written as text: [_write_xya_file] raises IndexError at
    the first point without a value, and so does [export_points_file] to a
    [.xya] file. *)
Theorem short_attribute_cannot_be_written (S : Geospatial_data)
    (rows : list (list Q)) (d : gmap string (list Q)) (k : string)
    (values : list Q) :
  data_points S = Arr2 2 rows ->
  attributes S = Some d ->
  d !! k = Some values ->
  (length values < length rows)%nat ->
  (forall (geo_reference : option Geo_reference) (delimiter : ascii),
     _write_xya_file str_int str_float (data_points S) (attributes S)
                     geo_reference delimiter
     = Raise IndexError)
  /\ forall (file_name : string) (absolute : bool) (fs : gmap string file),
       extension file_name = ".xya" ->
       export_points_file str_int str_float S file_name absolute fs
       = Raise IndexError.
Proof.
  intros Hrows Hd Hk Hshort.
  assert (Hwrite : forall (rows' : list (list Q))
                          (geo_reference : option Geo_reference)
                          (delimiter : ascii),
            length rows' = length rows ->
            _write_xya_file str_int str_float (Arr2 2 rows') (Some d)
                            geo_reference delimiter
            = Raise IndexError).
  { intros rows' geo_reference delimiter Hlength. unfold _write_xya_file.
    pose proof (write_vertices_outcome d delimiter rows' 0) as Hvertices.
    destruct (write_vertices str_float (Some d) delimiter 0 rows')
      as [body|e]; [|subst e; reflexivity].
    exfalso.
    destruct (Hvertices (length values) k) as [value Hvalue]; [lia| |].
    - apply elem_of_keys. eauto.
    - cbn in Hvalue. rewrite Hk in Hvalue. cbn in Hvalue.
      apply lookup_lt_Some in Hvalue. lia. }
  split.
  - intros geo_reference delimiter. rewrite Hrows, Hd.
    apply Hwrite. reflexivity.
  - intros file_name absolute fs Hext. unfold export_points_file.
    rewrite Hext. cbn [String.eqb Ascii.eqb Bool.eqb].
    unfold get_all_attributes. rewrite Hd.
    assert (Hlength : length (written_rows S rows absolute) = length rows).
    { unfold written_rows. destruct absolute; [|reflexivity].
      apply length_absolute_rows. }
    destruct absolute;
      rewrite (get_data_points_written S rows _ Hrows), bind_Ok;
      rewrite (Hwrite _ _ _ Hlength); reflexivity.
Qed.

End ShortAttribute.

Lemma short_attribute_cannot_be_written_witness :
  export_points_file sample_str_int sample_str_float
    (mkGeospatial (Arr2 2 [[1; 2]; [3; 4]]) (Some (elevation_only [10]))
                  Geo_reference_default None)
    "short.xya" true ∅
  = Raise IndexError.
Proof.
  apply (short_attribute_cannot_be_written sample_str_int sample_str_float
           (mkGeospatial (Arr2 2 [[1; 2]; [3; 4]]) (Some (elevation_only [10]))
                         Geo_reference_default None)
           [[1; 2]; [3; 4]] (elevation_only [10]) "elevation" [10]).
  - reflexivity.
  - reflexivity.
  - reflexivity.
  - cbn. lia.
  - reflexivity.
Defined.

(** ** The geo reference of a sum *)

Lemma with_geo_reference_same (S : Geospatial_data) :
  with_geo_reference S (geo_reference S) = S.
Proof. destruct S. reflexivity. Qed.

(** X25.  Two sets in different zones, neither of them unset, cannot be
    added: [__add__] raises the ANUGAError of [reconcile_zones] and leaves
    both sets as they were. *)
Theorem add_zone_mismatch {arith : Arithmetic} (A B : Geospatial_data) :
  zone (geo_reference A) <> DEFAULT_ZONE ->
  zone (geo_reference B) <> DEFAULT_ZONE ->
  zone (geo_reference A) <> zone (geo_reference B) ->
  __add__ A B = ((A, B), Raise ANUGAError).
Proof.
  intros HA HB HAB. unfold __add__, get_geo_reference, reconcile_zones.
  apply Z.eqb_neq in HA, HB, HAB. rewrite HA, HB, HAB. cbn [orb andb].
  rewrite !with_geo_reference_same. reflexivity.
Qed.

Lemma add_zone_mismatch_witness :
  __add__ sample_A
          (mkGeospatial (Arr2 2 [[5; 6]]) None (Geo_reference_init 55 0 0) None)
  = ((sample_A,
      mkGeospatial (Arr2 2 [[5; 6]]) None (Geo_reference_init 55 0 0) None),
     Raise ANUGAError).
Proof.
  apply (add_zone_mismatch sample_A
           (mkGeospatial (Arr2 2 [[5; 6]]) None (Geo_reference_init 55 0 0)
                         None));
    discriminate.
Defined.

Lemma Geospatial_data_init_geo_reference (data_points : option pyseq)
    (attributes : attributes_arg) (g : Geo_reference)
    (name : option string) (C : Geospatial_data) :
  Geospatial_data_init data_points attributes (Some g) name = Ok C ->
  geo_reference C = g /\ default_attribute_name C = name.
Proof.
  unfold Geospatial_data_init.
  destruct (check_data_points data_points); [|discriminate].
  cbn. intros H. injection H as <-. split; reflexivity.
Qed.

Lemma reconcile_zones_set_zone_kept (self other self' other' : Geo_reference) :
  reconcile_zones self other = ((self', other'), Ok tt) ->
  (zone self <> DEFAULT_ZONE -> self' = self)
  /\ (zone other <> DEFAULT_ZONE -> other' = other).
Proof.
  unfold reconcile_zones.
  destruct (zone self =? zone other)%Z eqn:E1;
    destruct (zone self =? DEFAULT_ZONE)%Z eqn:E2;
    destruct (zone other =? DEFAULT_ZONE)%Z eqn:E3; cbn.
  all: intros H; inversion H; subst; clear H.
  all: apply Z.eqb_eq in E2 || apply Z.eqb_neq in E2.
  all: apply Z.eqb_eq in E3 || apply Z.eqb_neq in E3.
  all: split; intros; try reflexivity; contradiction.
Qed.

Lemma merged_origin_le (a b : Q) :
  (if Qle_bool a b then a else b) <= a /\ (if Qle_bool a b then a else b) <= b.
Proof.
  destruct (Qle_bool a b) eqn:E.
  - apply Qle_bool_iff in E. split; [apply Qle_refl|exact E].
  - split; [|apply Qle_refl].
    destruct (Qlt_le_dec b a) as [Hlt|Hle]; [apply Qlt_le_weak, Hlt|].
    apply Qle_bool_iff in Hle. congruence.
Qed.

(** X26.  The geo reference of a sum.  When [__add__] returns, the two
    operands are left in one zone, which is the zone of the sum; an operand
    whose zone was set keeps it, so only an unset zone is overwritten; the
    origins of the operands are unchanged; and the origin of the sum is, in
    each coordinate, the smaller of the two origins.  The sum has no default
    attribute name. *)
Theorem add_geo_reference {arith : Arithmetic} (A B A' B' C : Geospatial_data) :
  __add__ A B = ((A', B'), Ok C) ->
  zone (geo_reference A') = zone (geo_reference B')
  /\ zone (geo_reference C) = zone (geo_reference A')
  /\ (zone (geo_reference A) <> DEFAULT_ZONE -> A' = A)
  /\ (zone (geo_reference B) <> DEFAULT_ZONE -> B' = B)
  /\ xllcorner (geo_reference A') = xllcorner (geo_reference A)
  /\ yllcorner (geo_reference A') = yllcorner (geo_reference A)
  /\ xllcorner (geo_reference B') = xllcorner (geo_reference B)
  /\ yllcorner (geo_reference B') = yllcorner (geo_reference B)
  /\ xllcorner (geo_reference C)
     = merged_xll (geo_reference A) (geo_reference B)
  /\ yllcorner (geo_reference C)
     = merged_yll (geo_reference A) (geo_reference B)
  /\ xllcorner (geo_reference C) <= xllcorner (geo_reference A)
  /\ xllcorner (geo_reference C) <= xllcorner (geo_reference B)
  /\ yllcorner (geo_reference C) <= yllcorner (geo_reference A)
  /\ yllcorner (geo_reference C) <= yllcorner (geo_reference B)
  /\ default_attribute_name C = None.
Proof.
  unfold __add__, get_geo_reference.
  destruct (reconcile_zones (geo_reference A) (geo_reference B))
    as [[g1 g2] reconciled] eqn:Hreconcile.
  intros H. injection H as HA' HB' HC.
  destruct reconciled as [[]|e]; [|discriminate].
  rewrite bind_Ok in HC.
  destruct (change_points_geo_ref _ (PyArray (data_points A)) _);
    [|discriminate].
  rewrite bind_Ok in HC.
  destruct (change_points_geo_ref _ (PyArray (data_points B)) _);
    [|discriminate].
  rewrite bind_Ok in HC.
  destruct (concatenate _ _); [|discriminate].
  rewrite bind_Ok in HC.
  destruct (add_attributes _ _); [|discriminate].
  rewrite bind_Ok in HC.
  apply Geospatial_data_init_geo_reference in HC. destruct HC as [HC Hname].
  destruct (reconcile_zones_agree _ _ _ _ Hreconcile)
    as (Hzone & Hx1 & Hy1 & Hx2 & Hy2).
  destruct (reconcile_zones_set_zone_kept _ _ _ _ Hreconcile) as [Hg1 Hg2].
  subst A' B'. rewrite HC. cbn [geo_reference with_geo_reference zone xllcorner
    yllcorner Geo_reference_init get_zone].
  unfold merged_xll, merged_yll. rewrite Hx1, Hy1, Hx2, Hy2.
  pose proof (merged_origin_le (xllcorner (geo_reference A))
                (xllcorner (geo_reference B))) as [Hxa Hxb].
  pose proof (merged_origin_le (yllcorner (geo_reference A))
                (yllcorner (geo_reference B))) as [Hya Hyb].
  repeat split; try reflexivity; try assumption.
  - intros HA. rewrite (Hg1 HA). apply with_geo_reference_same.
  - intros HB. rewrite (Hg2 HB). apply with_geo_reference_same.
Qed.

Lemma add_geo_reference_witness :
  zone (geo_reference sample_A)
  = zone (geo_reference (with_geo_reference sample_B (set_zone sample_geo_B 56))).
Proof.
  apply (add_geo_reference sample_A sample_B sample_A
           (with_geo_reference sample_B (set_zone sample_geo_B 56))
           (mkGeospatial
              (Arr2 2 (rebased sample_geo_A 50 200 [[1; 2]; [3; 4]]
                       ++ rebased sample_geo_B 50 200 [[5; 6]]))
              (Some (elevation_only [10; 20; 30]))
              (Geo_reference_init 56 50 200) None)).
  vm_compute. reflexivity.
Defined.

(** ** The tolerance of [get_absolute] *)

(** X27.  [get_absolute] adds the origin to N x 2 points unless both of its
    coordinates are closer to zero than [atol], in which case the points are
    returned as they are: an origin such as (1e-9, 0) is not added. *)
Theorem get_absolute_tolerance {arith : Arithmetic} (self : Geo_reference) (is_list : bool)
    (rows : list (list Q)) :
  (Qabs (xllcorner self) < atol /\ Qabs (yllcorner self) < atol ->
   get_absolute self (as_input is_list (Arr2 2 rows))
   = Ok (as_input is_list (Arr2 2 rows)))
  /\ (~ (Qabs (xllcorner self) < atol /\ Qabs (yllcorner self) < atol) ->
      get_absolute self (as_input is_list (Arr2 2 rows))
      = Ok (as_input is_list
              (Arr2 2 (translate (xllcorner self) (yllcorner self) rows))))
  /\ get_absolute (Geo_reference_init 56 (1 # 1000000000) 0)
                  (PyList (Arr2 2 [[1; 2]]))
     = Ok (PyList (Arr2 2 [[1; 2]])).
Proof.
  rewrite get_absolute_Nx2. split; [|split].
  - intros H. apply is_absolute_iff in H. rewrite H. reflexivity.
  - intros H. destruct (is_absolute self) eqn:E; [|reflexivity].
    apply is_absolute_iff in E. contradiction.
  - reflexivity.
Qed.

(** ** Removing repeated values *)

Section UniqArr.

Context {A : Type} `{EqDecision A}.

Lemma uniq_arr_from (arr : list A) :
  forall ret : list A,
  NoDup ret ->
  exists new : list A,
    foldl (fun ret i => if bool_decide (i ∈ ret) then ret else ret ++ [i])
          ret arr
    = ret ++ new
    /\ NoDup (ret ++ new)
    /\ sublist new arr
    /\ (forall x, x ∈ ret ++ new <-> x ∈ ret \/ x ∈ arr)
    /\ (NoDup (ret ++ arr) -> new = arr).
Proof.
  induction arr as [|i arr IH]; intros ret Hret; cbn [foldl].
  - exists []. rewrite app_nil_r.
    split; [reflexivity|]. split; [exact Hret|]. split; [constructor|].
    split; [|intros _; reflexivity].
    intros x. split; [intros Hx; left; exact Hx|].
    intros [Hx|Hx]; [exact Hx|]. apply not_elem_of_nil in Hx. contradiction.
  - destruct (bool_decide (i ∈ ret)) eqn:Hi.
    + apply bool_decide_eq_true in Hi.
      destruct (IH ret Hret) as (new & Hfold & Hnodup & Hsub & Hin & Hsame).
      exists new.
      split; [exact Hfold|]. split; [exact Hnodup|].
      split; [apply sublist_cons, Hsub|]. split.
      * intros x. split.
        -- intros Hx. apply Hin in Hx. destruct Hx as [Hx|Hx];
             [left; exact Hx|]. right. right. exact Hx.
        -- intros [Hx|Hx]; apply Hin; [left; exact Hx|].
           apply elem_of_cons in Hx. destruct Hx as [->|Hx];
             [left; exact Hi|right; exact Hx].
      * intros Hnd. apply NoDup_app in Hnd. destruct Hnd as (_ & Hdisjoint & _).
        exfalso. apply (Hdisjoint i Hi). left.
    + apply bool_decide_eq_false in Hi.
      assert (Hret' : NoDup (ret ++ [i])).
      { apply NoDup_app. split; [exact Hret|]. split; [|apply NoDup_singleton].
        intros x Hx Hx'. apply list_elem_of_singleton in Hx'. subst.
        contradiction. }
      destruct (IH (ret ++ [i]) Hret')
        as (new & Hfold & Hnodup & Hsub & Hin & Hsame).
      exists (i :: new). rewrite Hfold, <- app_assoc. cbn [app].
      split; [reflexivity|].
      split; [rewrite <- app_assoc in Hnodup; exact Hnodup|].
      split; [apply sublist_skip, Hsub|]. split.
      * intros x. specialize (Hin x). rewrite <- app_assoc in Hin.
        cbn [app] in Hin. rewrite Hin.
        rewrite elem_of_app, (elem_of_cons arr), list_elem_of_singleton.
        tauto.
      * intros Hnd. f_equal. apply Hsame.
        rewrite <- app_assoc. exact Hnd.
Qed.

(** X28.  [uniq_arr] returns a list without repeated values that holds
    exactly the values of its argument, in the order of the argument (it is
    a sublist of it).  A list without repeated values is returned as it is,
    so that applying [uniq_arr] twice is the same as applying it once. *)
Theorem uniq_arr_properties (arr : list A) :
  NoDup (uniq_arr arr)
  /\ (forall x, x ∈ uniq_arr arr <-> x ∈ arr)
  /\ sublist (uniq_arr arr) arr
  /\ (NoDup arr -> uniq_arr arr = arr)
  /\ uniq_arr (uniq_arr arr) = uniq_arr arr.
Proof.
  assert (Hfrom : forall l : list A,
            NoDup (uniq_arr l)
            /\ (forall x, x ∈ uniq_arr l <-> x ∈ l)
            /\ sublist (uniq_arr l) l
            /\ (NoDup l -> uniq_arr l = l)).
  { intros l. unfold uniq_arr.
    destruct (uniq_arr_from l [] (NoDup_nil_2))
      as (new & -> & Hnodup & Hsub & Hin & Hsame).
    cbn [app] in *. repeat split; try assumption.
    - intros Hx. apply Hin in Hx. destruct Hx as [Hx|Hx]; [|exact Hx].
      apply not_elem_of_nil in Hx. contradiction.
    - intros Hx. apply Hin. right. exact Hx. }
  destruct (Hfrom arr) as (Hnodup & Hin & Hsub & Hsame).
  repeat split; try assumption; try apply Hin.
  apply (Hfrom (uniq_arr arr)), Hnodup.
Qed.

End UniqArr.

(** ** The size of a sum *)

(** X29.  The sum of two sets of N x 2 points has as many points as the two
    sets together. *)
Theorem len_of_sum {arith : Arithmetic} (A B A' B' C : Geospatial_data)
    (rowsA rowsB : list (list Q)) :
  data_points A = Arr2 2 rowsA ->
  data_points B = Arr2 2 rowsB ->
  __add__ A B = ((A', B'), Ok C) ->
  __len__ C = (__len__ A + __len__ B)%nat.
Proof.
  intros HA HB Hadd.
  destruct (reconcile_zones (geo_reference A) (geo_reference B))
    as [[g1 g2] reconciled] eqn:Hreconcile.
  assert (Hok : reconciled = Ok tt).
  { revert Hadd. unfold __add__, get_geo_reference. rewrite Hreconcile.
    intros H. injection H as _ _ H.
    destruct reconciled as [[]|e]; [reflexivity|discriminate]. }
  subst reconciled.
  destruct (add_attributes (attributes A) (attributes B))
    as [new_attributes|e] eqn:Hattributes.
  - rewrite (add_unfold A B rowsA rowsB g1 g2 new_attributes HA HB Hreconcile
               Hattributes) in Hadd.
    injection Hadd as _ _ <-.
    unfold __len__, len. rewrite HA, HB. cbn.
    unfold rebased, untranslate, translate.
    rewrite length_app, !length_map. reflexivity.
  - exfalso. revert Hadd. unfold __add__, get_geo_reference.
    rewrite Hreconcile. intros H. injection H as _ _ H.
    destruct (change_points_geo_ref _ (PyArray (data_points A)) _);
      [|discriminate].
    rewrite bind_Ok in H.
    destruct (change_points_geo_ref _ (PyArray (data_points B)) _);
      [|discriminate].
    rewrite bind_Ok in H.
    destruct (concatenate _ _); [|discriminate].
    rewrite bind_Ok, Hattributes in H. discriminate.
Qed.

Lemma len_of_sum_witness :
  __len__ (mkGeospatial
             (Arr2 2 (rebased sample_geo_A 50 200 [[1; 2]; [3; 4]]
                      ++ rebased sample_geo_B 50 200 [[5; 6]]))
             (Some (elevation_only [10; 20; 30]))
             (Geo_reference_init 56 50 200) None)
  = (__len__ sample_A + __len__ sample_B)%nat.
Proof.
  apply (len_of_sum sample_A sample_B sample_A
           (with_geo_reference sample_B (set_zone sample_geo_B 56)) _
           [[1; 2]; [3; 4]] [[5; 6]]).
  - reflexivity.
  - reflexivity.
  - vm_compute. reflexivity.
Defined.

(** ** The set read back from a file *)

(** X30.  The set that comes back when a set is exported and the file is
    imported.  Its stored points are the points written: the absolute
    points, with the default geo reference, when [absolute] is true; the
    stored points, with the zone and origin of the geo reference of the
    set (the other fields at their defaults), when it is false.  Its
    attributes are those of the set, an empty dictionary if the set had
    none, and it has no default attribute name.  A geo reference that is
    written has to have an int for its zone: the readers assert it. *)
Theorem reimported_set {arith : Arithmetic} {platform : Platform}
    (int_literal : string -> option Z)
    (float_literal : string -> option Q) (str_int : Z -> string)
    (str_float : Q -> string) (is_IOError : exn -> bool)
    (S : Geospatial_data) (rows : list (list Q)) (file_name : string)
    (absolute : bool) (fs : gmap string file) :
  well_formed S rows ->
  (extension file_name = ".pts" /\ pts_exportable S absolute)
  \/ (extension file_name = ".xya"
      /\ xya_exportable int_literal float_literal str_int str_float
                        S rows absolute) ->
  exists fs' : gmap string file,
    export_points_file str_int str_float S file_name absolute fs = Ok fs'
    /\ Geospatial_data_from_file int_literal float_literal is_IOError
         fs' file_name None None
       = Ok (mkGeospatial
               (Arr2 2 (if absolute
                        then absolute_rows (geo_reference S) rows
                        else rows))
               (Some (default ∅ (attributes S)))
               (if absolute then Geo_reference_default
                else reread (geo_reference S))
               None).
Proof.
  intros (Hrows & Hpairs & Hcols) Hformat.
  destruct (written_rows_pairs S rows absolute Hpairs) as [Hwpairs Hwlen].
  pose proof (get_data_points_written S rows absolute Hrows) as Hpoints.
  assert (Hset : mkGeospatial (Arr2 2 (written_rows S rows absolute))
                   (Some (default ∅ (attributes S)))
                   (default Geo_reference_default
                      (reread <$> (if absolute then None
                                   else Some (geo_reference S))))
                   None
                 = mkGeospatial
                     (Arr2 2 (if absolute
                              then absolute_rows (geo_reference S) rows
                              else rows))
                     (Some (default ∅ (attributes S)))
                     (if absolute then Geo_reference_default
                      else reread (geo_reference S))
                     None).
  { unfold written_rows. destruct absolute; reflexivity. }
  rewrite <- Hset.
  destruct Hformat as [[Hext Hpts]|[Hext (Hne & Hnames & Hprint & Hvalues & Hgeo)]].
  - destruct (read_written_pts (attributes S) (written_rows S rows absolute)
                (if absolute then None else Some (geo_reference S)))
      as (dataset & Hwrite & Hread).
    { apply Hpts. }
    { intros d k col Hd Hk. rewrite Hwlen. apply (Hcols d k col Hd Hk). }
    { intros g Hg. destruct absolute; [discriminate|].
      injection Hg as <-. apply Hpts. reflexivity. }
    exists (<[file_name := NetCDFFile dataset]> fs).
    split.
    { unfold export_points_file. rewrite Hext.
      replace (".pts" =? ".xya")%string with false by reflexivity.
      replace (".pts" =? ".pts")%string with true by reflexivity.
      rewrite Hpoints. unfold get_all_attributes, get_geo_reference.
      destruct absolute; rewrite bind_Ok, Hwrite; reflexivity. }
    apply Geospatial_data_from_file_imported.
    eapply import_points_file_pts;
      [exact Hext|apply lookup_insert_eq|exact Hread].
  - destruct (read_written_xya int_literal float_literal str_int str_float
                (attributes S) (written_rows S rows absolute)
                (if absolute then None else Some (geo_reference S)))
      as (text & Hwrite & Hread).
    { intros Hnil. apply Hne. destruct rows; [reflexivity|].
      rewrite Hnil in Hwlen. discriminate. }
    { exact Hnames. }
    { apply rows_printable_intro.
      - apply Forall_forall. intros row Hrow. split.
        + apply (proj1 (Forall_forall _ _) Hwpairs row Hrow).
        + apply (proj1 (Forall_forall _ _) Hprint row Hrow).
      - intros d k col Hd Hk. split; [|apply (Hvalues d k col Hd Hk)].
        rewrite Hwlen, (Hcols d k col Hd Hk). cbn. lia. }
    { intros d k col Hd Hk. rewrite Hwlen. apply (Hcols d k col Hd Hk). }
    { intros g Hg. destruct absolute; [discriminate|].
      injection Hg as <-. apply Hgeo. reflexivity. }
    exists (<[file_name := TextFile text]> fs).
    split.
    { unfold export_points_file. rewrite Hext.
      replace (".xya" =? ".xya")%string with true by reflexivity.
      unfold get_all_attributes, get_geo_reference.
      destruct absolute; rewrite Hpoints, bind_Ok, Hwrite; reflexivity. }
    apply Geospatial_data_from_file_imported.
    eapply import_points_file_xya;
      [exact Hext|apply lookup_insert_eq|exact Hread].
Qed.

Lemma reimported_set_witness :
  exists fs' : gmap string file,
    export_points_file sample_str_int sample_str_float sample_A "sample.pts"
                       false ∅ = Ok fs'
    /\ Geospatial_data_from_file decimal_int decimal_float sample_is_IOError
         fs' "sample.pts" None None
       = Ok (mkGeospatial (Arr2 2 [[1; 2]; [3; 4]])
                          (Some (elevation_only [10; 20]))
                          (reread sample_geo_A) None).
Proof.
  apply (reimported_set decimal_int decimal_float sample_str_int
           sample_str_float sample_is_IOError sample_A [[1; 2]; [3; 4]]
           "sample.pts" false ∅).
  - split; [reflexivity|]. split.
    + repeat constructor.
    + intros d k values Hd Hk. injection Hd as <-.
      unfold elevation_only in Hk.
      apply lookup_singleton_Some in Hk. destruct Hk as [_ <-]. reflexivity.
  - left. split; [reflexivity|]. split; [|reflexivity].
    intros d Hd. injection Hd as <-. reflexivity.
Defined.
